(** * Scribe lambda: a shallow embedding of
      server/routerlicious/packages/lambdas/src/scribe/lambda.ts

    The class [ScribeLambda] is modelled as a record of its mutable fields and
    its methods as functions in a small state/error/trace monad.  Calls to the
    collaborators (summary writer, producer, checkpoint manager, upstream
    context, pending message reader) are recorded in the trace, and what they
    answer is supplied by an environment [Env]; a send is recorded when the
    producer took it, and throws at its [await] when the producer rejected
    it. *)

From Stdlib Require Import ZArith List Bool String Lia Sorted.
Import ListNotations.
Open Scope Z_scope.

Set Implicit Arguments.

(** ** Protocol definitions *)

(** [MessageType] of @fluidframework/protocol-definitions, restricted to the
    members the lambda dispatches on; every other type is [OtherType]. *)
Inductive MessageType : Type :=
| Operation | ClientJoin | ClientLeave | Summarize | SummaryAck | SummaryNack
| NoClient | Control | OtherType.

Definition MessageType_eqb (a b : MessageType) : bool :=
  match a, b with
  | Operation, Operation | ClientJoin, ClientJoin | ClientLeave, ClientLeave
  | Summarize, Summarize | SummaryAck, SummaryAck | SummaryNack, SummaryNack
  | NoClient, NoClient | Control, Control | OtherType, OtherType => true
  | _, _ => false
  end.

(** [ISummaryAck]: [handle] and [summaryProposal.summarySequenceNumber]. *)
Record ISummaryAck : Type := mkAck {
  handle : string;
  summarySequenceNumber : Z
}.

(** [ISummaryNack]: [message] and [summaryProposal.summarySequenceNumber]. *)
Record ISummaryNack : Type := mkNack {
  nack_message : string;
  nack_summarySequenceNumber : Z
}.

(** [ISequencedDocumentMessage].  [deliAcked] is the truthiness of
    [serverMetadata?.deliAcked]; [ackContent] is the decoded [ISummaryAck] a
    SummaryAck op carries in [data] or [contents]; [payload] stands for the
    remaining (opaque) contents. *)
Record ISequencedDocumentMessage : Type := mkMsg {
  sequenceNumber : Z;
  minimumSequenceNumber : Z;
  referenceSequenceNumber : Z;
  mtype : MessageType;
  deliAcked : bool;
  ackContent : ISummaryAck;
  payload : string
}.

(** An element of [boxcar.contents]: only [SequencedOperationType] messages are
    looked at by the handler. *)
Inductive IMessage : Type :=
| SequencedOperation (operation : ISequencedDocumentMessage)
| OtherMessage.

(** [IQueuedMessage]; [value] is what [extractBoxcar] returns as contents. *)
Record IQueuedMessage : Type := mkQueued {
  offset : Z;
  partition : Z;
  value : list IMessage
}.

(** [IScribe], the persisted checkpoint. *)
Module IScribe.
Record t (PS : Type) : Type := mk {
  lastSummarySequenceNumber : option Z;
  lastClientSummaryHead : option string;
  logOffset : option Z;
  minimumSequenceNumber : Z;
  protocolState : PS;
  sequenceNumber : Z;
  validParentSummaries : option (list string);
  isCorrupt : bool;
  protocolHead : Z;
  checkpointTimestamp : Z
}.
End IScribe.

(** [CheckpointReason] of ../utils. *)
Inductive CheckpointReason : Type :=
| EveryMessage | IdleTime | MaxTime | MaxMessages | ClearCache | NoClients
| MarkAsCorrupt.

(** The contents of a control message of type [ControlMessageType.UpdateDSN]. *)
Record UpdateDSN : Type := mkUpdateDSN {
  durableSequenceNumber : Z;
  isClientSummary : bool;
  dsn_clearCache : bool
}.

(** The [IDocumentSystemMessage]s the lambda builds in [sendSummaryAck],
    [sendSummaryNack] and [sendSummaryConfirmationMessage].  The constant
    fields (clientSequenceNumber = -1, referenceSequenceNumber = -1) are left
    out; [traces] is present iff [serviceConfiguration.enableTraces]. *)
Inductive IDocumentSystemMessage : Type :=
| SummaryAckOp (contents : ISummaryAck) (traces : bool)
| SummaryNackOp (contents : ISummaryNack) (traces : bool)
| ControlOp (contents : UpdateDSN) (traces : bool).

(** ** Calls to the collaborators, in the order they are made *)
Inductive Event (PS : Type) : Type :=
| ReadMessages (from to : Z)
| WriteClientSummary (op : ISequencedDocumentMessage) (head : option string)
    (checkpoint : IScribe.t PS) (pending : list ISequencedDocumentMessage)
    (isEphemeral : bool)
| WriteServiceSummary (op : ISequencedDocumentMessage) (head : Z)
    (checkpoint : IScribe.t PS) (pending : list ISequencedDocumentMessage)
(* a send the producer took *)
| SendToDeli (op : IDocumentSystemMessage)
| CheckpointWrite (checkpoint : IScribe.t PS) (head : Z)
    (inserts : list ISequencedDocumentMessage)
    (noActiveClients globalOnly isCorrupt : bool)
| CheckpointDelete (head : Z) (deferred : bool)
| ContextCheckpoint (queuedMessage : IQueuedMessage) (restartOnFailure : bool)
(* Lumberjack.info("Writing checkpoint. Reason: ...") *)
| WritingCheckpoint (reason : CheckpointReason).

Arguments ReadMessages {PS}.
Arguments SendToDeli {PS}.
Arguments CheckpointDelete {PS}.
Arguments ContextCheckpoint {PS}.
Arguments WritingCheckpoint {PS}.

(** ** Configuration: the readonly constructor arguments and
       [serviceConfiguration.scribe] *)
Record Config : Type := mkConfig {
  enablePendingCheckpointMessages : bool;
  generateServiceSummary : bool;
  scrubUserDataInSummaries : bool;
  scrubUserDataInGlobalCheckpoints : bool;
  scrubUserDataInLocalCheckpoints : bool;
  clearCacheAfterServiceSummary : bool;
  ignoreStorageException : bool;
  maxTrackedServiceSummaryVersionsSinceLastClientSummary : Z;
  maxPendingCheckpointMessagesLength : Z;
  heuristics_enable : bool;
  heuristics_maxMessages : Z;
  heuristics_maxTime : Z;
  heuristics_idleTime : Z;
  enableTraces : bool;
  kafkaCheckpointOnReprocessingOp : bool;
  restartOnCheckpointFailure : bool;
  localCheckpointEnabled : bool;
  disableTransientTenantFiltering : bool;
  (* transientTenants.has(tenantId) *)
  tenantIsTransient : bool;
  isEphemeralContainer : bool;
  (* summaryWriter.isExternal *)
  isExternal : bool;
  (* pendingMessageReader !== undefined *)
  hasPendingMessageReader : bool
}.

(** Modelled from the spec: the class [DocumentCheckpointManager] of ../utils
    is not among the sources.  It is the book-keeping of section 4.C: whether
    a NoClient op was seen, the raw messages and the time since the last
    checkpoint, the most recent message (the acknowledgement point of the next
    checkpoint) and the idle timer, which remembers the message that armed it
    and the corruption flag it was armed with. *)
Record DocumentCheckpointManager : Type := mkDCM {
  noActiveClients : bool;
  rawMessagesSinceCheckpoint : Z;
  lastCheckpointTime : Z;
  currentCheckpointMessage : option IQueuedMessage;
  idleTimer : option (option IQueuedMessage * bool)
}.

Definition updateCheckpointMessages (m : IQueuedMessage)
    (d : DocumentCheckpointManager) : DocumentCheckpointManager :=
  {| noActiveClients := noActiveClients d;
     rawMessagesSinceCheckpoint := rawMessagesSinceCheckpoint d;
     lastCheckpointTime := lastCheckpointTime d;
     currentCheckpointMessage := Some m;
     idleTimer := idleTimer d |}.

Definition incrementRawMessageCounter (d : DocumentCheckpointManager)
    : DocumentCheckpointManager :=
  {| noActiveClients := noActiveClients d;
     rawMessagesSinceCheckpoint := rawMessagesSinceCheckpoint d + 1;
     lastCheckpointTime := lastCheckpointTime d;
     currentCheckpointMessage := currentCheckpointMessage d;
     idleTimer := idleTimer d |}.

Definition setNoActiveClients (b : bool) (d : DocumentCheckpointManager)
    : DocumentCheckpointManager :=
  {| noActiveClients := b;
     rawMessagesSinceCheckpoint := rawMessagesSinceCheckpoint d;
     lastCheckpointTime := lastCheckpointTime d;
     currentCheckpointMessage := currentCheckpointMessage d;
     idleTimer := idleTimer d |}.

Definition resetCheckpointTimer (now : Z) (d : DocumentCheckpointManager)
    : DocumentCheckpointManager :=
  {| noActiveClients := noActiveClients d;
     rawMessagesSinceCheckpoint := 0;
     lastCheckpointTime := now;
     currentCheckpointMessage := currentCheckpointMessage d;
     idleTimer := None |}.

Definition updateCheckpointIdleTimer (isDocumentCorrupt : bool)
    (d : DocumentCheckpointManager) : DocumentCheckpointManager :=
  {| noActiveClients := noActiveClients d;
     rawMessagesSinceCheckpoint := rawMessagesSinceCheckpoint d;
     lastCheckpointTime := lastCheckpointTime d;
     currentCheckpointMessage := currentCheckpointMessage d;
     idleTimer := Some (currentCheckpointMessage d, isDocumentCorrupt) |}.

(** ** The protocol handler

    [ProtocolOpHandler] (package protocol-base) and [initializeProtocol]
    (./utils) are outside the sources: they are an interface here.
    [processMessage] is the body of the [try] in [processFromPending]
    (decoding string contents, then [protocolHandler.processMessage]); it is
    [None] when that body throws. *)
Class ProtocolOpHandler (PH PS : Type) : Type := {
  ph_sequenceNumber : PH -> Z;
  processMessage : PH -> ISequencedDocumentMessage -> option PH;
  getProtocolState : PH -> bool -> PS;
  initializeProtocol : PS -> PH
}.

(** What a started checkpoint write remembers until it settles: the variables
    the promise chain of [checkpointCore] closes over, and the [inserts]
    that [writeCheckpoint] computed before it awaited the write. *)
Record InFlight (PS : Type) : Type := mkInFlight {
  if_checkpoint : IScribe.t PS;
  if_queuedMessage : IQueuedMessage;
  if_clearCache : bool;
  if_skipKafkaCheckpoint : bool;
  if_inserts : list ISequencedDocumentMessage
}.

(** How the awaited operation of an in-flight checkpoint settles. *)
Inductive Settled : Type := Fulfilled | Rejected.

(** What the summary writer answers. *)
Inductive SummaryResponse : Type :=
| StatusTrue (message : ISummaryAck)
| StatusFalse (message : ISummaryNack).

Inductive Res (A : Type) : Type :=
| Ok (a : A)
| Throw (e : string).
Arguments Throw {A}.

Section Lambda.

Context {PH PS : Type} `{ProtocolOpHandler PH PS}.

Record ScribeLambda : Type := mkScribeLambda {
  lastOffset : option Z;
  pendingCheckpointScribe : option (IScribe.t PS);
  pendingCheckpointOffset : option IQueuedMessage;
  pendingP : option (InFlight PS);
  pendingCheckpointMessages : list ISequencedDocumentMessage;
  pendingMessages : list ISequencedDocumentMessage;
  this_sequenceNumber : Z;
  minSequenceNumber : Z;
  lastClientSummaryHead : option string;
  lastSummarySequenceNumber : option Z;
  validParentSummaries : option (list string);
  isDocumentCorrupt : bool;
  clearCache : bool;
  closed : bool;
  documentCheckpointManager : DocumentCheckpointManager;
  globalCheckpointOnly : bool;
  lastCheckpointInsertedNumber : Z;
  protocolHandler : PH;
  protocolHead : Z
}.

Definition set_lastOffset (v : option Z) (s : ScribeLambda) : ScribeLambda :=
  {| lastOffset := v; pendingCheckpointScribe := pendingCheckpointScribe s;
     pendingCheckpointOffset := pendingCheckpointOffset s; pendingP := pendingP s;
     pendingCheckpointMessages := pendingCheckpointMessages s;
     pendingMessages := pendingMessages s; this_sequenceNumber := this_sequenceNumber s;
     minSequenceNumber := minSequenceNumber s;
     lastClientSummaryHead := lastClientSummaryHead s;
     lastSummarySequenceNumber := lastSummarySequenceNumber s;
     validParentSummaries := validParentSummaries s;
     isDocumentCorrupt := isDocumentCorrupt s; clearCache := clearCache s;
     closed := closed s; documentCheckpointManager := documentCheckpointManager s;
     globalCheckpointOnly := globalCheckpointOnly s;
     lastCheckpointInsertedNumber := lastCheckpointInsertedNumber s;
     protocolHandler := protocolHandler s; protocolHead := protocolHead s |}.

Definition set_pendingCheckpointScribe (v : option (IScribe.t PS)) (s : ScribeLambda) : ScribeLambda :=
  {| lastOffset := lastOffset s; pendingCheckpointScribe := v;
     pendingCheckpointOffset := pendingCheckpointOffset s; pendingP := pendingP s;
     pendingCheckpointMessages := pendingCheckpointMessages s;
     pendingMessages := pendingMessages s; this_sequenceNumber := this_sequenceNumber s;
     minSequenceNumber := minSequenceNumber s;
     lastClientSummaryHead := lastClientSummaryHead s;
     lastSummarySequenceNumber := lastSummarySequenceNumber s;
     validParentSummaries := validParentSummaries s;
     isDocumentCorrupt := isDocumentCorrupt s; clearCache := clearCache s;
     closed := closed s; documentCheckpointManager := documentCheckpointManager s;
     globalCheckpointOnly := globalCheckpointOnly s;
     lastCheckpointInsertedNumber := lastCheckpointInsertedNumber s;
     protocolHandler := protocolHandler s; protocolHead := protocolHead s |}.

Definition set_pendingCheckpointOffset (v : option IQueuedMessage) (s : ScribeLambda) : ScribeLambda :=
  {| lastOffset := lastOffset s; pendingCheckpointScribe := pendingCheckpointScribe s;
     pendingCheckpointOffset := v; pendingP := pendingP s;
     pendingCheckpointMessages := pendingCheckpointMessages s;
     pendingMessages := pendingMessages s; this_sequenceNumber := this_sequenceNumber s;
     minSequenceNumber := minSequenceNumber s;
     lastClientSummaryHead := lastClientSummaryHead s;
     lastSummarySequenceNumber := lastSummarySequenceNumber s;
     validParentSummaries := validParentSummaries s;
     isDocumentCorrupt := isDocumentCorrupt s; clearCache := clearCache s;
     closed := closed s; documentCheckpointManager := documentCheckpointManager s;
     globalCheckpointOnly := globalCheckpointOnly s;
     lastCheckpointInsertedNumber := lastCheckpointInsertedNumber s;
     protocolHandler := protocolHandler s; protocolHead := protocolHead s |}.

Definition set_pendingP (v : option (InFlight PS)) (s : ScribeLambda) : ScribeLambda :=
  {| lastOffset := lastOffset s; pendingCheckpointScribe := pendingCheckpointScribe s;
     pendingCheckpointOffset := pendingCheckpointOffset s; pendingP := v;
     pendingCheckpointMessages := pendingCheckpointMessages s;
     pendingMessages := pendingMessages s; this_sequenceNumber := this_sequenceNumber s;
     minSequenceNumber := minSequenceNumber s;
     lastClientSummaryHead := lastClientSummaryHead s;
     lastSummarySequenceNumber := lastSummarySequenceNumber s;
     validParentSummaries := validParentSummaries s;
     isDocumentCorrupt := isDocumentCorrupt s; clearCache := clearCache s;
     closed := closed s; documentCheckpointManager := documentCheckpointManager s;
     globalCheckpointOnly := globalCheckpointOnly s;
     lastCheckpointInsertedNumber := lastCheckpointInsertedNumber s;
     protocolHandler := protocolHandler s; protocolHead := protocolHead s |}.

Definition set_pendingCheckpointMessages (v : list ISequencedDocumentMessage) (s : ScribeLambda) : ScribeLambda :=
  {| lastOffset := lastOffset s; pendingCheckpointScribe := pendingCheckpointScribe s;
     pendingCheckpointOffset := pendingCheckpointOffset s; pendingP := pendingP s;
     pendingCheckpointMessages := v; pendingMessages := pendingMessages s;
     this_sequenceNumber := this_sequenceNumber s;
     minSequenceNumber := minSequenceNumber s;
     lastClientSummaryHead := lastClientSummaryHead s;
     lastSummarySequenceNumber := lastSummarySequenceNumber s;
     validParentSummaries := validParentSummaries s;
     isDocumentCorrupt := isDocumentCorrupt s; clearCache := clearCache s;
     closed := closed s; documentCheckpointManager := documentCheckpointManager s;
     globalCheckpointOnly := globalCheckpointOnly s;
     lastCheckpointInsertedNumber := lastCheckpointInsertedNumber s;
     protocolHandler := protocolHandler s; protocolHead := protocolHead s |}.

Definition set_pendingMessages (v : list ISequencedDocumentMessage) (s : ScribeLambda) : ScribeLambda :=
  {| lastOffset := lastOffset s; pendingCheckpointScribe := pendingCheckpointScribe s;
     pendingCheckpointOffset := pendingCheckpointOffset s; pendingP := pendingP s;
     pendingCheckpointMessages := pendingCheckpointMessages s; pendingMessages := v;
     this_sequenceNumber := this_sequenceNumber s;
     minSequenceNumber := minSequenceNumber s;
     lastClientSummaryHead := lastClientSummaryHead s;
     lastSummarySequenceNumber := lastSummarySequenceNumber s;
     validParentSummaries := validParentSummaries s;
     isDocumentCorrupt := isDocumentCorrupt s; clearCache := clearCache s;
     closed := closed s; documentCheckpointManager := documentCheckpointManager s;
     globalCheckpointOnly := globalCheckpointOnly s;
     lastCheckpointInsertedNumber := lastCheckpointInsertedNumber s;
     protocolHandler := protocolHandler s; protocolHead := protocolHead s |}.

Definition set_this_sequenceNumber (v : Z) (s : ScribeLambda) : ScribeLambda :=
  {| lastOffset := lastOffset s; pendingCheckpointScribe := pendingCheckpointScribe s;
     pendingCheckpointOffset := pendingCheckpointOffset s; pendingP := pendingP s;
     pendingCheckpointMessages := pendingCheckpointMessages s;
     pendingMessages := pendingMessages s; this_sequenceNumber := v;
     minSequenceNumber := minSequenceNumber s;
     lastClientSummaryHead := lastClientSummaryHead s;
     lastSummarySequenceNumber := lastSummarySequenceNumber s;
     validParentSummaries := validParentSummaries s;
     isDocumentCorrupt := isDocumentCorrupt s; clearCache := clearCache s;
     closed := closed s; documentCheckpointManager := documentCheckpointManager s;
     globalCheckpointOnly := globalCheckpointOnly s;
     lastCheckpointInsertedNumber := lastCheckpointInsertedNumber s;
     protocolHandler := protocolHandler s; protocolHead := protocolHead s |}.

Definition set_minSequenceNumber (v : Z) (s : ScribeLambda) : ScribeLambda :=
  {| lastOffset := lastOffset s; pendingCheckpointScribe := pendingCheckpointScribe s;
     pendingCheckpointOffset := pendingCheckpointOffset s; pendingP := pendingP s;
     pendingCheckpointMessages := pendingCheckpointMessages s;
     pendingMessages := pendingMessages s; this_sequenceNumber := this_sequenceNumber s;
     minSequenceNumber := v; lastClientSummaryHead := lastClientSummaryHead s;
     lastSummarySequenceNumber := lastSummarySequenceNumber s;
     validParentSummaries := validParentSummaries s;
     isDocumentCorrupt := isDocumentCorrupt s; clearCache := clearCache s;
     closed := closed s; documentCheckpointManager := documentCheckpointManager s;
     globalCheckpointOnly := globalCheckpointOnly s;
     lastCheckpointInsertedNumber := lastCheckpointInsertedNumber s;
     protocolHandler := protocolHandler s; protocolHead := protocolHead s |}.

Definition set_lastClientSummaryHead (v : option string) (s : ScribeLambda) : ScribeLambda :=
  {| lastOffset := lastOffset s; pendingCheckpointScribe := pendingCheckpointScribe s;
     pendingCheckpointOffset := pendingCheckpointOffset s; pendingP := pendingP s;
     pendingCheckpointMessages := pendingCheckpointMessages s;
     pendingMessages := pendingMessages s; this_sequenceNumber := this_sequenceNumber s;
     minSequenceNumber := minSequenceNumber s; lastClientSummaryHead := v;
     lastSummarySequenceNumber := lastSummarySequenceNumber s;
     validParentSummaries := validParentSummaries s;
     isDocumentCorrupt := isDocumentCorrupt s; clearCache := clearCache s;
     closed := closed s; documentCheckpointManager := documentCheckpointManager s;
     globalCheckpointOnly := globalCheckpointOnly s;
     lastCheckpointInsertedNumber := lastCheckpointInsertedNumber s;
     protocolHandler := protocolHandler s; protocolHead := protocolHead s |}.

Definition set_lastSummarySequenceNumber (v : option Z) (s : ScribeLambda) : ScribeLambda :=
  {| lastOffset := lastOffset s; pendingCheckpointScribe := pendingCheckpointScribe s;
     pendingCheckpointOffset := pendingCheckpointOffset s; pendingP := pendingP s;
     pendingCheckpointMessages := pendingCheckpointMessages s;
     pendingMessages := pendingMessages s; this_sequenceNumber := this_sequenceNumber s;
     minSequenceNumber := minSequenceNumber s;
     lastClientSummaryHead := lastClientSummaryHead s; lastSummarySequenceNumber := v;
     validParentSummaries := validParentSummaries s;
     isDocumentCorrupt := isDocumentCorrupt s; clearCache := clearCache s;
     closed := closed s; documentCheckpointManager := documentCheckpointManager s;
     globalCheckpointOnly := globalCheckpointOnly s;
     lastCheckpointInsertedNumber := lastCheckpointInsertedNumber s;
     protocolHandler := protocolHandler s; protocolHead := protocolHead s |}.

Definition set_validParentSummaries (v : option (list string)) (s : ScribeLambda) : ScribeLambda :=
  {| lastOffset := lastOffset s; pendingCheckpointScribe := pendingCheckpointScribe s;
     pendingCheckpointOffset := pendingCheckpointOffset s; pendingP := pendingP s;
     pendingCheckpointMessages := pendingCheckpointMessages s;
     pendingMessages := pendingMessages s; this_sequenceNumber := this_sequenceNumber s;
     minSequenceNumber := minSequenceNumber s;
     lastClientSummaryHead := lastClientSummaryHead s;
     lastSummarySequenceNumber := lastSummarySequenceNumber s; validParentSummaries := v;
     isDocumentCorrupt := isDocumentCorrupt s; clearCache := clearCache s;
     closed := closed s; documentCheckpointManager := documentCheckpointManager s;
     globalCheckpointOnly := globalCheckpointOnly s;
     lastCheckpointInsertedNumber := lastCheckpointInsertedNumber s;
     protocolHandler := protocolHandler s; protocolHead := protocolHead s |}.

Definition set_isDocumentCorrupt (v : bool) (s : ScribeLambda) : ScribeLambda :=
  {| lastOffset := lastOffset s; pendingCheckpointScribe := pendingCheckpointScribe s;
     pendingCheckpointOffset := pendingCheckpointOffset s; pendingP := pendingP s;
     pendingCheckpointMessages := pendingCheckpointMessages s;
     pendingMessages := pendingMessages s; this_sequenceNumber := this_sequenceNumber s;
     minSequenceNumber := minSequenceNumber s;
     lastClientSummaryHead := lastClientSummaryHead s;
     lastSummarySequenceNumber := lastSummarySequenceNumber s;
     validParentSummaries := validParentSummaries s; isDocumentCorrupt := v;
     clearCache := clearCache s; closed := closed s;
     documentCheckpointManager := documentCheckpointManager s;
     globalCheckpointOnly := globalCheckpointOnly s;
     lastCheckpointInsertedNumber := lastCheckpointInsertedNumber s;
     protocolHandler := protocolHandler s; protocolHead := protocolHead s |}.

Definition set_clearCache (v : bool) (s : ScribeLambda) : ScribeLambda :=
  {| lastOffset := lastOffset s; pendingCheckpointScribe := pendingCheckpointScribe s;
     pendingCheckpointOffset := pendingCheckpointOffset s; pendingP := pendingP s;
     pendingCheckpointMessages := pendingCheckpointMessages s;
     pendingMessages := pendingMessages s; this_sequenceNumber := this_sequenceNumber s;
     minSequenceNumber := minSequenceNumber s;
     lastClientSummaryHead := lastClientSummaryHead s;
     lastSummarySequenceNumber := lastSummarySequenceNumber s;
     validParentSummaries := validParentSummaries s;
     isDocumentCorrupt := isDocumentCorrupt s; clearCache := v; closed := closed s;
     documentCheckpointManager := documentCheckpointManager s;
     globalCheckpointOnly := globalCheckpointOnly s;
     lastCheckpointInsertedNumber := lastCheckpointInsertedNumber s;
     protocolHandler := protocolHandler s; protocolHead := protocolHead s |}.

Definition set_closed (v : bool) (s : ScribeLambda) : ScribeLambda :=
  {| lastOffset := lastOffset s; pendingCheckpointScribe := pendingCheckpointScribe s;
     pendingCheckpointOffset := pendingCheckpointOffset s; pendingP := pendingP s;
     pendingCheckpointMessages := pendingCheckpointMessages s;
     pendingMessages := pendingMessages s; this_sequenceNumber := this_sequenceNumber s;
     minSequenceNumber := minSequenceNumber s;
     lastClientSummaryHead := lastClientSummaryHead s;
     lastSummarySequenceNumber := lastSummarySequenceNumber s;
     validParentSummaries := validParentSummaries s;
     isDocumentCorrupt := isDocumentCorrupt s; clearCache := clearCache s; closed := v;
     documentCheckpointManager := documentCheckpointManager s;
     globalCheckpointOnly := globalCheckpointOnly s;
     lastCheckpointInsertedNumber := lastCheckpointInsertedNumber s;
     protocolHandler := protocolHandler s; protocolHead := protocolHead s |}.

Definition set_documentCheckpointManager (v : DocumentCheckpointManager) (s : ScribeLambda) : ScribeLambda :=
  {| lastOffset := lastOffset s; pendingCheckpointScribe := pendingCheckpointScribe s;
     pendingCheckpointOffset := pendingCheckpointOffset s; pendingP := pendingP s;
     pendingCheckpointMessages := pendingCheckpointMessages s;
     pendingMessages := pendingMessages s; this_sequenceNumber := this_sequenceNumber s;
     minSequenceNumber := minSequenceNumber s;
     lastClientSummaryHead := lastClientSummaryHead s;
     lastSummarySequenceNumber := lastSummarySequenceNumber s;
     validParentSummaries := validParentSummaries s;
     isDocumentCorrupt := isDocumentCorrupt s; clearCache := clearCache s;
     closed := closed s; documentCheckpointManager := v;
     globalCheckpointOnly := globalCheckpointOnly s;
     lastCheckpointInsertedNumber := lastCheckpointInsertedNumber s;
     protocolHandler := protocolHandler s; protocolHead := protocolHead s |}.

Definition set_globalCheckpointOnly (v : bool) (s : ScribeLambda) : ScribeLambda :=
  {| lastOffset := lastOffset s; pendingCheckpointScribe := pendingCheckpointScribe s;
     pendingCheckpointOffset := pendingCheckpointOffset s; pendingP := pendingP s;
     pendingCheckpointMessages := pendingCheckpointMessages s;
     pendingMessages := pendingMessages s; this_sequenceNumber := this_sequenceNumber s;
     minSequenceNumber := minSequenceNumber s;
     lastClientSummaryHead := lastClientSummaryHead s;
     lastSummarySequenceNumber := lastSummarySequenceNumber s;
     validParentSummaries := validParentSummaries s;
     isDocumentCorrupt := isDocumentCorrupt s; clearCache := clearCache s;
     closed := closed s; documentCheckpointManager := documentCheckpointManager s;
     globalCheckpointOnly := v;
     lastCheckpointInsertedNumber := lastCheckpointInsertedNumber s;
     protocolHandler := protocolHandler s; protocolHead := protocolHead s |}.

Definition set_lastCheckpointInsertedNumber (v : Z) (s : ScribeLambda) : ScribeLambda :=
  {| lastOffset := lastOffset s; pendingCheckpointScribe := pendingCheckpointScribe s;
     pendingCheckpointOffset := pendingCheckpointOffset s; pendingP := pendingP s;
     pendingCheckpointMessages := pendingCheckpointMessages s;
     pendingMessages := pendingMessages s; this_sequenceNumber := this_sequenceNumber s;
     minSequenceNumber := minSequenceNumber s;
     lastClientSummaryHead := lastClientSummaryHead s;
     lastSummarySequenceNumber := lastSummarySequenceNumber s;
     validParentSummaries := validParentSummaries s;
     isDocumentCorrupt := isDocumentCorrupt s; clearCache := clearCache s;
     closed := closed s; documentCheckpointManager := documentCheckpointManager s;
     globalCheckpointOnly := globalCheckpointOnly s; lastCheckpointInsertedNumber := v;
     protocolHandler := protocolHandler s; protocolHead := protocolHead s |}.

Definition set_protocolHandler (v : PH) (s : ScribeLambda) : ScribeLambda :=
  {| lastOffset := lastOffset s; pendingCheckpointScribe := pendingCheckpointScribe s;
     pendingCheckpointOffset := pendingCheckpointOffset s; pendingP := pendingP s;
     pendingCheckpointMessages := pendingCheckpointMessages s;
     pendingMessages := pendingMessages s; this_sequenceNumber := this_sequenceNumber s;
     minSequenceNumber := minSequenceNumber s;
     lastClientSummaryHead := lastClientSummaryHead s;
     lastSummarySequenceNumber := lastSummarySequenceNumber s;
     validParentSummaries := validParentSummaries s;
     isDocumentCorrupt := isDocumentCorrupt s; clearCache := clearCache s;
     closed := closed s; documentCheckpointManager := documentCheckpointManager s;
     globalCheckpointOnly := globalCheckpointOnly s;
     lastCheckpointInsertedNumber := lastCheckpointInsertedNumber s;
     protocolHandler := v; protocolHead := protocolHead s |}.

Definition set_protocolHead (v : Z) (s : ScribeLambda) : ScribeLambda :=
  {| lastOffset := lastOffset s; pendingCheckpointScribe := pendingCheckpointScribe s;
     pendingCheckpointOffset := pendingCheckpointOffset s; pendingP := pendingP s;
     pendingCheckpointMessages := pendingCheckpointMessages s;
     pendingMessages := pendingMessages s; this_sequenceNumber := this_sequenceNumber s;
     minSequenceNumber := minSequenceNumber s;
     lastClientSummaryHead := lastClientSummaryHead s;
     lastSummarySequenceNumber := lastSummarySequenceNumber s;
     validParentSummaries := validParentSummaries s;
     isDocumentCorrupt := isDocumentCorrupt s; clearCache := clearCache s;
     closed := closed s; documentCheckpointManager := documentCheckpointManager s;
     globalCheckpointOnly := globalCheckpointOnly s;
     lastCheckpointInsertedNumber := lastCheckpointInsertedNumber s;
     protocolHandler := protocolHandler s; protocolHead := v |}.

(** ** The environment of a call: the answers of the collaborators and the
       clock ([Date.now()]) *)
Record Env : Type := mkEnv {
  now : Z;
  readMessages : Z -> Z -> list ISequencedDocumentMessage;
  writeClientSummary :
    ISequencedDocumentMessage -> option string -> IScribe.t PS ->
    list ISequencedDocumentMessage -> bool -> Res SummaryResponse;
  (* resolves to a handle or to a falsy value, or rejects *)
  writeServiceSummary :
    ISequencedDocumentMessage -> Z -> IScribe.t PS ->
    list ISequencedDocumentMessage -> Res (option string);
  (* the promise of [sendToDeli]: resolves, or rejects when the producer
     rejects the message or the lambda was built without a producer *)
  send : IDocumentSystemMessage -> Res unit
}.

(** ** The monad: state, exceptions and the trace of collaborator calls *)
Definition M (A : Type) : Type :=
  ScribeLambda -> Res A * ScribeLambda * list (Event PS).

Definition ret {A} (a : A) : M A := fun s => (Ok a, s, []).

Definition bind {A B} (m : M A) (k : A -> M B) : M B :=
  fun s =>
    match m s with
    | (Ok a, s1, t1) =>
        match k a s1 with
        | (r, s2, t2) => (r, s2, t1 ++ t2)
        end
    | (Throw e, s1, t1) => (Throw e, s1, t1)
    end.

Definition throw {A} (e : string) : M A := fun s => (Throw e, s, []).

(** [try m catch (e) { h e }] *)
Definition try_catch {A} (m : M A) (h : string -> M A) : M A :=
  fun s =>
    match m s with
    | (Ok a, s1, t1) => (Ok a, s1, t1)
    | (Throw e, s1, t1) =>
        match h e s1 with
        | (r, s2, t2) => (r, s2, t1 ++ t2)
        end
    end.

Definition get : M ScribeLambda := fun s => (Ok s, s, []).
Definition modify (f : ScribeLambda -> ScribeLambda) : M unit :=
  fun s => (Ok tt, f s, []).
Definition emit (e : Event PS) : M unit := fun s => (Ok tt, s, [e]).

Notation "x <- m ;; k" := (bind m (fun x => k))
  (at level 61, m at next level, right associativity).
Notation "m ;;; k" := (bind m (fun _ => k))
  (at level 61, right associativity).

Definition when (b : bool) (m : M unit) : M unit := if b then m else ret tt.

Variable cfg : Config.


(** *** Small helpers on arrays and deques *)

(** [peekBack()] of a deque, [a[a.length - 1]] of an array. *)
Fixpoint peekBack {A} (l : list A) : option A :=
  match l with
  | [] => None
  | [a] => Some a
  | _ :: r => peekBack r
  end.

(** The loop [while (length > 0 && peekFront().sequenceNumber <= capped)
    removeFront()] of [writeCheckpoint]. *)
Fixpoint removeFrontWhile (capped : Z) (l : list ISequencedDocumentMessage)
    : list ISequencedDocumentMessage :=
  match l with
  | [] => []
  | m :: r => if sequenceNumber m <=? capped then removeFrontWhile capped r else l
  end.

(** Truthiness of the [string | false | undefined] that [writeServiceSummary]
    resolves to. *)
Definition truthy (r : option string) : option string :=
  match r with
  | Some h => if String.eqb h EmptyString then None else Some h
  | None => None
  end.

Definition liftRes {A} (r : Res A) : M A :=
  match r with
  | Ok a => ret a
  | Throw e => throw e
  end.

Definition modify_dcm (f : DocumentCheckpointManager -> DocumentCheckpointManager)
    : M unit :=
  modify (fun s => set_documentCheckpointManager (f (documentCheckpointManager s)) s).

(** Modelled from the spec: [isGlobalCheckpoint] of ./utils is not among the
    sources; section 4.C: a checkpoint is global iff
    [noActiveClients \/ globalOnly]. *)
Definition isGlobalCheckpoint (noActiveClients globalCheckpointOnly : bool) : bool :=
  noActiveClients || globalCheckpointOnly.

(** Modelled from the spec: [sendToDeli] of ./utils is not among the sources;
    section 6: the producer's [send(tenantId, documentId, op)] emits the
    system op.  The lambda awaits the promise inside its [try] blocks and its
    [producer] field is [IProducer | undefined], so the send can reject:
    [send env operation] is its outcome.  A rejected send throws at the
    [await] and puts no op on the stream; the trace records the ops the
    producer took. *)
Definition sendToDeli (env : Env) (operation : IDocumentSystemMessage) : M unit :=
  liftRes (send env operation) ;;;
  emit (SendToDeli operation).

(** *** Methods of the class *)

Definition generateScribeCheckpoint (env : Env) (logOffset : option Z)
    (scrubUserData : bool) (s : ScribeLambda) : IScribe.t PS :=
  {| IScribe.lastSummarySequenceNumber := lastSummarySequenceNumber s;
     IScribe.lastClientSummaryHead := lastClientSummaryHead s;
     IScribe.logOffset := logOffset;
     IScribe.minimumSequenceNumber := minSequenceNumber s;
     IScribe.protocolState := getProtocolState (protocolHandler s) scrubUserData;
     IScribe.sequenceNumber := this_sequenceNumber s;
     IScribe.validParentSummaries := validParentSummaries s;
     IScribe.isCorrupt := isDocumentCorrupt s;
     IScribe.protocolHead := protocolHead s;
     IScribe.checkpointTimestamp := now env |}.

(** [writeCheckpoint] up to its [await]: the inserts are chosen and handed to
    the checkpoint manager. *)
Definition writeCheckpoint_start (checkpoint : IScribe.t PS)
    : M (list ISequencedDocumentMessage) :=
  s <- get ;;
  let inserts :=
    filter (fun pcm => lastCheckpointInsertedNumber s <? sequenceNumber pcm)
           (pendingCheckpointMessages s) in
  emit (CheckpointWrite checkpoint (protocolHead s) inserts
          (noActiveClients (documentCheckpointManager s))
          (globalCheckpointOnly s) (isDocumentCorrupt s)) ;;;
  ret inserts.

(** [writeCheckpoint] after the awaited write has been fulfilled. *)
Definition writeCheckpoint_finish (inserts : list ISequencedDocumentMessage)
    : M unit :=
  match peekBack inserts with
  | None => ret tt
  | Some lastInsert =>
      modify (set_lastCheckpointInsertedNumber (sequenceNumber lastInsert)) ;;;
      s <- get ;;
      let cappedNumber :=
        Z.max (protocolHead s)
              (lastCheckpointInsertedNumber s - maxPendingCheckpointMessagesLength cfg) in
      modify (set_pendingCheckpointMessages
                (removeFrontWhile cappedNumber (pendingCheckpointMessages s)))
  end.

(** [checkpointCore] up to the point where the promise chain is installed. *)
Definition checkpointCore (checkpoint : IScribe.t PS) (queuedMessage : IQueuedMessage)
    (clearCache skipKafkaCheckpoint : bool) : M unit :=
  s <- get ;;
  if closed s then ret tt
  else
    match pendingP s with
    | Some _ =>
        modify (set_pendingCheckpointScribe (Some checkpoint)) ;;;
        modify (set_pendingCheckpointOffset (Some queuedMessage))
    | None =>
        if clearCache then
          emit (CheckpointDelete (protocolHead s) true) ;;;
          modify (set_pendingP
                    (Some (mkInFlight checkpoint queuedMessage clearCache
                             skipKafkaCheckpoint [])))
        else
          inserts <- writeCheckpoint_start checkpoint ;;
          modify (set_pendingP
                    (Some (mkInFlight checkpoint queuedMessage clearCache
                             skipKafkaCheckpoint inserts)))
    end.

(** The [.then] callback of the chain, for the in-flight request [p];
    [databaseCheckpointFailed] is the flag the inner [.catch] sets. *)
Definition checkpointCore_then (p : InFlight PS) (databaseCheckpointFailed : bool)
    : M unit :=
  modify (set_pendingP None) ;;;
  when (negb (if_skipKafkaCheckpoint p) && negb databaseCheckpointFailed)
       (emit (ContextCheckpoint (if_queuedMessage p) (restartOnCheckpointFailure cfg))) ;;;
  s <- get ;;
  match pendingCheckpointScribe s, pendingCheckpointOffset s with
  | Some pendingScribe, Some pendingOffset =>
      modify (set_pendingCheckpointScribe None) ;;;
      modify (set_pendingCheckpointOffset None) ;;;
      checkpointCore pendingScribe pendingOffset (if_clearCache p) false
  | _, _ => ret tt
  end.

(** The in-flight operation settles.  A rejected write is caught by the inner
    [.catch]; a rejected delete skips [.then] and is only logged by the outer
    [.catch], which leaves [pendingP] as it is. *)
Definition settle (o : Settled) : M unit :=
  s <- get ;;
  match pendingP s with
  | None => ret tt
  | Some p =>
      if if_clearCache p then
        match o with
        | Fulfilled => checkpointCore_then p false
        | Rejected => ret tt
        end
      else
        match o with
        | Fulfilled => writeCheckpoint_finish (if_inserts p) ;;; checkpointCore_then p false
        | Rejected => checkpointCore_then p true
        end
  end.

Definition prepareCheckpoint (env : Env) (message : IQueuedMessage)
    (checkpointReason : CheckpointReason) (skipKafkaCheckpoint : bool) : M unit :=
  s <- get ;;
  let isGlobal :=
    isGlobalCheckpoint (noActiveClients (documentCheckpointManager s))
                       (globalCheckpointOnly s) in
  let checkpoint :=
    generateScribeCheckpoint env (Some (offset message))
      (if isGlobal then scrubUserDataInGlobalCheckpoints cfg
       else scrubUserDataInLocalCheckpoints cfg) s in
  modify_dcm (updateCheckpointMessages message) ;;;
  modify_dcm (resetCheckpointTimer (now env)) ;;;
  checkpointCore checkpoint message (clearCache s) skipKafkaCheckpoint ;;;
  modify (set_lastOffset (Some (offset message))) ;;;
  emit (WritingCheckpoint checkpointReason).

Definition markDocumentAsCorrupt (env : Env) (message : IQueuedMessage) : M unit :=
  modify (set_isDocumentCorrupt true) ;;;
  prepareCheckpoint env message MarkAsCorrupt true.

(** The loop of [processFromPending], by recursion on the pending deque. *)
Fixpoint processFromPending_loop (env : Env) (target : Z) (queuedMessage : IQueuedMessage)
    (pending : list ISequencedDocumentMessage) : M unit :=
  match pending with
  | [] => ret tt
  | message :: rest =>
      if sequenceNumber message <=? target then
        modify (set_pendingMessages rest) ;;;
        s <- get ;;
        match processMessage (protocolHandler s) message with
        | Some ph =>
            modify (set_protocolHandler ph) ;;;
            processFromPending_loop env target queuedMessage rest
        | None =>
            markDocumentAsCorrupt env queuedMessage ;;;
            throw "Protocol error"
        end
      else ret tt
  end.

Definition processFromPending (env : Env) (target : Z) (queuedMessage : IQueuedMessage)
    : M unit :=
  s <- get ;;
  processFromPending_loop env target queuedMessage (pendingMessages s).

Definition revertProtocolState (protocolState : PS)
    (pendingOps : list ISequencedDocumentMessage) : M unit :=
  modify (set_protocolHandler (initializeProtocol protocolState)) ;;;
  modify (set_pendingMessages pendingOps).

Definition updateProtocolHead (protocolHead : Z) : M unit :=
  modify (set_protocolHead protocolHead).

Definition updateLastSummarySequenceNumber (summarySequenceNumber : Z) : M unit :=
  modify (set_lastSummarySequenceNumber (Some summarySequenceNumber)).

(** The array operations of [updateValidParentSummaries]: [push], then
    [shift()] or [splice(0, countOverLimit)]. *)
Definition pushAndCap (limit : Z) (handles : list string) (summaryHandle : string)
    : list string :=
  let pushed := handles ++ [summaryHandle] in
  let countOverLimit := Z.of_nat (List.length pushed) - limit in
  if countOverLimit =? 1 then tl pushed
  else if 1 <? countOverLimit then skipn (Z.to_nat countOverLimit) pushed
  else pushed.

Definition updateValidParentSummaries (summaryHandle : string) : M unit :=
  modify (fun s =>
    let handles := match validParentSummaries s with
                   | None => []
                   | Some l => l
                   end in
    set_validParentSummaries
      (Some (pushAndCap (maxTrackedServiceSummaryVersionsSinceLastClientSummary cfg)
                        handles summaryHandle)) s).

Definition sendSummaryAck (env : Env) (contents : ISummaryAck) : M unit :=
  sendToDeli env (SummaryAckOp contents (enableTraces cfg)).

Definition sendSummaryNack (env : Env) (contents : ISummaryNack) : M unit :=
  sendToDeli env (SummaryNackOp contents (enableTraces cfg)).

Definition sendSummaryConfirmationMessage (env : Env) (durableSequenceNumber : Z)
    (isClientSummary clearCache : bool) : M unit :=
  sendToDeli env
    (ControlOp (mkUpdateDSN durableSequenceNumber isClientSummary clearCache)
               (enableTraces cfg)).

Definition setStateFromCheckpoint (scribe : IScribe.t PS) (s : ScribeLambda)
    : ScribeLambda :=
  set_isDocumentCorrupt (IScribe.isCorrupt scribe)
    (set_validParentSummaries (IScribe.validParentSummaries scribe)
       (set_lastSummarySequenceNumber (IScribe.lastSummarySequenceNumber scribe)
          (set_lastClientSummaryHead (IScribe.lastClientSummaryHead scribe)
             (set_minSequenceNumber (IScribe.minimumSequenceNumber scribe)
                (set_this_sequenceNumber (IScribe.sequenceNumber scribe) s))))).

Definition getCheckpointReason (env : Env) (s : ScribeLambda) : option CheckpointReason :=
  if negb (heuristics_enable cfg) then Some EveryMessage
  else
    let checkpointInfo := documentCheckpointManager s in
    if heuristics_maxMessages cfg <=? rawMessagesSinceCheckpoint checkpointInfo
    then Some MaxMessages
    else if heuristics_maxTime cfg <=? now env - lastCheckpointTime checkpointInfo
    then Some MaxTime
    else None.

Definition idleTimeCheckpoint (env : Env)
    (initialScribeCheckpointMessage : option IQueuedMessage) : M unit :=
  match initialScribeCheckpointMessage with
  | None => ret tt
  | Some message =>
      s <- get ;;
      let isGlobal :=
        isGlobalCheckpoint (noActiveClients (documentCheckpointManager s))
                           (globalCheckpointOnly s) in
      let checkpoint :=
        generateScribeCheckpoint env (Some (offset message))
          (if isGlobal then scrubUserDataInGlobalCheckpoints cfg
           else scrubUserDataInLocalCheckpoints cfg) s in
      checkpointCore checkpoint message (clearCache s) false ;;;
      emit (WritingCheckpoint IdleTime)
  end.

(** [close]: sets the flag; [protocolHandler.close()] and the metric logs do
    not touch the fields modelled here. *)
Definition close : M unit :=
  modify (set_closed true).

(** *** [handler] *)

Definition assert (b : bool) (msg : string) : M unit :=
  if b then ret tt else throw msg.

(** The branch for [MessageType.Summarize] ops that deli has not acked. *)
Definition handleSummarize (env : Env) (message : IQueuedMessage)
    (op : ISequencedDocumentMessage) : M unit :=
  s <- get ;;
  if negb (isExternal cfg)
     || (ph_sequenceNumber (protocolHandler s) <=? referenceSequenceNumber op)
  then
    let prevState_protocolState := getProtocolState (protocolHandler s) false in
    let prevState_pendingOps := pendingMessages s in
    processFromPending env (referenceSequenceNumber op) message ;;;
    s <- get ;;
    if protocolHead s <? ph_sequenceNumber (protocolHandler s) then
      try_catch
        (s <- get ;;
         let scribeCheckpoint :=
           generateScribeCheckpoint env (lastOffset s) (scrubUserDataInSummaries cfg) s in
         emit (WriteClientSummary op (lastClientSummaryHead s) scribeCheckpoint
                 (pendingCheckpointMessages s) (isEphemeralContainer cfg)) ;;;
         summaryResponse <-
           liftRes (writeClientSummary env op (lastClientSummaryHead s) scribeCheckpoint
                      (pendingCheckpointMessages s) (isEphemeralContainer cfg)) ;;
         if negb (isExternal cfg) then
           match summaryResponse with
           | StatusTrue ack =>
               sendSummaryAck env ack ;;;
               sendSummaryConfirmationMessage env (sequenceNumber op) true false ;;;
               s <- get ;;
               updateProtocolHead (ph_sequenceNumber (protocolHandler s)) ;;;
               s <- get ;;
               updateLastSummarySequenceNumber (ph_sequenceNumber (protocolHandler s))
           | StatusFalse nackMessage =>
               sendSummaryNack env nackMessage ;;;
               revertProtocolState prevState_protocolState prevState_pendingOps
           end
         else ret tt)
        (fun error =>
           revertProtocolState prevState_protocolState prevState_pendingOps ;;;
           if ignoreStorageException cfg then
             sendSummaryNack env (mkNack "Failed to summarize the document."
                                     (sequenceNumber op))
           else throw error)
    else ret tt
  else ret tt.

(** The branch for [MessageType.NoClient]. *)
Definition handleNoClient (env : Env) (op : ISequencedDocumentMessage) : M unit :=
  assert (referenceSequenceNumber op =? sequenceNumber op) "refSeq != seq" ;;;
  assert (minimumSequenceNumber op =? sequenceNumber op) "msn != seq" ;;;
  modify_dcm (setNoActiveClients true) ;;;
  modify (set_globalCheckpointOnly true) ;;;
  let enableServiceSummaryForTenant :=
    disableTransientTenantFiltering cfg || negb (tenantIsTransient cfg) in
  if generateServiceSummary cfg && negb (isEphemeralContainer cfg)
     && enableServiceSummaryForTenant
  then
    s <- get ;;
    let scribeCheckpoint :=
      generateScribeCheckpoint env (lastOffset s) (scrubUserDataInSummaries cfg) s in
    try_catch
      (s <- get ;;
       emit (WriteServiceSummary op (protocolHead s) scribeCheckpoint
               (pendingCheckpointMessages s)) ;;;
       summaryResponse <-
         liftRes (writeServiceSummary env op (protocolHead s) scribeCheckpoint
                    (pendingCheckpointMessages s)) ;;
       match truthy summaryResponse with
       | Some summaryHandle =>
           when (clearCacheAfterServiceSummary cfg) (modify (set_clearCache true)) ;;;
           sendSummaryConfirmationMessage env (sequenceNumber op) false
             (clearCacheAfterServiceSummary cfg) ;;;
           updateLastSummarySequenceNumber (sequenceNumber op) ;;;
           updateValidParentSummaries summaryHandle
       | None => ret tt
       end)
      (fun error =>
         if ignoreStorageException cfg then ret tt
         else modify (set_isDocumentCorrupt true) ;;; throw error)
  else ret tt.

(** The branch for [MessageType.SummaryAck]. *)
Definition handleSummaryAck (op : ISequencedDocumentMessage) : M unit :=
  let content := ackContent op in
  modify (set_lastClientSummaryHead (Some (handle content))) ;;;
  modify (set_validParentSummaries None) ;;;
  when (isExternal cfg)
       (updateProtocolHead (summarySequenceNumber content) ;;;
        updateLastSummarySequenceNumber (summarySequenceNumber content)).

(** The dispatch on the op type at the end of the loop body. *)
Definition dispatch (env : Env) (message : IQueuedMessage)
    (op : ISequencedDocumentMessage) : M unit :=
  if MessageType_eqb (mtype op) Summarize && negb (deliAcked op) then
    handleSummarize env message op
  else if MessageType_eqb (mtype op) NoClient then handleNoClient env op
  else if MessageType_eqb (mtype op) SummaryAck then handleSummaryAck op
  else if MessageType_eqb (mtype op) ClientJoin && localCheckpointEnabled cfg then
    modify (set_globalCheckpointOnly false)
  else ret tt.

(** [peekBack()?.sequenceNumber ?? protocolHandler.sequenceNumber] *)
Definition lastProtocolHandlerSequenceNumber (s : ScribeLambda) : Z :=
  match peekBack (pendingMessages s) with
  | Some back => sequenceNumber back
  | None => ph_sequenceNumber (protocolHandler s)
  end.

(** Lines 194-212: an op that is not the next one is either refused, or the
    ops in between are asked of the pending message reader and pushed. *)
Definition fetchMissing (env : Env) (op : ISequencedDocumentMessage) (lastKnown : Z)
    : M unit :=
  if negb (sequenceNumber op =? lastKnown + 1) then
    if negb (hasPendingMessageReader cfg) then
      throw "Invalid message sequence number."
    else
      let from := lastKnown + 1 in
      let to := sequenceNumber op - 1 in
      emit (ReadMessages from to) ;;;
      modify (fun s =>
        set_pendingMessages (pendingMessages s ++ readMessages env from to) s)
  else ret tt.

(** Lines 194-216: the gap check followed by [pendingMessages.push]. *)
Definition admitOp (env : Env) (op : ISequencedDocumentMessage) (lastKnown : Z)
    : M unit :=
  fetchMissing env op lastKnown ;;;
  modify (fun s => set_pendingMessages (pendingMessages s ++ [op]) s).

(** The body of the loop over [boxcar.contents]. *)
Definition processOp (env : Env) (message : IQueuedMessage) (baseMessage : IMessage)
    : M unit :=
  match baseMessage with
  | OtherMessage => ret tt
  | SequencedOperation op =>
      s <- get ;;
      if sequenceNumber op <=? this_sequenceNumber s then ret tt
      else
        let lastKnown := lastProtocolHandlerSequenceNumber s in
        if sequenceNumber op <=? lastKnown then ret tt
        else
          admitOp env op lastKnown ;;;
          when (enablePendingCheckpointMessages cfg)
               (modify (fun s =>
                  set_pendingCheckpointMessages (pendingCheckpointMessages s ++ [op]) s)) ;;;
          s <- get ;;
          let msnChanged := negb (minSequenceNumber s =? minimumSequenceNumber op) in
          modify (set_this_sequenceNumber (sequenceNumber op)) ;;;
          modify (set_minSequenceNumber (minimumSequenceNumber op)) ;;;
          when msnChanged (processFromPending env (minimumSequenceNumber op) message) ;;;
          modify (set_clearCache false) ;;;
          dispatch env message op
  end.

Fixpoint processBoxcar (env : Env) (message : IQueuedMessage) (contents : list IMessage)
    : M unit :=
  match contents with
  | [] => ret tt
  | baseMessage :: rest =>
      processOp env message baseMessage ;;;
      processBoxcar env message rest
  end.

(** The duplicate filter at the head of [handler]. *)
Definition reprocess (message : IQueuedMessage) : M unit :=
  modify_dcm (updateCheckpointMessages message) ;;;
  when (kafkaCheckpointOnReprocessingOp cfg)
       (emit (ContextCheckpoint message (restartOnCheckpointFailure cfg))).

(** The checkpoint decision at the end of [handler]. *)
Definition endOfBatch (env : Env) (message : IQueuedMessage) : M unit :=
  modify_dcm (updateCheckpointMessages message) ;;;
  modify_dcm incrementRawMessageCounter ;;;
  s <- get ;;
  if noActiveClients (documentCheckpointManager s) then
    when (localCheckpointEnabled cfg) (modify (set_globalCheckpointOnly true)) ;;;
    prepareCheckpoint env message NoClients false ;;;
    modify_dcm (setNoActiveClients false)
  else
    match getCheckpointReason env s with
    | None => modify_dcm (updateCheckpointIdleTimer (isDocumentCorrupt s))
    | Some checkpointReason => prepareCheckpoint env message checkpointReason false
    end.

Definition isReprocess (message : IQueuedMessage) (s : ScribeLambda) : bool :=
  match lastOffset s with
  | Some lo => offset message <=? lo
  | None => false
  end.

Definition handler (env : Env) (message : IQueuedMessage) : M unit :=
  s <- get ;;
  if isReprocess message s then reprocess message
  else
    modify (set_lastOffset (Some (offset message))) ;;;
    processBoxcar env message (value message) ;;;
    endOfBatch env message.

(** The constructor. *)
Definition construct (constructedAt : Z) (scribe : IScribe.t PS) (protocolHandler : PH)
    (protocolHead : Z) (messages : list ISequencedDocumentMessage) : ScribeLambda :=
  setStateFromCheckpoint scribe
    {| lastOffset := IScribe.logOffset scribe;
       pendingCheckpointScribe := None;
       pendingCheckpointOffset := None;
       pendingP := None;
       pendingCheckpointMessages := [];
       pendingMessages := messages;
       this_sequenceNumber := 0;
       minSequenceNumber := 0;
       lastClientSummaryHead := None;
       lastSummarySequenceNumber := None;
       validParentSummaries := None;
       isDocumentCorrupt := false;
       clearCache := false;
       closed := false;
       documentCheckpointManager := mkDCM false 0 constructedAt None None;
       globalCheckpointOnly := negb (localCheckpointEnabled cfg);
       lastCheckpointInsertedNumber := 0;
       protocolHandler := protocolHandler;
       protocolHead := protocolHead |}.

End Lambda.

Arguments ScribeLambda : clear implicits.
Arguments Env : clear implicits.
Arguments M : clear implicits.

(** ** A concrete protocol handler, for running the model

    It keeps the two counters and, like [ProtocolOpHandler.processMessage],
    refuses a message that is not the next one in sequence. *)
Record Counters : Type := mkCounters {
  c_sequenceNumber : Z;
  c_minimumSequenceNumber : Z
}.

#[export] Instance CountersHandler : ProtocolOpHandler Counters Counters := {
  ph_sequenceNumber := c_sequenceNumber;
  processMessage ph m :=
    if sequenceNumber m =? c_sequenceNumber ph + 1
    then Some (mkCounters (sequenceNumber m) (minimumSequenceNumber m))
    else None;
  getProtocolState ph _ := ph;
  initializeProtocol ps := ps
}.

Module Sample.

(** The configuration of the examples; [reader] tells whether a pending message
    reader is configured, [heuristics] whether the checkpoint heuristics are
    enabled. *)
Definition config (reader heuristics : bool) : Config :=
  {| enablePendingCheckpointMessages := true;
     generateServiceSummary := true;
     scrubUserDataInSummaries := false;
     scrubUserDataInGlobalCheckpoints := false;
     scrubUserDataInLocalCheckpoints := false;
     clearCacheAfterServiceSummary := false;
     ignoreStorageException := false;
     maxTrackedServiceSummaryVersionsSinceLastClientSummary := 2;
     maxPendingCheckpointMessagesLength := 2;
     heuristics_enable := heuristics;
     heuristics_maxMessages := 500;
     heuristics_maxTime := 60000;
     heuristics_idleTime := 10000;
     enableTraces := false;
     kafkaCheckpointOnReprocessingOp := true;
     restartOnCheckpointFailure := true;
     localCheckpointEnabled := true;
     disableTransientTenantFiltering := true;
     tenantIsTransient := false;
     isEphemeralContainer := false;
     isExternal := false;
     hasPendingMessageReader := reader |}.

Definition cfg : Config := config false true.

(** The same with a pending message reader. *)
Definition cfgWithReader : Config := config true true.

(** The same with the heuristics disabled: a checkpoint after every batch. *)
Definition cfgEveryMessage : Config := config false false.

Definition noAck : ISummaryAck := mkAck "" 0.

Definition op (seq msn refSeq : Z) (t : MessageType) : ISequencedDocumentMessage :=
  mkMsg seq msn refSeq t false noAck "".

(** The ops [from .. from + n - 1], as a reader that has them would return. *)
Fixpoint opsFrom (from : Z) (n : nat) : list ISequencedDocumentMessage :=
  match n with
  | O => []
  | S k => op from 0 from Operation :: opsFrom (from + 1) k
  end.

(** Collaborators that answer with an ack [H1] (a nack when [ok] is false), and
    a service summary handle [S1]; the producer takes every op. *)
Definition env (ok : bool) : Env Counters :=
  {| now := 1000;
     readMessages from to := opsFrom from (Z.to_nat (to - from + 1));
     writeClientSummary o _ _ _ _ :=
       Ok (if ok then StatusTrue (mkAck "H1" (sequenceNumber o))
           else StatusFalse (mkNack "rejected" (sequenceNumber o)));
     writeServiceSummary _ _ _ _ := Ok (Some "S1"%string);
     send _ := Ok tt |}.

Definition scribe (seq msn : Z) (logOffset : Z) (head : Z)
    (parents : option (list string)) (corrupt : bool) : IScribe.t Counters :=
  {| IScribe.lastSummarySequenceNumber := None;
     IScribe.lastClientSummaryHead := Some "H0"%string;
     IScribe.logOffset := Some logOffset;
     IScribe.minimumSequenceNumber := msn;
     IScribe.protocolState := mkCounters seq msn;
     IScribe.sequenceNumber := seq;
     IScribe.validParentSummaries := parents;
     IScribe.isCorrupt := corrupt;
     IScribe.protocolHead := head;
     IScribe.checkpointTimestamp := 0 |}.

(** A lambda built by the constructor from a checkpoint at [seq], with the
    protocol handler at [seq] as well and no pending ops. *)
Definition lambda (c : Config) (seq msn logOffset head : Z)
    (parents : option (list string)) (corrupt : bool) : ScribeLambda Counters Counters :=
  construct c 0 (scribe seq msn logOffset head parents corrupt)
            (mkCounters seq msn) head [].

Definition batch (o : Z) (ops : list ISequencedDocumentMessage) : IQueuedMessage :=
  mkQueued o 0 (map SequencedOperation ops).

(** A lambda constructed at sequence number 10 with a protocol handler that
    stands at 8 and the pending op 10: op 9 is missing, so the protocol
    handler will refuse op 10 when the deque is drained. *)
Definition behind : ScribeLambda Counters Counters :=
  construct cfg 0 (scribe 10 10 4 0 None false) (mkCounters 8 8) 0
            [op 10 10 9 Operation].

(** Batches for the checkpoint examples: op 11 leaves the minimum sequence
    number at 10; op 12 moves it to 12, so that the pending deque is drained;
    [batch6'] brings both in one batch. *)
Definition batch5 : IQueuedMessage := batch 5 [op 11 10 10 Operation].
Definition batch6 : IQueuedMessage := batch 6 [op 12 12 11 Operation].
Definition batch6' : IQueuedMessage :=
  batch 6 [op 11 10 10 Operation; op 12 12 11 Operation].

(** [behind] with a checkpoint after every batch, and a sound lambda with the
    same configuration. *)
Definition behindEveryMessage : ScribeLambda Counters Counters :=
  construct cfgEveryMessage 0 (scribe 10 10 4 0 None false) (mkCounters 8 8) 0
            [op 10 10 9 Operation].

Definition soundEveryMessage : ScribeLambda Counters Counters :=
  lambda cfgEveryMessage 10 10 4 0 None false.

(** Scenario S2/S3: the lambda at sequence number 10 and protocol head 0,
    when the Summarize op 11 (reference sequence number 10) has just been
    pushed on the pending deque. *)
Definition summarize11 : ISequencedDocumentMessage := op 11 10 10 Summarize.

Definition beforeSummary : ScribeLambda Counters Counters :=
  set_this_sequenceNumber 11
    (set_pendingMessages [summarize11] (lambda cfg 10 10 4 0 None false)).

(** The same lambda when op 11 and the Summarize op 12 (reference sequence
    number 11) are on the pending deque: the summary attempt drains op 11 into
    the protocol handler, which moves from 10 to 11. *)
Definition summarize12 : ISequencedDocumentMessage := op 12 10 11 Summarize.

Definition beforeSummary12 : ScribeLambda Counters Counters :=
  set_this_sequenceNumber 12
    (set_pendingMessages [op 11 10 10 Operation; summarize12]
       (lambda cfg 10 10 4 0 None false)).

(** A configuration with every switch that the properties below depend on:
    local checkpoints, pending checkpoint messages, clearing the cache after a
    service summary, an external summary writer, ignoring storage exceptions;
    no pending message reader, heuristics enabled. *)
Definition configure (localCheckpoints pendingCheckpoints clearCacheAfter external
    ignoreStorage : bool) : Config :=
  {| enablePendingCheckpointMessages := pendingCheckpoints;
     generateServiceSummary := true;
     scrubUserDataInSummaries := false;
     scrubUserDataInGlobalCheckpoints := false;
     scrubUserDataInLocalCheckpoints := false;
     clearCacheAfterServiceSummary := clearCacheAfter;
     ignoreStorageException := ignoreStorage;
     maxTrackedServiceSummaryVersionsSinceLastClientSummary := 2;
     maxPendingCheckpointMessagesLength := 2;
     heuristics_enable := true;
     heuristics_maxMessages := 500;
     heuristics_maxTime := 60000;
     heuristics_idleTime := 10000;
     enableTraces := false;
     kafkaCheckpointOnReprocessingOp := true;
     restartOnCheckpointFailure := true;
     localCheckpointEnabled := localCheckpoints;
     disableTransientTenantFiltering := true;
     tenantIsTransient := false;
     isEphemeralContainer := false;
     isExternal := external;
     hasPendingMessageReader := false |}.

(** [cfg] for an ephemeral container. *)
Definition cfgEphemeral : Config :=
  {| enablePendingCheckpointMessages := true;
     generateServiceSummary := true;
     scrubUserDataInSummaries := false;
     scrubUserDataInGlobalCheckpoints := false;
     scrubUserDataInLocalCheckpoints := false;
     clearCacheAfterServiceSummary := false;
     ignoreStorageException := false;
     maxTrackedServiceSummaryVersionsSinceLastClientSummary := 2;
     maxPendingCheckpointMessagesLength := 2;
     heuristics_enable := true;
     heuristics_maxMessages := 500;
     heuristics_maxTime := 60000;
     heuristics_idleTime := 10000;
     enableTraces := false;
     kafkaCheckpointOnReprocessingOp := true;
     restartOnCheckpointFailure := true;
     localCheckpointEnabled := true;
     disableTransientTenantFiltering := true;
     tenantIsTransient := false;
     isEphemeralContainer := true;
     isExternal := false;
     hasPendingMessageReader := false |}.

(** Collaborators whose summary writer rejects every write. *)
Definition envFailing : Env Counters :=
  {| now := 1000;
     readMessages from to := opsFrom from (Z.to_nat (to - from + 1));
     writeClientSummary _ _ _ _ _ := Throw "storage";
     writeServiceSummary _ _ _ _ := Throw "storage";
     send _ := Ok tt |}.

(** Whether the producer takes an op of each kind. *)
Record Takes : Type := mkTakes {
  takesAck : bool;
  takesNack : bool;
  takesControl : bool
}.

(** [env ok] with a producer that rejects the kinds of op that [takes] tells. *)
Definition envProducer (ok : bool) (takes : Takes) : Env Counters :=
  {| now := 1000;
     readMessages from to := opsFrom from (Z.to_nat (to - from + 1));
     writeClientSummary o _ _ _ _ :=
       Ok (if ok then StatusTrue (mkAck "H1" (sequenceNumber o))
           else StatusFalse (mkNack "rejected" (sequenceNumber o)));
     writeServiceSummary _ _ _ _ := Ok (Some "S1"%string);
     send o :=
       let taken := match o with
                    | SummaryAckOp _ _ => takesAck takes
                    | SummaryNackOp _ _ => takesNack takes
                    | ControlOp _ _ => takesControl takes
                    end in
       if taken then Ok tt else Throw "producer" |}.

(** The NoClient op 11, and the batch that brings it. *)
Definition noClient11 : ISequencedDocumentMessage := op 11 11 11 NoClient.
Definition batchNoClient : IQueuedMessage := batch 12 [noClient11].

End Sample.

(** ** Vocabulary of the statements *)

(** The summary ops sent to the producer, in order. *)
Fixpoint sentOps {PS} (t : list (Event PS)) : list IDocumentSystemMessage :=
  match t with
  | [] => []
  | SendToDeli o :: r => o :: sentOps r
  | _ :: r => sentOps r
  end.

(** The upstream acknowledgements, in order. *)
Fixpoint acknowledged {PS} (t : list (Event PS)) : list IQueuedMessage :=
  match t with
  | [] => []
  | ContextCheckpoint m _ :: r => m :: acknowledged r
  | _ :: r => acknowledged r
  end.

(** Numbers that go up by one from each entry to the next. *)
Fixpoint consecutive (l : list Z) : Prop :=
  match l with
  | [] => True
  | a :: r =>
      match r with
      | [] => True
      | b :: _ => b = a + 1 /\ consecutive r
      end
  end.

(** A buffer of ops is contiguous when its sequence numbers are. *)
Definition contiguous (l : list ISequencedDocumentMessage) : Prop :=
  consecutive (map sequenceNumber l).

(** [from; from + 1; ...], [n] numbers. *)
Fixpoint countFrom (from : Z) (n : nat) : list Z :=
  match n with
  | O => []
  | S k => from :: countFrom (from + 1) k
  end.

(** The sequence numbers [from .. to]. *)
Definition range (from to : Z) : list Z :=
  countFrom from (Z.to_nat (to - from + 1)).

Ltac monad_unfold :=
  unfold bind, ret, get, modify, emit, when, throw, try_catch, liftRes, modify_dcm,
         assert in *.

Section Drain.

Context {PH PS : Type} `{ProtocolOpHandler PH PS}.
Local Abbreviation ScribeLambda := (ScribeLambda PH PS).

(** What [processFromPending] does to the protocol handler and the pending
    deque when no message is refused: [None] when one is. *)
Fixpoint drain (target : Z) (ph : PH) (pending : list ISequencedDocumentMessage)
    : option (PH * list ISequencedDocumentMessage) :=
  match pending with
  | [] => Some (ph, [])
  | m :: rest =>
      if sequenceNumber m <=? target then
        match processMessage ph m with
        | Some ph' => drain target ph' rest
        | None => None
        end
      else Some (ph, pending)
  end.

(** [s1] is [s] except for the protocol handler and the pending deque. *)
Definition same_but_protocol (s s1 : ScribeLambda) : Prop :=
  s1 = set_protocolHandler (protocolHandler s1)
         (set_pendingMessages (pendingMessages s1) s).

End Drain.

(** ** Runs of a lambda

    What can happen to a lambda once constructed: a batch is handed to
    [handler], the in-flight checkpoint operation settles, the idle timer
    fires with the message it was armed with, or the lambda is closed.  A
    call of [handler] is taken as one step. *)
Section Runs.

Context {PH PS : Type} `{ProtocolOpHandler PH PS}.
Local Abbreviation ScribeLambda := (ScribeLambda PH PS).
Local Abbreviation M := (M PH PS).
Local Abbreviation Env := (Env PS).
Variable cfg : Config.

Inductive Action : Type :=
| Handle (env : Env) (message : IQueuedMessage)
| Settle (o : Settled)
| IdleTimeout (env : Env) (initial : option IQueuedMessage)
| Close.

Definition act (a : Action) : M unit :=
  match a with
  | Handle env message => handler cfg env message
  | Settle o => settle cfg o
  | IdleTimeout env initial => idleTimeCheckpoint cfg env initial
  | Close => close
  end.

(** The state an action leaves, whether it returned or threw. *)
Definition after (a : Action) (s : ScribeLambda) : ScribeLambda :=
  snd (fst (act a s)).

Inductive reachableFrom (s0 : ScribeLambda) : ScribeLambda -> Prop :=
| reach_here : reachableFrom s0 s0
| reach_step (s : ScribeLambda) (a : Action) :
    reachableFrom s0 s -> reachableFrom s0 (after a s).

(** [validParentSummaries] is absent or no longer than the limit. *)
Definition withinLimit (parents : option (list string)) : Prop :=
  match parents with
  | None => True
  | Some l =>
      Z.of_nat (List.length l)
      <= maxTrackedServiceSummaryVersionsSinceLastClientSummary cfg
  end.

End Runs.

Arguments Action : clear implicits.

(** ** A small program logic for the monad

    [hoare P m Q E]: run from a state satisfying [P], [m] ends in a state
    satisfying [Q] when it returns and [E] when it throws. *)
Section Logic.

Context {PH PS : Type} `{ProtocolOpHandler PH PS}.
Local Abbreviation ScribeLambda := (ScribeLambda PH PS).
Local Abbreviation M := (M PH PS).
Local Abbreviation Env := (Env PS).

Definition hoare {A} (P : ScribeLambda -> Prop) (m : M A)
    (Q E : ScribeLambda -> Prop) : Prop :=
  forall s, P s ->
    match m s with
    | (Ok _, s', _) => Q s'
    | (Throw _, s', _) => E s'
    end.

(** [m] keeps [P] whether it returns or throws. *)
Definition preserves {A} (P : ScribeLambda -> Prop) (m : M A) : Prop :=
  hoare P m P P.

(** [m] sends nothing to the producer. *)
Definition quiet {A} (m : M A) : Prop :=
  forall s, sentOps (snd (m s)) = [].

(** [m] has sent nothing to the producer whenever it throws. *)
Definition quiet_on_throw {A} (m : M A) : Prop :=
  forall s,
    match m s with
    | (Throw _, _, t) => sentOps t = []
    | _ => True
    end.

Definition nothrow {A} (m : M A) : Prop :=
  forall s, exists a s' t, m s = (Ok a, s', t).

(** [m], run with the corruption flag down, has sent nothing to the producer
    when it ends with the flag raised. *)
Definition quiet_if_corrupting {A} (m : M A) : Prop :=
  forall s, isDocumentCorrupt s = false ->
    match m s with
    | (_, s', t) => isDocumentCorrupt s' = true -> sentOps t = []
    end.

End Logic.

(** ** Relating the state before, the state after and the calls made *)
Section Relations.

Context {PH PS : Type} `{ProtocolOpHandler PH PS}.
Local Abbreviation ScribeLambda := (ScribeLambda PH PS).
Local Abbreviation M := (M PH PS).
Variable cfg : Config.

(** [rel R m]: whatever [m] does, [R] relates the state it starts in, the
    state it ends in and the calls it makes. *)
Definition rel {A} (R : ScribeLambda -> ScribeLambda -> list (Event PS) -> Prop)
    (m : M A) : Prop :=
  forall s, R s (snd (fst (m s))) (snd (m s)).

(** The calls that start a checkpoint operation. *)
Definition isStart (e : Event PS) : bool :=
  match e with
  | CheckpointWrite _ _ _ _ _ _ => true
  | CheckpointDelete _ _ => true
  | _ => false
  end.

Definition starts (t : list (Event PS)) : nat := List.length (filter isStart t).

(** 1 while a checkpoint operation is pending, 0 otherwise. *)
Definition inFlight (s : ScribeLambda) : nat :=
  match pendingP s with
  | Some _ => 1
  | None => 0
  end.

Definition isSettle (a : Action PS) : bool :=
  match a with
  | Settle _ => true
  | _ => false
  end.

(** A run: the actions in order; the final state and all calls made. *)
Fixpoint run (actions : list (Action PS)) (s : ScribeLambda)
    : ScribeLambda * list (Event PS) :=
  match actions with
  | [] => (s, [])
  | a :: rest =>
      let s1 := after cfg a s in
      let t1 := snd (act cfg a s) in
      (fst (run rest s1), t1 ++ snd (run rest s1))
  end.

End Relations.

(** ** The pending checkpoint messages *)
Section PendingCheckpointMessages.

Context {PH PS : Type} `{ProtocolOpHandler PH PS}.
Local Abbreviation ScribeLambda := (ScribeLambda PH PS).

(** Sequence numbers go up strictly along the buffer. *)
Definition increasing (l : list ISequencedDocumentMessage) : Prop :=
  StronglySorted (fun a b => sequenceNumber a < sequenceNumber b) l.

(** The buffer is in order and holds nothing beyond the current sequence
    number. *)
Definition bufferInOrder (s : ScribeLambda) : Prop :=
  increasing (pendingCheckpointMessages s)
  /\ (forall m, In m (pendingCheckpointMessages s) ->
        sequenceNumber m <= this_sequenceNumber s).

(** What is kept about the pending checkpoint messages: the buffer is in
    order, and the inserts of the write in flight are in order and beyond the
    last inserted sequence number. *)
Definition insertsInOrder (s : ScribeLambda) : Prop :=
  bufferInOrder s
  /\ (forall p, pendingP s = Some p ->
        increasing (if_inserts p)
        /\ (forall m, In m (if_inserts p) ->
              lastCheckpointInsertedNumber s < sequenceNumber m)).

(** The ops a call hands to the checkpoint manager for insertion. *)
Definition handedOver (e : Event PS) : list ISequencedDocumentMessage :=
  match e with
  | CheckpointWrite _ _ inserts _ _ _ => inserts
  | _ => []
  end.

End PendingCheckpointMessages.

(** ** Checkpoint operations *)
Section CheckpointOperations.

Context {PH PS : Type} `{ProtocolOpHandler PH PS}.
Local Abbreviation ScribeLambda := (ScribeLambda PH PS).
Local Abbreviation Env := (Env PS).
Variable cfg : Config.

(** The inserts [writeCheckpoint] hands to the checkpoint manager. *)
Definition insertsOf (s : ScribeLambda) : list ISequencedDocumentMessage :=
  filter (fun pcm => lastCheckpointInsertedNumber s <? sequenceNumber pcm)
         (pendingCheckpointMessages s).

(** The call [checkpointCore] makes when it starts an operation. *)
Definition startEvent (checkpoint : IScribe.t PS) (clearCache : bool)
    (s : ScribeLambda) : Event PS :=
  if clearCache then CheckpointDelete (protocolHead s) true
  else CheckpointWrite checkpoint (protocolHead s) (insertsOf s)
         (noActiveClients (documentCheckpointManager s)) (globalCheckpointOnly s)
         (isDocumentCorrupt s).

Definition startedRequest (checkpoint : IScribe.t PS) (queuedMessage : IQueuedMessage)
    (clearCache skip : bool) (s : ScribeLambda) : InFlight PS :=
  mkInFlight checkpoint queuedMessage clearCache skip
    (if clearCache then [] else insertsOf s).

(** The state [writeCheckpoint] leaves once the write is fulfilled. *)
Definition finished (inserts : list ISequencedDocumentMessage) (s : ScribeLambda)
    : ScribeLambda :=
  match peekBack inserts with
  | None => s
  | Some lastInsert =>
      set_pendingCheckpointMessages
        (removeFrontWhile
           (Z.max (protocolHead s)
                  (sequenceNumber lastInsert - maxPendingCheckpointMessagesLength cfg))
           (pendingCheckpointMessages s))
        (set_lastCheckpointInsertedNumber (sequenceNumber lastInsert) s)
  end.

(** The acknowledgement the [.then] callback makes for the request [p]. *)
Definition acknowledgementOf (p : InFlight PS) (databaseCheckpointFailed : bool)
    : list (Event PS) :=
  if negb (if_skipKafkaCheckpoint p) && negb databaseCheckpointFailed
  then [ContextCheckpoint (if_queuedMessage p) (restartOnCheckpointFailure cfg)]
  else [].

(** The state in which the queued pair is started: nothing pending, nothing
    queued. *)
Definition drained (s : ScribeLambda) : ScribeLambda :=
  set_pendingCheckpointOffset None
    (set_pendingCheckpointScribe None (set_pendingP None s)).

(** The state in which [writeClientSummary] is called: [s] with the protocol
    handler advanced to the reference sequence number of the Summarize op. *)
Definition advanced (s : ScribeLambda) (ph1 : PH)
    (rest : list ISequencedDocumentMessage) : ScribeLambda :=
  set_protocolHandler ph1 (set_pendingMessages rest s).

(** What the summary writer answers when called in the state [s1]. *)
Definition answer (env : Env) (op : ISequencedDocumentMessage) (s1 : ScribeLambda)
    : Res SummaryResponse :=
  writeClientSummary env op (lastClientSummaryHead s1)
    (generateScribeCheckpoint env (lastOffset s1) (scrubUserDataInSummaries cfg) s1)
    (pendingCheckpointMessages s1) (isEphemeralContainer cfg).

(** Whether the producer takes the op: the awaited send resolves. *)
Definition taken (env : Env) (o : IDocumentSystemMessage) : bool :=
  match send env o with
  | Ok _ => true
  | Throw _ => false
  end.

(** [s'] is [s] with the snapshot of a summary attempt put back: the protocol
    handler rebuilt from the protocol state captured in [s], the pending ops
    of [s], and the summary bookkeeping of [s]. *)
Definition restored (s s' : ScribeLambda) : Prop :=
  protocolHandler s' = initializeProtocol (getProtocolState (protocolHandler s) false)
  /\ pendingMessages s' = pendingMessages s
  /\ protocolHead s' = protocolHead s
  /\ lastSummarySequenceNumber s' = lastSummarySequenceNumber s.

(** The state in which the end of [handler] chooses: the batch has been
    recorded as the most recent message and counted. *)
Definition counted (message : IQueuedMessage) (s : ScribeLambda) : ScribeLambda :=
  set_documentCheckpointManager
    (incrementRawMessageCounter
       (updateCheckpointMessages message (documentCheckpointManager s))) s.

End CheckpointOperations.

(** ** Invariants of the state, with the calls made *)
Section Invariants.

Context {PH PS : Type} `{ProtocolOpHandler PH PS}.
Local Abbreviation ScribeLambda := (ScribeLambda PH PS).
Local Abbreviation M := (M PH PS).

(** [maintains I good m]: run from a state in [I], [m] ends in a state in [I],
    whether it returns or throws, and every call it makes is [good]. *)
Definition maintains {A} (I : ScribeLambda -> Prop) (good : Event PS -> Prop)
    (m : M A) : Prop :=
  forall s, I s -> I (snd (fst (m s))) /\ Forall good (snd (m s)).

(** What the protocol handler becomes when it is given the messages in order;
    [None] when it refuses one of them. *)
Fixpoint feed (ph : PH) (l : list ISequencedDocumentMessage) : option PH :=
  match l with
  | [] => Some ph
  | m :: r =>
      match processMessage ph m with
      | Some ph' => feed ph' r
      | None => None
      end
  end.

(** The ops at the front of a deque that are at or below [target]. *)
Fixpoint leading (target : Z) (l : list ISequencedDocumentMessage)
    : list ISequencedDocumentMessage :=
  match l with
  | [] => []
  | m :: r => if sequenceNumber m <=? target then m :: leading target r else []
  end.

(** [s'] is [s] except for what the checkpoint operations write: the
    operation in flight, the queued request, the pending checkpoint messages,
    the last inserted number and the closed flag. *)
Definition same_document (s s' : ScribeLambda) : Prop :=
  lastOffset s' = lastOffset s
  /\ this_sequenceNumber s' = this_sequenceNumber s
  /\ minSequenceNumber s' = minSequenceNumber s
  /\ protocolHandler s' = protocolHandler s
  /\ protocolHead s' = protocolHead s
  /\ pendingMessages s' = pendingMessages s
  /\ lastClientSummaryHead s' = lastClientSummaryHead s
  /\ lastSummarySequenceNumber s' = lastSummarySequenceNumber s
  /\ validParentSummaries s' = validParentSummaries s
  /\ isDocumentCorrupt s' = isDocumentCorrupt s
  /\ clearCache s' = clearCache s
  /\ globalCheckpointOnly s' = globalCheckpointOnly s
  /\ documentCheckpointManager s' = documentCheckpointManager s.

(** A call other than a cache-clearing delete. *)
Definition notDelete (e : Event PS) : Prop :=
  match e with
  | CheckpointDelete _ _ => False
  | _ => True
  end.

(** A call other than a checkpoint write that is not global-only. *)
Definition globalOnlyWrite (e : Event PS) : Prop :=
  match e with
  | CheckpointWrite _ _ _ _ globalOnly _ => globalOnly = true
  | _ => True
  end.

(** A call other than an upstream acknowledgement. *)
Definition notAcknowledgement (e : Event PS) : Prop :=
  match e with
  | ContextCheckpoint _ _ => False
  | _ => True
  end.

(** A call other than [writeServiceSummary]. *)
Definition notServiceSummary (e : Event PS) : Prop :=
  match e with
  | WriteServiceSummary _ _ _ _ => False
  | _ => True
  end.

(** The ops the lambda itself sends when the summary writer is external: the
    SummaryNack of line 342 and the UpdateDSN of a service summary. *)
Definition sentBesideExternalWriter (o : IDocumentSystemMessage) : Prop :=
  match o with
  | SummaryAckOp _ _ => False
  | SummaryNackOp nack _ => nack_message nack = "Failed to summarize the document."%string
  | ControlOp dsn _ => isClientSummary dsn = false
  end.

(** An op that the loop of [handler] skips: at or below the current sequence
    number, or at or below the last op known to the protocol handler. *)
Definition skipped (s : ScribeLambda) (baseMessage : IMessage) : Prop :=
  match baseMessage with
  | OtherMessage => True
  | SequencedOperation op =>
      sequenceNumber op <= this_sequenceNumber s
      \/ sequenceNumber op <= lastProtocolHandlerSequenceNumber s
  end.

(** The guard of the service summary in the NoClient branch (lines 366-374):
    service summaries are generated, the container is not ephemeral, and the
    tenant is not a transient one that is filtered out. *)
Definition serviceSummaryEnabled (cfg : Config) : bool :=
  generateServiceSummary cfg && negb (isEphemeralContainer cfg)
  && (disableTransientTenantFiltering cfg || negb (tenantIsTransient cfg)).

End Invariants.

(** * Lemmas on the model *)

(** ** Rules of the program logic *)

Section LogicRules.

Context {PH PS : Type} `{ProtocolOpHandler PH PS}.
Local Abbreviation ScribeLambda := (ScribeLambda PH PS).
Local Abbreviation M := (M PH PS).
Local Abbreviation Env := (Env PS).

Lemma sentOps_app (t1 t2 : list (Event PS)) :
  sentOps (t1 ++ t2) = sentOps t1 ++ sentOps t2.
Proof.
  induction t1 as [|e t1 IH]; simpl; [reflexivity|].
  destruct e; simpl; rewrite IH; reflexivity.
Qed.

Lemma hoare_conseq {A} (P P' Q Q' E E' : ScribeLambda -> Prop) (m : M A) :
  hoare P' m Q' E' ->
  (forall s, P s -> P' s) -> (forall s, Q' s -> Q s) -> (forall s, E' s -> E s) ->
  hoare P m Q E.
Proof.
  intros Hm HP HQ HE s Hs. specialize (Hm s (HP s Hs)).
  destruct (m s) as [[[a|e] s'] t]; auto.
Qed.

Lemma hoare_ret {A} (P Q E : ScribeLambda -> Prop) (a : A) :
  (forall s, P s -> Q s) -> hoare P (ret a) Q E.
Proof. intros HQ s Hs. apply HQ, Hs. Qed.

Lemma hoare_throw {A} (P Q E : ScribeLambda -> Prop) (e : string) :
  (forall s, P s -> E s) -> hoare P (throw (A := A) e) Q E.
Proof. intros HE s Hs. apply HE, Hs. Qed.

Lemma hoare_emit (P Q E : ScribeLambda -> Prop) (e : Event PS) :
  (forall s, P s -> Q s) -> hoare P (emit e) Q E.
Proof. intros HQ s Hs. apply HQ, Hs. Qed.

Lemma hoare_modify (P Q E : ScribeLambda -> Prop) (f : ScribeLambda -> ScribeLambda) :
  (forall s, P s -> Q (f s)) -> hoare P (modify f) Q E.
Proof. intros Hf s Hs. apply Hf, Hs. Qed.

Lemma hoare_modify_dcm (P Q E : ScribeLambda -> Prop)
    (f : DocumentCheckpointManager -> DocumentCheckpointManager) :
  (forall s, P s ->
     Q (set_documentCheckpointManager (f (documentCheckpointManager s)) s)) ->
  hoare P (modify_dcm f) Q E.
Proof. intros Hf s Hs. apply Hf, Hs. Qed.

Lemma hoare_bind {A B} (P Q R E : ScribeLambda -> Prop) (m : M A) (k : A -> M B) :
  hoare P m Q E -> (forall a, hoare Q (k a) R E) -> hoare P (bind m k) R E.
Proof.
  intros Hm Hk s Hs. specialize (Hm s Hs). unfold bind.
  destruct (m s) as [[[a|e] s1] t1]; [|exact Hm].
  specialize (Hk a s1 Hm). destruct (k a s1) as [[[b|e] s2] t2]; exact Hk.
Qed.

(** Reading the state: the continuation may assume it got the current one. *)
Lemma hoare_get {A} (P Q E : ScribeLambda -> Prop) (k : ScribeLambda -> M A) :
  (forall s0, hoare (fun s => P s /\ s = s0) (k s0) Q E) ->
  hoare P (bind get k) Q E.
Proof.
  intros Hk s Hs. unfold bind, get. specialize (Hk s s (conj Hs eq_refl)).
  destruct (k s s) as [[[b|e] s2] t2]; exact Hk.
Qed.

Lemma hoare_get_any {A} (P Q E : ScribeLambda -> Prop) (k : ScribeLambda -> M A) :
  (forall s0, hoare P (k s0) Q E) -> hoare P (bind get k) Q E.
Proof.
  intros Hk. apply hoare_get. intros s0.
  eapply hoare_conseq; [apply (Hk s0)| |auto|auto]. intros s [Hs _]. exact Hs.
Qed.

Lemma hoare_try_catch {A} (P Q E1 E : ScribeLambda -> Prop) (m : M A)
    (h : string -> M A) :
  hoare P m Q E1 -> (forall e, hoare E1 (h e) Q E) -> hoare P (try_catch m h) Q E.
Proof.
  intros Hm Hh s Hs. specialize (Hm s Hs). unfold try_catch.
  destruct (m s) as [[[a|e] s1] t1]; [exact Hm|].
  specialize (Hh e s1 Hm). destruct (h e s1) as [[[b|e'] s2] t2]; exact Hh.
Qed.

Lemma hoare_when (P E : ScribeLambda -> Prop) (b : bool) (m : M unit) :
  hoare P m P E -> hoare P (when b m) P E.
Proof.
  intros Hm. destruct b; simpl; [exact Hm|apply hoare_ret; auto].
Qed.

Lemma hoare_liftRes {A} (P Q E : ScribeLambda -> Prop) (r : Res A) :
  (forall s, P s -> Q s) -> (forall s, P s -> E s) -> hoare P (liftRes r) Q E.
Proof. intros HQ HE. destruct r; intros s Hs; simpl; auto. Qed.

Lemma hoare_assert (P Q E : ScribeLambda -> Prop) (b : bool) (msg : string) :
  (forall s, P s -> Q s) -> (forall s, P s -> E s) -> hoare P (assert b msg) Q E.
Proof. intros HQ HE. destruct b; intros s Hs; simpl; auto. Qed.

(** What [hoare] says of one run. *)
Lemma hoare_run {A} (P Q E : ScribeLambda -> Prop) (m : M A) s r s' t :
  hoare P m Q E -> P s -> m s = (r, s', t) ->
  match r with
  | Ok _ => Q s'
  | Throw _ => E s'
  end.
Proof. intros Hm Hs Em. specialize (Hm s Hs). rewrite Em in Hm. exact Hm. Qed.

End LogicRules.

(** One step of a proof that a program keeps the invariant [P]: the rule for
    the head construct of the program. *)
Ltac hoare_step P :=
  lazymatch goal with
  | |- hoare _ (bind get _) _ _ => apply hoare_get_any; intro
  | |- hoare _ (bind _ _) _ _ => apply (hoare_bind (Q := P)); [|intro]
  | |- hoare _ (ret _) _ _ => apply hoare_ret
  | |- hoare _ (throw _) _ _ => apply hoare_throw
  | |- hoare _ (emit _) _ _ => apply hoare_emit
  | |- hoare _ (modify_dcm _) _ _ => apply hoare_modify_dcm
  | |- hoare _ (modify _) _ _ => apply hoare_modify
  | |- hoare _ (when _ _) _ _ => apply hoare_when
  | |- hoare _ (liftRes _) _ _ => apply hoare_liftRes
  | |- hoare _ (assert _ _) _ _ => apply hoare_assert
  | |- hoare _ (try_catch _ _) _ _ => apply (hoare_try_catch (E1 := P)); [|intro]
  | |- hoare _ (if ?b then _ else _) _ _ => destruct b
  | |- hoare _ (match ?x with _ => _ end) _ _ => destruct x
  end.

(** ** Draining the pending deque *)

Section DrainFacts.

Context {PH PS : Type} `{ProtocolOpHandler PH PS}.
Local Abbreviation ScribeLambda := (ScribeLambda PH PS).
Local Abbreviation M := (M PH PS).
Local Abbreviation Env := (Env PS).
Variable cfg : Config.

Lemma same_but_protocol_refl (s : ScribeLambda) : same_but_protocol s s.
Proof. destruct s; reflexivity. Qed.

Lemma same_but_protocol_trans (s s1 s2 : ScribeLambda) :
  same_but_protocol s s1 -> same_but_protocol s1 s2 -> same_but_protocol s s2.
Proof.
  unfold same_but_protocol. intros E1 E2. rewrite E2 at 1. rewrite E1.
  reflexivity.
Qed.

Lemma same_but_protocol_set (s : ScribeLambda) ph pending :
  same_but_protocol s (set_protocolHandler ph (set_pendingMessages pending s)).
Proof. reflexivity. Qed.

Lemma same_but_protocol_set_pending (s : ScribeLambda) pending :
  same_but_protocol s (set_pendingMessages pending s).
Proof. destruct s; reflexivity. Qed.

(** When [processFromPending] returns, it has called no collaborator and has
    changed the protocol handler and the pending deque as [drain] says. *)
Lemma processFromPending_loop_ok (env : Env) (target : Z) (qm : IQueuedMessage)
    (pending : list ISequencedDocumentMessage) :
  forall (s s1 : ScribeLambda) (t : list (Event PS)),
    pendingMessages s = pending ->
    processFromPending_loop cfg env target qm pending s = (Ok tt, s1, t) ->
    t = [] /\ same_but_protocol s s1
    /\ drain target (protocolHandler s) pending
       = Some (protocolHandler s1, pendingMessages s1).
Proof.
  induction pending as [|m rest IH]; intros s s1 t Hp E; simpl in *.
  - monad_unfold. inversion E; subst. rewrite Hp.
    repeat split. apply same_but_protocol_refl.
  - destruct (sequenceNumber m <=? target).
    + monad_unfold. simpl in E.
      destruct (processMessage (protocolHandler s) m) as [ph|] eqn:Epm.
      * simpl in E.
        destruct (processFromPending_loop cfg env target qm rest
                    (set_protocolHandler ph (set_pendingMessages rest s)))
          as [[r s2] t2] eqn:E2.
        inversion E; subst.
        apply IH in E2; [|reflexivity].
        destruct E2 as (-> & Hsame & Hd). simpl in Hd.
        repeat split; [|exact Hd].
        eapply same_but_protocol_trans; [|exact Hsame].
        apply same_but_protocol_set.
      * exfalso. unfold markDocumentAsCorrupt in E. monad_unfold.
        destruct (prepareCheckpoint cfg env qm MarkAsCorrupt true
                    (set_isDocumentCorrupt true (set_pendingMessages rest s)))
          as [[[[]|e] s2] t2]; simpl in E; discriminate.
    + monad_unfold. inversion E; subst. rewrite Hp.
      repeat split. apply same_but_protocol_refl.
Qed.

Lemma processFromPending_ok (env : Env) (target : Z) (qm : IQueuedMessage)
    (s s1 : ScribeLambda) (t : list (Event PS)) :
  processFromPending cfg env target qm s = (Ok tt, s1, t) ->
  t = [] /\ same_but_protocol s s1
  /\ drain target (protocolHandler s) (pendingMessages s)
     = Some (protocolHandler s1, pendingMessages s1).
Proof.
  unfold processFromPending, bind, get. intros E.
  destruct (processFromPending_loop cfg env target qm (pendingMessages s) s)
    as [[r s2] t2] eqn:E2.
  destruct r as [[]|e]; [|discriminate]. inversion E; subst.
  rewrite app_nil_l in *.
  eapply processFromPending_loop_ok; [reflexivity|exact E2].
Qed.

Lemma set_pending_same (s : ScribeLambda) :
  set_protocolHandler (protocolHandler s) (set_pendingMessages (pendingMessages s) s) = s.
Proof. destruct s; reflexivity. Qed.

(** Conversely, when [drain] refuses no message, [processFromPending] returns. *)
Lemma processFromPending_loop_drain (env : Env) (target : Z) (qm : IQueuedMessage)
    (pending : list ISequencedDocumentMessage) :
  forall (s : ScribeLambda) ph1 rest,
    pendingMessages s = pending ->
    drain target (protocolHandler s) pending = Some (ph1, rest) ->
    processFromPending_loop cfg env target qm pending s
    = (Ok tt, set_protocolHandler ph1 (set_pendingMessages rest s), []).
Proof.
  induction pending as [|m rest0 IH]; intros s ph1 rest Hp Hd; simpl in *.
  - inversion Hd; subst. unfold ret. rewrite <- Hp, set_pending_same. reflexivity.
  - destruct (sequenceNumber m <=? target).
    + monad_unfold. simpl.
      destruct (processMessage (protocolHandler s) m) as [ph|]; [|discriminate].
      simpl.
      rewrite (IH (set_protocolHandler ph (set_pendingMessages rest0 s)) ph1 rest);
        [reflexivity|reflexivity|exact Hd].
    + inversion Hd; subst. unfold ret. rewrite <- Hp, set_pending_same. reflexivity.
Qed.

Lemma processFromPending_drain (env : Env) (target : Z) (qm : IQueuedMessage)
    (s : ScribeLambda) ph1 rest :
  drain target (protocolHandler s) (pendingMessages s) = Some (ph1, rest) ->
  processFromPending cfg env target qm s
  = (Ok tt, set_protocolHandler ph1 (set_pendingMessages rest s), []).
Proof.
  intros Hd. unfold processFromPending, bind, get.
  erewrite processFromPending_loop_drain; [reflexivity|reflexivity|exact Hd].
Qed.

End DrainFacts.

(** ** Frame lemmas: properties of the state that every method keeps

    [P] is a property that does not read what the methods below write, except
    in the ways listed by the hypotheses. *)

Ltac hoare_auto P using_lemmas :=
  repeat first [ progress using_lemmas | hoare_step P ];
  try (intros; auto; fail).

Section Frame.

Context {PH PS : Type} `{ProtocolOpHandler PH PS}.
Local Abbreviation ScribeLambda := (ScribeLambda PH PS).
Local Abbreviation M := (M PH PS).
Local Abbreviation Env := (Env PS).
Variable cfg : Config.
Variable P : ScribeLambda -> Prop.

Hypothesis P_lastOffset : forall v s, P s -> P (set_lastOffset v s).
Hypothesis P_pendingCheckpointScribe :
  forall v s, P s -> P (set_pendingCheckpointScribe v s).
Hypothesis P_pendingCheckpointOffset :
  forall v s, P s -> P (set_pendingCheckpointOffset v s).
Hypothesis P_pendingP : forall v s, P s -> P (set_pendingP v s).
Hypothesis P_pendingMessages : forall v s, P s -> P (set_pendingMessages v s).
Hypothesis P_protocolHandler : forall v s, P s -> P (set_protocolHandler v s).
Hypothesis P_protocolHead : forall v s, P s -> P (set_protocolHead v s).
Hypothesis P_lastClientSummaryHead :
  forall v s, P s -> P (set_lastClientSummaryHead v s).
Hypothesis P_lastSummarySequenceNumber :
  forall v s, P s -> P (set_lastSummarySequenceNumber v s).
Hypothesis P_clearCache : forall v s, P s -> P (set_clearCache v s).
Hypothesis P_globalCheckpointOnly : forall v s, P s -> P (set_globalCheckpointOnly v s).
Hypothesis P_closed : forall v s, P s -> P (set_closed v s).
Hypothesis P_minSequenceNumber : forall v s, P s -> P (set_minSequenceNumber v s).
Hypothesis P_updateCheckpointMessages :
  forall m s, P s ->
    P (set_documentCheckpointManager
         (updateCheckpointMessages m (documentCheckpointManager s)) s).
Hypothesis P_resetCheckpointTimer :
  forall n s, P s ->
    P (set_documentCheckpointManager
         (resetCheckpointTimer n (documentCheckpointManager s)) s).
Hypothesis P_setNoActiveClients :
  forall s, P s ->
    P (set_documentCheckpointManager
         (setNoActiveClients true (documentCheckpointManager s)) s).
Hypothesis P_markCorrupt : forall s, P s -> P (set_isDocumentCorrupt true s).
Hypothesis P_resetParents : forall s, P s -> P (set_validParentSummaries None s).
Hypothesis P_pushParent :
  forall h s, P s ->
    P (set_validParentSummaries
         (Some (pushAndCap (maxTrackedServiceSummaryVersionsSinceLastClientSummary cfg)
                  match validParentSummaries s with
                  | None => []
                  | Some l => l
                  end h)) s).

Lemma frame_checkpointCore checkpoint queuedMessage clearCache skip :
  preserves P (checkpointCore checkpoint queuedMessage clearCache skip).
Proof.
  unfold preserves, checkpointCore, writeCheckpoint_start.
  hoare_auto P idtac.
Qed.

Lemma frame_prepareCheckpoint (env : Env) message reason skip :
  preserves P (prepareCheckpoint cfg env message reason skip).
Proof.
  unfold preserves, prepareCheckpoint.
  hoare_auto P ltac:(apply frame_checkpointCore).
Qed.

Lemma frame_markDocumentAsCorrupt (env : Env) message :
  preserves P (markDocumentAsCorrupt cfg env message).
Proof.
  unfold preserves, markDocumentAsCorrupt.
  hoare_auto P ltac:(apply frame_prepareCheckpoint).
Qed.

Lemma frame_processFromPending_loop (env : Env) target message pending :
  preserves P (processFromPending_loop cfg env target message pending).
Proof.
  unfold preserves. induction pending as [|m rest IH]; simpl.
  - apply hoare_ret; auto.
  - hoare_auto P ltac:(first [apply IH | apply frame_markDocumentAsCorrupt]).
Qed.

Lemma frame_processFromPending (env : Env) target message :
  preserves P (processFromPending cfg env target message).
Proof.
  unfold preserves, processFromPending.
  hoare_auto P ltac:(apply frame_processFromPending_loop).
Qed.

Lemma frame_handleSummarize (env : Env) message op :
  preserves P (handleSummarize cfg env message op).
Proof.
  unfold preserves, handleSummarize, sendSummaryAck, sendSummaryNack,
    sendSummaryConfirmationMessage, sendToDeli, updateProtocolHead,
    updateLastSummarySequenceNumber, revertProtocolState.
  hoare_auto P ltac:(apply frame_processFromPending).
Qed.

Lemma frame_handleNoClient (env : Env) op :
  preserves P (handleNoClient cfg env op).
Proof.
  unfold preserves, handleNoClient, sendSummaryConfirmationMessage, sendToDeli,
    updateLastSummarySequenceNumber, updateValidParentSummaries.
  hoare_auto P idtac.
Qed.

Lemma frame_handleSummaryAck op :
  preserves P (handleSummaryAck cfg op).
Proof.
  unfold preserves, handleSummaryAck, updateProtocolHead,
    updateLastSummarySequenceNumber.
  hoare_auto P idtac.
Qed.

Lemma frame_dispatch (env : Env) message op :
  preserves P (dispatch cfg env message op).
Proof.
  unfold preserves, dispatch.
  hoare_auto P ltac:(first [apply frame_handleSummarize | apply frame_handleNoClient
                           | apply frame_handleSummaryAck]).
Qed.

Lemma frame_admitOp (env : Env) op lastKnown :
  preserves P (admitOp cfg env op lastKnown).
Proof.
  unfold preserves, admitOp, fetchMissing.
  hoare_auto P idtac.
Qed.

Lemma frame_idleTimeCheckpoint (env : Env) initial :
  preserves P (idleTimeCheckpoint cfg env initial).
Proof.
  unfold preserves, idleTimeCheckpoint.
  hoare_auto P ltac:(apply frame_checkpointCore).
Qed.

Lemma frame_close : preserves P (close (PH := PH) (PS := PS)).
Proof. unfold preserves, close. hoare_auto P idtac. Qed.

Lemma frame_reprocess message : preserves P (reprocess cfg message).
Proof. unfold preserves, reprocess. hoare_auto P idtac. Qed.

(** The rest of [handler] and the settling of a checkpoint also write the
    pending checkpoint messages, the sequence number and the book-keeping of
    the checkpoint manager. *)
Hypothesis P_pendingCheckpointMessages :
  forall v s, P s -> P (set_pendingCheckpointMessages v s).
Hypothesis P_sequenceNumber : forall v s, P s -> P (set_this_sequenceNumber v s).
Hypothesis P_lastCheckpointInsertedNumber :
  forall v s, P s -> P (set_lastCheckpointInsertedNumber v s).
Hypothesis P_incrementRawMessageCounter :
  forall s, P s ->
    P (set_documentCheckpointManager
         (incrementRawMessageCounter (documentCheckpointManager s)) s).
Hypothesis P_clearNoActiveClients :
  forall s, P s ->
    P (set_documentCheckpointManager
         (setNoActiveClients false (documentCheckpointManager s)) s).
Hypothesis P_updateCheckpointIdleTimer :
  forall c s, P s ->
    P (set_documentCheckpointManager
         (updateCheckpointIdleTimer c (documentCheckpointManager s)) s).

Lemma frame_processOp (env : Env) message baseMessage :
  preserves P (processOp cfg env message baseMessage).
Proof.
  unfold preserves, processOp.
  hoare_auto P ltac:(first [apply frame_admitOp | apply frame_processFromPending
                           | apply frame_dispatch]).
Qed.

Lemma frame_processBoxcar (env : Env) message contents :
  preserves P (processBoxcar cfg env message contents).
Proof.
  unfold preserves. induction contents as [|b rest IH]; simpl.
  - apply hoare_ret; auto.
  - hoare_auto P ltac:(first [apply IH | apply frame_processOp]).
Qed.

Lemma frame_endOfBatch (env : Env) message :
  preserves P (endOfBatch cfg env message).
Proof.
  unfold preserves, endOfBatch.
  hoare_auto P ltac:(apply frame_prepareCheckpoint).
Qed.

Lemma frame_handler (env : Env) message :
  preserves P (handler cfg env message).
Proof.
  unfold preserves, handler.
  hoare_auto P ltac:(first [apply frame_reprocess | apply frame_processBoxcar
                           | apply frame_endOfBatch]).
Qed.

Lemma frame_settle (o : Settled) : preserves P (settle cfg o).
Proof.
  unfold preserves, settle, checkpointCore_then, writeCheckpoint_finish.
  hoare_auto P ltac:(apply frame_checkpointCore).
Qed.

End Frame.

(** ** Rules for what is sent and what throws *)

Section TraceRules.

Context {PH PS : Type} `{ProtocolOpHandler PH PS}.
Local Abbreviation ScribeLambda := (ScribeLambda PH PS).
Local Abbreviation M := (M PH PS).

Lemma quiet_ret {A} (a : A) : quiet (ret (PH := PH) (PS := PS) a).
Proof. intros s. reflexivity. Qed.

Lemma quiet_throw {A} (e : string) : quiet (throw (PH := PH) (PS := PS) (A := A) e).
Proof. intros s. reflexivity. Qed.

Lemma quiet_get_only : quiet (get (PH := PH) (PS := PS)).
Proof. intros s. reflexivity. Qed.

Lemma quiet_modify (f : ScribeLambda -> ScribeLambda) : quiet (modify f).
Proof. intros s. reflexivity. Qed.

Lemma quiet_modify_dcm f : quiet (modify_dcm (PH := PH) (PS := PS) f).
Proof. intros s. reflexivity. Qed.

Lemma quiet_emit (e : Event PS) : sentOps [e] = [] -> quiet (emit (PH := PH) e).
Proof. intros He s. exact He. Qed.

Lemma quiet_liftRes {A} (r : Res A) : quiet (liftRes (PH := PH) (PS := PS) r).
Proof. destruct r; intros s; reflexivity. Qed.

Lemma quiet_assert b msg : quiet (assert (PH := PH) (PS := PS) b msg).
Proof. destruct b; intros s; reflexivity. Qed.

Lemma quiet_bind {A B} (m : M A) (k : A -> M B) :
  quiet m -> (forall a, quiet (k a)) -> quiet (bind m k).
Proof.
  intros Hm Hk s. specialize (Hm s). unfold bind.
  destruct (m s) as [[[a|e] s1] t1]; simpl in *; [|exact Hm].
  specialize (Hk a s1). destruct (k a s1) as [[r s2] t2]; simpl in *.
  rewrite sentOps_app, Hm, Hk. reflexivity.
Qed.

Lemma quiet_get {A} (k : ScribeLambda -> M A) :
  (forall s0, quiet (k s0)) -> quiet (bind get k).
Proof. intros Hk. apply quiet_bind; [apply quiet_get_only|exact Hk]. Qed.

Lemma quiet_when (b : bool) (m : M unit) : quiet m -> quiet (when b m).
Proof. intros Hm. destruct b; [exact Hm|apply quiet_ret]. Qed.

Lemma quiet_try_catch {A} (m : M A) (h : string -> M A) :
  quiet m -> (forall e, quiet (h e)) -> quiet (try_catch m h).
Proof.
  intros Hm Hh s. specialize (Hm s). unfold try_catch.
  destruct (m s) as [[[a|e] s1] t1]; simpl in *; [exact Hm|].
  specialize (Hh e s1). destruct (h e s1) as [[r s2] t2]; simpl in *.
  rewrite sentOps_app, Hm, Hh. reflexivity.
Qed.

Lemma nothrow_ret {A} (a : A) : nothrow (ret (PH := PH) (PS := PS) a).
Proof. intros s. do 3 eexists. reflexivity. Qed.

Lemma nothrow_get_only : nothrow (get (PH := PH) (PS := PS)).
Proof. intros s. do 3 eexists. reflexivity. Qed.

Lemma nothrow_modify (f : ScribeLambda -> ScribeLambda) : nothrow (modify f).
Proof. intros s. do 3 eexists. reflexivity. Qed.

Lemma nothrow_emit (e : Event PS) : nothrow (emit (PH := PH) e).
Proof. intros s. do 3 eexists. reflexivity. Qed.

Lemma nothrow_bind {A B} (m : M A) (k : A -> M B) :
  nothrow m -> (forall a, nothrow (k a)) -> nothrow (bind m k).
Proof.
  intros Hm Hk s. destruct (Hm s) as (a & s1 & t1 & E1).
  destruct (Hk a s1) as (b & s2 & t2 & E2).
  exists b, s2, (t1 ++ t2). unfold bind. rewrite E1, E2. reflexivity.
Qed.

Lemma nothrow_when (b : bool) (m : M unit) : nothrow m -> nothrow (when b m).
Proof. intros Hm. destruct b; [exact Hm|apply nothrow_ret]. Qed.

Lemma quiet_on_throw_quiet {A} (m : M A) : quiet m -> quiet_on_throw m.
Proof.
  intros Hm s. specialize (Hm s). destruct (m s) as [[[a|e] s1] t1]; [exact I|exact Hm].
Qed.

Lemma quiet_on_throw_nothrow {A} (m : M A) : nothrow m -> quiet_on_throw m.
Proof.
  intros Hm s. destruct (Hm s) as (a & s1 & t1 & E). rewrite E. exact I.
Qed.

(** A quiet command followed by one that is quiet when it throws. *)
Lemma quiet_on_throw_bind {A B} (m : M A) (k : A -> M B) :
  quiet m -> (forall a, quiet_on_throw (k a)) -> quiet_on_throw (bind m k).
Proof.
  intros Hm Hk s. specialize (Hm s). unfold bind.
  destruct (m s) as [[[a|e] s1] t1]; simpl in *; [|exact Hm].
  specialize (Hk a s1). destruct (k a s1) as [[[b|e] s2] t2]; [exact I|].
  rewrite sentOps_app, Hm, Hk. reflexivity.
Qed.

(** A command followed by one that cannot throw. *)
Lemma quiet_on_throw_bind_nothrow {A B} (m : M A) (k : A -> M B) :
  quiet_on_throw m -> (forall a, nothrow (k a)) -> quiet_on_throw (bind m k).
Proof.
  intros Hm Hk s. specialize (Hm s). unfold bind.
  destruct (m s) as [[[a|e] s1] t1]; [|exact Hm].
  destruct (Hk a s1) as (b & s2 & t2 & E). rewrite E. exact I.
Qed.

Lemma quiet_on_throw_try_catch {A} (m : M A) (h : string -> M A) :
  quiet_on_throw m -> (forall e, quiet_on_throw (h e)) ->
  quiet_on_throw (try_catch m h).
Proof.
  intros Hm Hh s. specialize (Hm s). unfold try_catch.
  destruct (m s) as [[[a|e] s1] t1]; [exact I|].
  specialize (Hh e s1). destruct (h e s1) as [[[b|e'] s2] t2]; [exact I|].
  rewrite sentOps_app, Hm, Hh. reflexivity.
Qed.

End TraceRules.

Create HintDb quiet.

Ltac quiet_step :=
  lazymatch goal with
  | |- quiet (bind get _) => apply quiet_get; intro
  | |- quiet (bind _ _) => apply quiet_bind; [|intro]
  | |- quiet (ret _) => apply quiet_ret
  | |- quiet get => apply quiet_get_only
  | |- quiet (throw _) => apply quiet_throw
  | |- quiet (emit _) => apply quiet_emit; reflexivity
  | |- quiet (modify_dcm _) => apply quiet_modify_dcm
  | |- quiet (modify _) => apply quiet_modify
  | |- quiet (when _ _) => apply quiet_when
  | |- quiet (liftRes _) => apply quiet_liftRes
  | |- quiet (assert _ _) => apply quiet_assert
  | |- quiet (try_catch _ _) => apply quiet_try_catch; [|intro]
  | |- quiet (if ?b then _ else _) => destruct b
  | |- quiet (match ?x with _ => _ end) => destruct x
  end.

Ltac quiet_auto := repeat first [ quiet_step | solve [auto with quiet] ].

Ltac nothrow_step :=
  lazymatch goal with
  | |- nothrow (bind _ _) => apply nothrow_bind; [|intro]
  | |- nothrow (ret _) => apply nothrow_ret
  | |- nothrow get => apply nothrow_get_only
  | |- nothrow (emit _) => apply nothrow_emit
  | |- nothrow (modify _) => apply nothrow_modify
  | |- nothrow (modify_dcm _) => apply nothrow_modify
  | |- nothrow (when _ _) => apply nothrow_when
  | |- nothrow (if ?b then _ else _) => destruct b
  | |- nothrow (match ?x with _ => _ end) => destruct x
  end.

Ltac nothrow_auto := repeat nothrow_step.

Ltac quiet_on_throw_step :=
  first
    [ apply quiet_on_throw_quiet; solve [quiet_auto]
    | apply quiet_on_throw_nothrow; solve [nothrow_auto]
    | apply quiet_on_throw_bind; [solve [quiet_auto]|intro]
    | apply quiet_on_throw_bind_nothrow; [|intro; solve [nothrow_auto]]
    | apply quiet_on_throw_try_catch; [|intro]
    | lazymatch goal with
      | |- quiet_on_throw (if ?b then _ else _) => destruct b
      | |- quiet_on_throw (match ?x with _ => _ end) => destruct x
      end ].

(** ** Rules for relations *)

Section RelRules.

Context {PH PS : Type} `{ProtocolOpHandler PH PS}.
Local Abbreviation ScribeLambda := (ScribeLambda PH PS).
Local Abbreviation M := (M PH PS).
Variable R : ScribeLambda -> ScribeLambda -> list (Event PS) -> Prop.
Hypothesis R_refl : forall s, R s s [].
Hypothesis R_trans :
  forall s s1 s2 t1 t2, R s s1 t1 -> R s1 s2 t2 -> R s s2 (t1 ++ t2).

Lemma rel_ret {A} (a : A) : rel R (ret a).
Proof. intros s. apply R_refl. Qed.

Lemma rel_throw {A} (e : string) : rel R (throw (A := A) e).
Proof. intros s. apply R_refl. Qed.

Lemma rel_get_only : rel R get.
Proof. intros s. apply R_refl. Qed.

Lemma rel_liftRes {A} (r : Res A) : rel R (liftRes r).
Proof. destruct r; intros s; apply R_refl. Qed.

Lemma rel_assert b msg : rel R (assert b msg).
Proof. destruct b; intros s; apply R_refl. Qed.

Lemma rel_modify (f : ScribeLambda -> ScribeLambda) :
  (forall s, R s (f s) []) -> rel R (modify f).
Proof. intros Hf s. apply Hf. Qed.

Lemma rel_modify_dcm f :
  (forall s, R s (set_documentCheckpointManager (f (documentCheckpointManager s)) s)
               []) ->
  rel R (modify_dcm f).
Proof. intros Hf s. apply Hf. Qed.

Lemma rel_emit (e : Event PS) : (forall s, R s s [e]) -> rel R (emit e).
Proof. intros He s. apply He. Qed.

Lemma rel_bind {A B} (m : M A) (k : A -> M B) :
  rel R m -> (forall a, rel R (k a)) -> rel R (bind m k).
Proof.
  intros Hm Hk s. specialize (Hm s). unfold bind.
  destruct (m s) as [[[a|e] s1] t1]; simpl in *; [|exact Hm].
  specialize (Hk a s1). destruct (k a s1) as [[r s2] t2]; simpl in *.
  eapply R_trans; eassumption.
Qed.

Lemma rel_get {A} (k : ScribeLambda -> M A) :
  (forall s0, rel R (k s0)) -> rel R (bind get k).
Proof. intros Hk. apply rel_bind; [apply rel_get_only|exact Hk]. Qed.

Lemma rel_when (b : bool) (m : M unit) : rel R m -> rel R (when b m).
Proof. intros Hm. destruct b; [exact Hm|apply rel_ret]. Qed.

Lemma rel_try_catch {A} (m : M A) (h : string -> M A) :
  rel R m -> (forall e, rel R (h e)) -> rel R (try_catch m h).
Proof.
  intros Hm Hh s. specialize (Hm s). unfold try_catch.
  destruct (m s) as [[[a|e] s1] t1]; simpl in *; [exact Hm|].
  specialize (Hh e s1). destruct (h e s1) as [[r s2] t2]; simpl in *.
  eapply R_trans; eassumption.
Qed.

End RelRules.

Ltac rel_step :=
  lazymatch goal with
  | |- rel _ (bind get _) => (apply rel_get; try assumption); intro
  | |- rel _ (bind _ _) => (apply rel_bind; try assumption); [|intro]
  | |- rel _ (ret _) => apply rel_ret; assumption
  | |- rel _ (throw _) => apply rel_throw; assumption
  | |- rel _ get => apply rel_get_only; assumption
  | |- rel _ (emit _) => apply rel_emit
  | |- rel _ (modify_dcm _) => apply rel_modify_dcm
  | |- rel _ (modify _) => apply rel_modify
  | |- rel _ (when _ _) => apply rel_when; try assumption
  | |- rel _ (liftRes _) => apply rel_liftRes; assumption
  | |- rel _ (assert _ _) => apply rel_assert; assumption
  | |- rel _ (try_catch _ _) => (apply rel_try_catch; try assumption); [|intro]
  | |- rel _ (if ?b then _ else _) => destruct b
  | |- rel _ (match ?x with _ => _ end) => destruct x
  end.

Ltac rel_auto using_lemmas :=
  repeat first [ progress using_lemmas | rel_step ];
  try (intros; cbv beta; auto; fail).

(** ** What [checkpointCore] does *)

Section CheckpointCore.

Context {PH PS : Type} `{ProtocolOpHandler PH PS}.
Local Abbreviation ScribeLambda := (ScribeLambda PH PS).
Local Abbreviation M := (M PH PS).
Local Abbreviation Env := (Env PS).

Lemma checkpointCore_closed checkpoint queuedMessage clearCache skip (s : ScribeLambda) :
  closed s = true ->
  checkpointCore checkpoint queuedMessage clearCache skip s = (Ok tt, s, []).
Proof. intros Hc. unfold checkpointCore, bind, get. rewrite Hc. reflexivity. Qed.

Lemma checkpointCore_queues checkpoint queuedMessage clearCache skip (s : ScribeLambda)
    p :
  closed s = false ->
  pendingP s = Some p ->
  checkpointCore checkpoint queuedMessage clearCache skip s
  = (Ok tt,
     set_pendingCheckpointOffset (Some queuedMessage)
       (set_pendingCheckpointScribe (Some checkpoint) s),
     []).
Proof.
  intros Hc Hp. unfold checkpointCore, bind, get. rewrite Hc, Hp. reflexivity.
Qed.

Lemma checkpointCore_starts checkpoint queuedMessage clearCache skip (s : ScribeLambda) :
  closed s = false ->
  pendingP s = None ->
  checkpointCore checkpoint queuedMessage clearCache skip s
  = (Ok tt,
     set_pendingP (Some (startedRequest checkpoint queuedMessage clearCache skip s)) s,
     [startEvent checkpoint clearCache s]).
Proof.
  intros Hc Hp. unfold checkpointCore, bind at 1, get at 1. rewrite Hc, Hp.
  unfold startedRequest, startEvent, insertsOf.
  destruct clearCache; reflexivity.
Qed.

(** In every case [checkpointCore] returns, leaves the book-keeping of the
    checkpoint manager alone and logs nothing. *)
Lemma checkpointCore_returns checkpoint queuedMessage clearCache skip (s : ScribeLambda) :
  exists s' t,
    checkpointCore checkpoint queuedMessage clearCache skip s = (Ok tt, s', t)
    /\ documentCheckpointManager s' = documentCheckpointManager s
    /\ isDocumentCorrupt s' = isDocumentCorrupt s
    /\ (forall r, ~ In (WritingCheckpoint r) t)
    /\ acknowledged t = [] /\ sentOps t = [].
Proof.
  destruct (closed s) eqn:Hc.
  - rewrite checkpointCore_closed by exact Hc.
    do 2 eexists. split; [reflexivity|]. repeat split. intros r [].
  - destruct (pendingP s) as [p|] eqn:Hp.
    + rewrite (checkpointCore_queues _ _ _ _ _ Hc Hp).
      do 2 eexists. split; [reflexivity|]. repeat split. intros r [].
    + rewrite (checkpointCore_starts _ _ _ _ _ Hc Hp).
      do 2 eexists. split; [reflexivity|]. unfold startEvent.
      destruct clearCache; repeat split; intros r [E|[]]; discriminate.
Qed.

End CheckpointCore.

(** ** Relations that every method of [handler] keeps

    [R] is a relation that composes along a run, does not look at what the
    setters below write, and holds of every call except the start of a
    checkpoint operation, for which it holds when [checkpointCore] starts
    one. *)
Section RelFrame.

Context {PH PS : Type} `{ProtocolOpHandler PH PS}.
Local Abbreviation ScribeLambda := (ScribeLambda PH PS).
Local Abbreviation M := (M PH PS).
Local Abbreviation Env := (Env PS).
Variable cfg : Config.
Variable R : ScribeLambda -> ScribeLambda -> list (Event PS) -> Prop.

Hypothesis R_refl : forall s, R s s [].
Hypothesis R_trans :
  forall s s1 s2 t1 t2, R s s1 t1 -> R s1 s2 t2 -> R s s2 (t1 ++ t2).
Hypothesis R_event : forall e s, isStart e = false -> R s s [e].
Hypothesis R_start :
  forall checkpoint queuedMessage clearCache skip s,
    closed s = false -> pendingP s = None ->
    R s (set_pendingP
           (Some (startedRequest checkpoint queuedMessage clearCache skip s)) s)
      [startEvent checkpoint clearCache s].
Hypothesis R_lastOffset : forall v s, R s (set_lastOffset v s) [].
Hypothesis R_pendingCheckpointScribe :
  forall v s, R s (set_pendingCheckpointScribe v s) [].
Hypothesis R_pendingCheckpointOffset :
  forall v s, R s (set_pendingCheckpointOffset v s) [].
Hypothesis R_pendingMessages : forall v s, R s (set_pendingMessages v s) [].
Hypothesis R_protocolHandler : forall v s, R s (set_protocolHandler v s) [].
Hypothesis R_protocolHead : forall v s, R s (set_protocolHead v s) [].
Hypothesis R_lastClientSummaryHead : forall v s, R s (set_lastClientSummaryHead v s) [].
Hypothesis R_lastSummarySequenceNumber :
  forall v s, R s (set_lastSummarySequenceNumber v s) [].
Hypothesis R_validParentSummaries : forall v s, R s (set_validParentSummaries v s) [].
Hypothesis R_clearCache : forall v s, R s (set_clearCache v s) [].
Hypothesis R_globalCheckpointOnly : forall v s, R s (set_globalCheckpointOnly v s) [].
Hypothesis R_closed : forall v s, R s (set_closed v s) [].
Hypothesis R_minSequenceNumber : forall v s, R s (set_minSequenceNumber v s) [].
Hypothesis R_isDocumentCorrupt : forall v s, R s (set_isDocumentCorrupt v s) [].
Hypothesis R_documentCheckpointManager :
  forall v s, R s (set_documentCheckpointManager v s) [].

Lemma rel_checkpointCore checkpoint queuedMessage clearCache skip :
  rel R (checkpointCore checkpoint queuedMessage clearCache skip).
Proof.
  intros s. destruct (closed s) eqn:Hc.
  - rewrite checkpointCore_closed by exact Hc. apply R_refl.
  - destruct (pendingP s) as [p|] eqn:Hp.
    + rewrite (checkpointCore_queues _ _ _ _ _ Hc Hp). simpl.
      apply (R_trans (t1 := []) (t2 := [])
               (R_pendingCheckpointScribe (Some checkpoint) s)
               (R_pendingCheckpointOffset (Some queuedMessage) _)).
    + rewrite (checkpointCore_starts _ _ _ _ _ Hc Hp). simpl.
      apply R_start; assumption.
Qed.

Lemma rel_prepareCheckpoint (env : Env) message reason skip :
  rel R (prepareCheckpoint cfg env message reason skip).
Proof.
  unfold prepareCheckpoint. rel_auto ltac:(apply rel_checkpointCore).
Qed.

Lemma rel_markDocumentAsCorrupt (env : Env) message :
  rel R (markDocumentAsCorrupt cfg env message).
Proof.
  unfold markDocumentAsCorrupt. rel_auto ltac:(apply rel_prepareCheckpoint).
Qed.

Lemma rel_processFromPending_loop (env : Env) target message pending :
  rel R (processFromPending_loop cfg env target message pending).
Proof.
  induction pending as [|m rest IH]; simpl; [apply rel_ret; assumption|].
  rel_auto ltac:(first [apply IH | apply rel_markDocumentAsCorrupt]).
Qed.

Lemma rel_processFromPending (env : Env) target message :
  rel R (processFromPending cfg env target message).
Proof.
  unfold processFromPending. rel_auto ltac:(apply rel_processFromPending_loop).
Qed.

Lemma rel_handleSummarize (env : Env) message op :
  rel R (handleSummarize cfg env message op).
Proof.
  unfold handleSummarize, sendSummaryAck, sendSummaryNack,
    sendSummaryConfirmationMessage, sendToDeli, updateProtocolHead,
    updateLastSummarySequenceNumber, revertProtocolState.
  rel_auto ltac:(apply rel_processFromPending).
Qed.

Lemma rel_handleNoClient (env : Env) op :
  rel R (handleNoClient cfg env op).
Proof.
  unfold handleNoClient, sendSummaryConfirmationMessage, sendToDeli,
    updateLastSummarySequenceNumber, updateValidParentSummaries.
  rel_auto idtac.
Qed.

Lemma rel_dispatch (env : Env) message op :
  rel R (dispatch cfg env message op).
Proof.
  unfold dispatch, handleSummaryAck, updateProtocolHead, updateLastSummarySequenceNumber.
  rel_auto ltac:(first [apply rel_handleSummarize | apply rel_handleNoClient]).
Qed.

Lemma rel_idleTimeCheckpoint (env : Env) initial :
  rel R (idleTimeCheckpoint cfg env initial).
Proof.
  unfold idleTimeCheckpoint. rel_auto ltac:(apply rel_checkpointCore).
Qed.


Lemma rel_endOfBatch (env : Env) message :
  rel R (endOfBatch cfg env message).
Proof.
  unfold endOfBatch. rel_auto ltac:(apply rel_prepareCheckpoint).
Qed.

(** The loop body also writes the pending checkpoint messages and the
    sequence number. *)
Hypothesis R_pendingCheckpointMessages :
  forall v s, R s (set_pendingCheckpointMessages v s) [].
Hypothesis R_sequenceNumber : forall v s, R s (set_this_sequenceNumber v s) [].

Lemma rel_processOp (env : Env) message baseMessage :
  rel R (processOp cfg env message baseMessage).
Proof.
  unfold processOp, admitOp, fetchMissing.
  rel_auto ltac:(first [apply rel_processFromPending | apply rel_dispatch]).
Qed.

Lemma rel_processBoxcar (env : Env) message contents :
  rel R (processBoxcar cfg env message contents).
Proof.
  induction contents as [|b rest IH]; simpl; [apply rel_ret; assumption|].
  rel_auto ltac:(first [apply IH | apply rel_processOp]).
Qed.

Lemma rel_handler (env : Env) message :
  rel R (handler cfg env message).
Proof.
  unfold handler, reprocess.
  rel_auto ltac:(first [apply rel_processBoxcar | apply rel_endOfBatch]).
Qed.

End RelFrame.

(** ** What the settling of a checkpoint operation does *)

Section Settling.

Context {PH PS : Type} `{ProtocolOpHandler PH PS}.
Local Abbreviation ScribeLambda := (ScribeLambda PH PS).
Local Abbreviation M := (M PH PS).
Local Abbreviation Env := (Env PS).
Variable cfg : Config.

Lemma writeCheckpoint_finish_finished inserts (s : ScribeLambda) :
  writeCheckpoint_finish cfg inserts s = (Ok tt, finished cfg inserts s, []).
Proof.
  unfold writeCheckpoint_finish, finished.
  destruct (peekBack inserts); reflexivity.
Qed.

Lemma checkpointCore_then_nothing_queued p failed (s : ScribeLambda) :
  pendingCheckpointScribe s = None \/ pendingCheckpointOffset s = None ->
  checkpointCore_then cfg p failed s
  = (Ok tt, set_pendingP None s, acknowledgementOf cfg p failed).
Proof.
  intros Hq. unfold checkpointCore_then, acknowledgementOf. monad_unfold. simpl.
  destruct (negb (if_skipKafkaCheckpoint p) && negb failed); simpl;
    destruct (pendingCheckpointScribe s), (pendingCheckpointOffset s);
    try reflexivity; destruct Hq; discriminate.
Qed.

Lemma checkpointCore_then_flushes p failed (s : ScribeLambda) scribe queued :
  pendingCheckpointScribe s = Some scribe ->
  pendingCheckpointOffset s = Some queued ->
  checkpointCore_then cfg p failed s
  = (let '(r, s', t) := checkpointCore scribe queued (if_clearCache p) false (drained s)
     in (r, s', acknowledgementOf cfg p failed ++ t)).
Proof.
  intros Hs Ho.
  unfold checkpointCore_then, acknowledgementOf, drained, bind, modify, when, emit,
    ret, get.
  destruct (negb (if_skipKafkaCheckpoint p) && negb failed);
    cbn -[checkpointCore]; rewrite Hs, Ho; cbn -[checkpointCore];
    match goal with
    | |- context [checkpointCore ?a ?b ?c ?d ?st] =>
        destruct (checkpointCore a b c d st) as [[r s'] t]
    end; reflexivity.
Qed.

Lemma settle_nothing_pending o (s : ScribeLambda) :
  pendingP s = None -> settle cfg o s = (Ok tt, s, []).
Proof. intros Hp. unfold settle, bind, get. rewrite Hp. reflexivity. Qed.

Lemma settle_delete_rejected (s : ScribeLambda) p :
  pendingP s = Some p -> if_clearCache p = true ->
  settle cfg Rejected s = (Ok tt, s, []).
Proof. intros Hp Hc. unfold settle, bind, get. rewrite Hp, Hc. reflexivity. Qed.

(** In the other cases the [.then] callback runs: after [writeCheckpoint] has
    finished when a write was fulfilled, with the failure flag when a write
    was rejected. *)
Lemma settle_then o (s : ScribeLambda) p :
  pendingP s = Some p ->
  (if_clearCache p = true -> o = Fulfilled) ->
  settle cfg o s
  = checkpointCore_then cfg p
      (if if_clearCache p then false
       else match o with
            | Fulfilled => false
            | Rejected => true
            end)
      (if if_clearCache p then s
       else match o with
            | Fulfilled => finished cfg (if_inserts p) s
            | Rejected => s
            end).
Proof.
  intros Hp Ho. unfold settle. unfold bind at 1, get at 1. rewrite Hp.
  destruct (if_clearCache p).
  - rewrite (Ho eq_refl).
    destruct (checkpointCore_then cfg p false s) as [[r s'] t]; reflexivity.
  - destruct o.
    + unfold bind. rewrite writeCheckpoint_finish_finished.
      destruct (checkpointCore_then cfg p false (finished cfg (if_inserts p) s))
        as [[r s'] t]; reflexivity.
    + destruct (checkpointCore_then cfg p true s) as [[r s'] t]; reflexivity.
Qed.

End Settling.

(** ** Buffers in order *)

Section Increasing.

Lemma increasing_snoc (l : list ISequencedDocumentMessage) x :
  increasing l ->
  (forall m, In m l -> sequenceNumber m < sequenceNumber x) ->
  increasing (l ++ [x]).
Proof.
  unfold increasing. induction l as [|a l IH]; intros Hs Hx; simpl.
  - constructor; constructor.
  - inversion Hs as [|a' l' Hl Ha]; subst. constructor.
    + apply IH; [exact Hl|]. intros m Hm. apply Hx. right. exact Hm.
    + apply Forall_app. split; [exact Ha|].
      constructor; [|constructor]. apply Hx. left. reflexivity.
Qed.

Lemma increasing_filter (f : ISequencedDocumentMessage -> bool) l :
  increasing l -> increasing (filter f l).
Proof.
  unfold increasing. induction l as [|a l IH]; intros Hs; simpl; [constructor|].
  inversion Hs as [|a' l' Hl Ha]; subst.
  destruct (f a); [|apply IH; exact Hl].
  constructor; [apply IH; exact Hl|].
  rewrite Forall_forall in *. intros m Hm. apply Ha.
  apply filter_In in Hm. exact (proj1 Hm).
Qed.

Lemma removeFrontWhile_In capped l m :
  In m (removeFrontWhile capped l) -> In m l.
Proof.
  induction l as [|a l IH]; simpl; [auto|].
  destruct (sequenceNumber a <=? capped); [right; apply IH; assumption|auto].
Qed.

Lemma removeFrontWhile_increasing capped l :
  increasing l -> increasing (removeFrontWhile capped l).
Proof.
  unfold increasing. induction l as [|a l IH]; intros Hs; simpl; [constructor|].
  destruct (sequenceNumber a <=? capped); [|exact Hs].
  inversion Hs; subst. apply IH. assumption.
Qed.

(** Once the front is beyond the cap, so is everything behind it. *)
Lemma removeFrontWhile_beyond capped l m :
  increasing l -> In m (removeFrontWhile capped l) -> capped < sequenceNumber m.
Proof.
  unfold increasing. induction l as [|a l IH]; intros Hs Hm; simpl in *; [contradiction|].
  inversion Hs as [|a' l' Hl Ha]; subst.
  destruct (Z.leb_spec (sequenceNumber a) capped) as [Hle|Hgt].
  - apply IH; assumption.
  - destruct Hm as [<-|Hm]; [exact Hgt|].
    rewrite Forall_forall in Ha. specialize (Ha m Hm). lia.
Qed.

(** The back of a buffer in order carries its greatest sequence number. *)
Lemma peekBack_greatest l x m :
  increasing l -> peekBack l = Some x -> In m l ->
  sequenceNumber m <= sequenceNumber x.
Proof.
  unfold increasing. revert m.
  induction l as [|a l IH]; intros m Hs Hx Hm; [contradiction|].
  inversion Hs as [|a' l' Hl Ha]; subst.
  destruct l as [|b l].
  - simpl in Hx. inversion Hx; subst. destruct Hm as [<-|[]]. lia.
  - change (peekBack (b :: l) = Some x) in Hx.
    destruct Hm as [<-|Hm]; [|apply IH; assumption].
    assert (Hb : sequenceNumber b <= sequenceNumber x)
      by (apply IH; [assumption|assumption|left; reflexivity]).
    rewrite Forall_forall in Ha. specialize (Ha b (or_introl eq_refl)). lia.
Qed.

Lemma peekBack_In {A} (l : list A) x : peekBack l = Some x -> In x l.
Proof.
  induction l as [|a l IH]; [discriminate|].
  destruct l as [|b l].
  - simpl. intros E. inversion E. left. reflexivity.
  - intros E. right. apply IH. exact E.
Qed.

End Increasing.

(** * Properties *)

Unset Implicit Arguments.

(** ** The duplicate filter *)

Section DuplicateFilter.

Context {PH PS : Type} `{ProtocolOpHandler PH PS}.
Local Abbreviation ScribeLambda := (ScribeLambda PH PS).
Local Abbreviation M := (M PH PS).
Local Abbreviation Env := (Env PS).
Variable cfg : Config.

(** C6. A batch whose offset is at or below [lastOffset] makes [handler] return
    at once: the only field written is the checkpoint manager's book-keeping
    (sequence numbers, protocol handler, pending buffers and summary state are
    as before), nothing is sent to the producer, and the offset is
    acknowledged upstream exactly when [kafkaCheckpointOnReprocessingOp] is
    set. *)
Theorem duplicate_batch_is_skipped (env : Env) (message : IQueuedMessage)
    (s : ScribeLambda) (lo : Z) :
  lastOffset s = Some lo ->
  offset message <= lo ->
  exists s' t,
    handler cfg env message s = (Ok tt, s', t)
    /\ s' = set_documentCheckpointManager
              (updateCheckpointMessages message (documentCheckpointManager s)) s
    /\ this_sequenceNumber s' = this_sequenceNumber s
    /\ minSequenceNumber s' = minSequenceNumber s
    /\ protocolHandler s' = protocolHandler s
    /\ protocolHead s' = protocolHead s
    /\ pendingMessages s' = pendingMessages s
    /\ pendingCheckpointMessages s' = pendingCheckpointMessages s
    /\ lastClientSummaryHead s' = lastClientSummaryHead s
    /\ lastSummarySequenceNumber s' = lastSummarySequenceNumber s
    /\ validParentSummaries s' = validParentSummaries s
    /\ sentOps t = []
    /\ (forall e, In e t -> e = ContextCheckpoint message (restartOnCheckpointFailure cfg))
    /\ (acknowledged t = [message] <-> kafkaCheckpointOnReprocessingOp cfg = true)
    /\ (acknowledged t = [] <-> kafkaCheckpointOnReprocessingOp cfg = false).
Proof.
  intros Hlo Hle.
  unfold handler, isReprocess, reprocess. monad_unfold. simpl.
  rewrite Hlo.
  assert (E : (offset message <=? lo) = true) by (apply Z.leb_le; exact Hle).
  rewrite E. simpl.
  destruct (kafkaCheckpointOnReprocessingOp cfg); simpl;
    do 2 eexists; (split; [reflexivity|]); repeat split;
    try reflexivity; try discriminate; try tauto.
  - intros e [<-|[]]. reflexivity.
  - intros e [].
Qed.

End DuplicateFilter.

(** The duplicate of scenario S6: [lastOffset = 100], batch at offset 80. *)
Lemma duplicate_batch_is_skipped_witness :
  exists s' t,
    handler Sample.cfg (Sample.env true) (Sample.batch 80 [Sample.op 11 10 10 Summarize])
            (Sample.lambda Sample.cfg 10 10 100 0 None false) = (Ok tt, s', t)
    /\ acknowledged t = [Sample.batch 80 [Sample.op 11 10 10 Summarize]]
    /\ sentOps t = [].
Proof.
  destruct (duplicate_batch_is_skipped Sample.cfg (Sample.env true)
              (Sample.batch 80 [Sample.op 11 10 10 Summarize])
              (Sample.lambda Sample.cfg 10 10 100 0 None false) 100)
    as (s' & t & E & _ & _ & _ & _ & _ & _ & _ & _ & _ & _ & Hs & _ & Ha & _).
  - reflexivity.
  - simpl. lia.
  - exists s', t. split; [exact E|]. split; [|exact Hs].
    apply Ha. reflexivity.
Defined.

(** ** Client summaries *)

Section ClientSummary.

Context {PH PS : Type} `{ProtocolOpHandler PH PS}.
Local Abbreviation ScribeLambda := (ScribeLambda PH PS).
Local Abbreviation M := (M PH PS).
Local Abbreviation Env := (Env PS).
Variable cfg : Config.


(** C2. With a summary writer that is not external, a Summarize op that
    [writeClientSummary] answers with status false ends with the protocol
    handler put back (rebuilt from the protocol state captured before the
    attempt) together with the pending ops captured with it, and with
    [protocolHead] as it was; when the producer takes the SummaryNack, that is
    the one op sent and the handler goes on.  Answered with status true, when
    the producer takes the SummaryAck and the UpdateDSN, the protocol handler
    and the pending ops stay as advanced by the attempt and [protocolHead] is
    strictly greater than before; when the producer rejects one of the two,
    the [catch] puts the same snapshot back and [protocolHead] stays as it
    was. *)
Theorem client_summary_nack_reverts_ack_advances (env : Env)
    (message : IQueuedMessage) (op : ISequencedDocumentMessage) (s : ScribeLambda)
    ph1 rest (response : SummaryResponse) :
  mtype op = Summarize ->
  deliAcked op = false ->
  isExternal cfg = false ->
  drain (referenceSequenceNumber op) (protocolHandler s) (pendingMessages s)
    = Some (ph1, rest) ->
  protocolHead s < ph_sequenceNumber ph1 ->
  answer cfg env op (advanced s ph1 rest) = Ok response ->
  exists r s' t,
    dispatch cfg env message op s = (r, s', t)
    /\ match response with
       | StatusFalse nack =>
           restored s s'
           /\ ((forall ps, getProtocolState (initializeProtocol ps) false = ps) ->
               getProtocolState (protocolHandler s') false
               = getProtocolState (protocolHandler s) false)
           /\ (taken env (SummaryNackOp nack (enableTraces cfg)) = true ->
               r = Ok tt /\ sentOps t = [SummaryNackOp nack (enableTraces cfg)])
       | StatusTrue ack =>
           if taken env (SummaryAckOp ack (enableTraces cfg))
              && taken env (ControlOp (mkUpdateDSN (sequenceNumber op) true false)
                                      (enableTraces cfg))
           then
             r = Ok tt
             /\ protocolHandler s' = ph1
             /\ pendingMessages s' = rest
             /\ protocolHead s < protocolHead s'
           else restored s s'
       end.
Proof.
  intros Ht Hd Hx Hdr Hlt Hw.
  unfold dispatch. rewrite Ht, Hd. simpl.
  unfold handleSummarize. unfold bind at 1. unfold get at 1.
  rewrite Hx. simpl.
  unfold bind at 1.
  rewrite (processFromPending_drain cfg env _ message s Hdr).
  unfold bind at 1. unfold get at 1.
  assert (Hlt' : (protocolHead (set_protocolHandler ph1 (set_pendingMessages rest s))
                  <? ph_sequenceNumber
                       (protocolHandler
                          (set_protocolHandler ph1 (set_pendingMessages rest s)))) = true)
    by (apply Z.ltb_lt; exact Hlt).
  rewrite Hlt'. clear Hlt'.
  unfold answer, advanced in Hw.
  unfold try_catch, bind at 1, get at 1, bind at 1, emit at 1, bind at 1.
  rewrite Hw.
  unfold taken, restored, try_catch, sendSummaryAck, sendSummaryNack,
    sendSummaryConfirmationMessage, sendToDeli, updateProtocolHead,
    updateLastSummarySequenceNumber, revertProtocolState, advanced.
  monad_unfold. simpl.
  destruct response as [ack|nack]; simpl.
  - destruct (send env (SummaryAckOp ack (enableTraces cfg))) as [[]|e1];
      [destruct (send env (ControlOp _ _)) as [[]|e2]|]; simpl.
    + do 3 eexists. split; [reflexivity|]. simpl. repeat split. exact Hlt.
    + destruct (ignoreStorageException cfg);
        [destruct (send env (SummaryNackOp _ _)) as [[]|e3]|]; simpl;
        do 3 eexists; (split; [reflexivity|]); simpl; repeat split.
    + destruct (ignoreStorageException cfg);
        [destruct (send env (SummaryNackOp _ _)) as [[]|e3]|]; simpl;
        do 3 eexists; (split; [reflexivity|]); simpl; repeat split.
  - destruct (send env (SummaryNackOp nack (enableTraces cfg))) as [[]|e1]; simpl.
    + do 3 eexists. split; [reflexivity|]. simpl.
      repeat split. intros Hrt. apply Hrt.
    + destruct (ignoreStorageException cfg);
        [destruct (send env (SummaryNackOp _ _)) as [[]|e3]|]; simpl;
        do 3 eexists; (split; [reflexivity|]); simpl;
        (repeat split; try discriminate; try (intros Hrt; apply Hrt)).
Qed.

End ClientSummary.



(** Scenario S3, with op 11 drained by the attempt: the nack puts the
    protocol handler back from 11 to 10 and op 11 back on the pending deque. *)
Lemma client_summary_nack_reverts_ack_advances_witness :
  exists s' t,
    dispatch Sample.cfg (Sample.env false) (Sample.batch 5 [Sample.summarize12])
             Sample.summarize12 Sample.beforeSummary12 = (Ok tt, s', t)
    /\ sentOps t = [SummaryNackOp (mkNack "rejected" 12) false]
    /\ protocolHandler s' = mkCounters 10 10
    /\ pendingMessages s' = [Sample.op 11 10 10 Operation; Sample.summarize12]
    /\ protocolHead s' = 0.
Proof.
  destruct (client_summary_nack_reverts_ack_advances Sample.cfg (Sample.env false)
              (Sample.batch 5 [Sample.summarize12]) Sample.summarize12
              Sample.beforeSummary12 (mkCounters 11 10)
              [Sample.summarize12] (StatusFalse (mkNack "rejected" 12)))
    as (r & s' & t & E & (Hs & Hm & Hh & _) & _ & Hn); try reflexivity.
  destruct (Hn eq_refl) as [Hr Ht]. subst r.
  exists s', t. repeat split; assumption.
Defined.

(** The producer rejects the UpdateDSN of a client summary that succeeded,
    without [ignoreStorageException]: the attempt had moved the protocol
    handler from 10 to 11 and taken op 11 off the pending deque; the [catch]
    puts both back, [protocolHead] stays at 0, and the handler throws. *)
Lemma rejected_send_restores_the_snapshot :
  answer Sample.cfg (Sample.envProducer true (Sample.mkTakes true true false))
         Sample.summarize12
         (advanced Sample.beforeSummary12 (mkCounters 11 10) [Sample.summarize12])
  = Ok (StatusTrue (mkAck "H1" 12))
  /\ exists s' t,
       dispatch Sample.cfg (Sample.envProducer true (Sample.mkTakes true true false))
                (Sample.batch 5 [Sample.summarize12])
                Sample.summarize12 Sample.beforeSummary12 = (Throw "producer", s', t)
       /\ sentOps t = [SummaryAckOp (mkAck "H1" 12) false]
       /\ protocolHandler s' = mkCounters 10 10
       /\ pendingMessages s' = [Sample.op 11 10 10 Operation; Sample.summarize12]
       /\ protocolHead s' = protocolHead Sample.beforeSummary12.
Proof.
  split; [reflexivity|].
  do 2 eexists. split; [vm_compute; reflexivity|].
  vm_compute. repeat split.
Qed.

(** ** Gap detection *)

Section GapDetection.

Context {PH PS : Type} `{ProtocolOpHandler PH PS}.
Local Abbreviation ScribeLambda := (ScribeLambda PH PS).
Local Abbreviation M := (M PH PS).
Local Abbreviation Env := (Env PS).
Variable cfg : Config.

Lemma countFrom_snoc (from : Z) (n : nat) :
  countFrom from n ++ [from + Z.of_nat n] = countFrom from (S n).
Proof.
  revert from. induction n as [|n IH]; intros from.
  - simpl. rewrite Z.add_0_r. reflexivity.
  - change (from :: (countFrom (from + 1) n ++ [from + Z.of_nat (S n)])
            = from :: countFrom (from + 1) (S n)).
    rewrite <- (IH (from + 1)).
    replace (from + 1 + Z.of_nat n) with (from + Z.of_nat (S n)) by lia.
    reflexivity.
Qed.

Lemma consecutive_countFrom (from : Z) (n : nat) : consecutive (countFrom from n).
Proof.
  revert from. induction n as [|n IH]; intros from; simpl; [exact I|].
  specialize (IH (from + 1)). destruct n; simpl in *; [exact I|].
  split; [reflexivity|exact IH].
Qed.

Lemma consecutive_app_countFrom (l : list Z) (a : Z) (n : nat) :
  consecutive l ->
  (forall b, peekBack l = Some b -> a = b + 1) ->
  consecutive (l ++ countFrom a (S n)).
Proof.
  induction l as [|x l IH]; intros Hc Hb.
  - apply consecutive_countFrom.
  - destruct l as [|y l].
    + simpl. split; [apply Hb; reflexivity|].
      apply (consecutive_countFrom a (S n)).
    + destruct Hc as [Hy Hc]. split; [exact Hy|].
      apply IH; [exact Hc|]. intros b Hpb. apply Hb. exact Hpb.
Qed.

Lemma peekBack_map {A B} (f : A -> B) (l : list A) :
  peekBack (map f l) = option_map f (peekBack l).
Proof.
  induction l as [|x l IH]; [reflexivity|].
  destruct l as [|y l]; [reflexivity|]. exact IH.
Qed.

(** C5, as the code has it.  An op at or below the last known sequence
    number never reaches the gap check (it is skipped), so the claim is about
    an op beyond the next expected one.  Without a pending message reader the
    op is refused with the invalid-sequence-number error, which leaves
    [processOp] as it is thrown; with one, exactly the ops [lastKnown + 1 ..
    op.sequenceNumber - 1] are requested, and what the reader returns is
    pushed on the pending deque before the op itself, so that a contiguous
    deque stays contiguous when the reader returns the requested ops. *)
Theorem gap_is_refused_or_filled (env : Env) (message : IQueuedMessage)
    (op : ISequencedDocumentMessage) (s : ScribeLambda) :
  let lastKnown := lastProtocolHandlerSequenceNumber s in
  let from := lastKnown + 1 in
  let to := sequenceNumber op - 1 in
  lastKnown + 1 < sequenceNumber op ->
  (hasPendingMessageReader cfg = false ->
   admitOp cfg env op lastKnown s = (Throw "Invalid message sequence number.", s, [])
   /\ (this_sequenceNumber s < sequenceNumber op ->
       processOp cfg env message (SequencedOperation op) s
       = (Throw "Invalid message sequence number.", s, [])))
  /\ (hasPendingMessageReader cfg = true ->
      admitOp cfg env op lastKnown s
      = (Ok tt,
         set_pendingMessages (pendingMessages s ++ readMessages env from to ++ [op]) s,
         [ReadMessages from to])
      /\ (contiguous (pendingMessages s) ->
          map sequenceNumber (readMessages env from to) = range from to ->
          contiguous (pendingMessages s ++ readMessages env from to ++ [op]))).
Proof.
  intros lastKnown from to Hgap.
  assert (Hne : (sequenceNumber op =? lastKnown + 1) = false)
    by (apply Z.eqb_neq; lia).
  split; intros Hr.
  - assert (E : admitOp cfg env op lastKnown s
                = (Throw "Invalid message sequence number.", s, [])).
    { unfold admitOp, fetchMissing. rewrite Hne, Hr. reflexivity. }
    split; [exact E|]. intros Hseq.
    unfold processOp. unfold bind at 1, get at 1.
    assert (E1 : (sequenceNumber op <=? this_sequenceNumber s) = false)
      by (apply Z.leb_gt; exact Hseq).
    assert (E2 : (sequenceNumber op <=? lastProtocolHandlerSequenceNumber s) = false)
      by (apply Z.leb_gt; fold lastKnown; lia).
    rewrite E1, E2. fold lastKnown. unfold bind at 1. rewrite E. reflexivity.
  - split.
    + unfold admitOp, fetchMissing. rewrite Hne, Hr. monad_unfold. simpl.
      rewrite <- app_assoc. reflexivity.
    + intros Hc Hread. unfold contiguous in *.
      rewrite !map_app, Hread. simpl map. unfold range.
      replace (sequenceNumber op)
        with (from + Z.of_nat (Z.to_nat (to - from + 1))) at 1
        by (unfold from, to; lia).
      rewrite countFrom_snoc.
      apply consecutive_app_countFrom; [exact Hc|].
      intros b Hb. rewrite peekBack_map in Hb.
      unfold from, lastKnown, lastProtocolHandlerSequenceNumber.
      destruct (peekBack (pendingMessages s)) as [back|]; [|discriminate].
      simpl in Hb. inversion Hb; subst. reflexivity.
Qed.

End GapDetection.

(** Scenario S5: the protocol handler at 4, an empty deque, op 7 arrives and
    the reader returns 5 and 6. *)
Lemma gap_is_refused_or_filled_witness :
  admitOp (PH := Counters)
    Sample.cfgWithReader (Sample.env true) (Sample.op 7 0 7 Operation) 4
    (Sample.lambda Sample.cfgWithReader 4 0 10 0 None false)
  = (Ok tt,
     set_pendingMessages
       [Sample.op 5 0 5 Operation; Sample.op 6 0 6 Operation; Sample.op 7 0 7 Operation]
       (Sample.lambda Sample.cfgWithReader 4 0 10 0 None false),
     [ReadMessages 5 6])
  /\ contiguous [Sample.op 5 0 5 Operation; Sample.op 6 0 6 Operation;
                 Sample.op 7 0 7 Operation].
Proof.
  destruct (gap_is_refused_or_filled Sample.cfgWithReader (Sample.env true)
              (Sample.batch 11 [Sample.op 7 0 7 Operation]) (Sample.op 7 0 7 Operation)
              (Sample.lambda Sample.cfgWithReader 4 0 10 0 None false))
    as [_ Hfill].
  - simpl. lia.
  - destruct (Hfill eq_refl) as [E Hc]. split; [exact E|].
    apply Hc; [exact I|reflexivity].
Defined.

(** C5 as stated fails: op 3 is not one greater than the last known sequence
    number 5 and no pending message reader is configured, yet nothing is
    thrown; the op is skipped and the state is as before. *)
Lemma stale_op_is_skipped_not_refused :
  hasPendingMessageReader Sample.cfg = false
  /\ lastProtocolHandlerSequenceNumber (Sample.lambda Sample.cfg 5 0 10 0 None false) = 5
  /\ sequenceNumber (Sample.op 3 0 3 Operation) <> 5 + 1
  /\ processOp Sample.cfg (Sample.env true) (Sample.batch 11 [Sample.op 3 0 3 Operation])
       (SequencedOperation (Sample.op 3 0 3 Operation))
       (Sample.lambda Sample.cfg 5 0 10 0 None false)
     = (Ok tt, Sample.lambda Sample.cfg 5 0 10 0 None false, []).
Proof.
  split; [reflexivity|]. split; [vm_compute; reflexivity|].
  split; [simpl; lia|vm_compute; reflexivity].
Qed.

(** ** Valid parent summaries *)

Section ValidParentSummaries.

Context {PH PS : Type} `{ProtocolOpHandler PH PS}.
Local Abbreviation ScribeLambda := (ScribeLambda PH PS).
Local Abbreviation M := (M PH PS).
Local Abbreviation Env := (Env PS).
Variable cfg : Config.

Local Abbreviation limit := (maxTrackedServiceSummaryVersionsSinceLastClientSummary cfg).

(** [push] followed by [shift] or [splice] keeps the newest handles. *)
Lemma pushAndCap_skipn (l : list string) (h : string) (n : Z) :
  pushAndCap n l h
  = skipn (Z.to_nat (Z.of_nat (List.length (l ++ [h])) - n)) (l ++ [h]).
Proof.
  unfold pushAndCap.
  destruct (Z.eqb_spec (Z.of_nat (List.length (l ++ [h])) - n) 1) as [E|E].
  - rewrite E. destruct (l ++ [h]); reflexivity.
  - destruct (Z.ltb_spec 1 (Z.of_nat (List.length (l ++ [h])) - n)) as [L|L];
      [reflexivity|].
    replace (Z.to_nat (Z.of_nat (List.length (l ++ [h])) - n)) with 0%nat by lia.
    reflexivity.
Qed.

Lemma pushAndCap_length (l : list string) (h : string) (n : Z) :
  0 <= n -> Z.of_nat (List.length (pushAndCap n l h)) <= n.
Proof.
  intros Hn. rewrite pushAndCap_skipn, length_skipn. lia.
Qed.

Lemma act_keeps_withinLimit (a : Action PS) (s : ScribeLambda) :
  0 <= limit ->
  withinLimit cfg (validParentSummaries s) ->
  withinLimit cfg (validParentSummaries (after cfg a s)).
Proof.
  intros Hn Hs. unfold after.
  assert (Hp : preserves (fun s => withinLimit cfg (validParentSummaries s))
                 (act cfg a)).
  { destruct a; simpl.
    - apply frame_handler; try (intros; assumption).
      + intros s0 _. exact I.
      + intros h s0 _. simpl. apply pushAndCap_length, Hn.
    - apply frame_settle; intros; assumption.
    - apply frame_idleTimeCheckpoint; intros; assumption.
    - apply frame_close; intros; assumption. }
  specialize (Hp s Hs).
  destruct (act cfg a s) as [[[r|e] s'] t]; exact Hp.
Qed.

(** C8, as the code has it.  The constructor takes [validParentSummaries]
    from the checkpoint as it is, so a restored lambda is within the limit
    exactly when its checkpoint was.  With a limit that is not negative:
    [updateValidParentSummaries] pushes the new handle and keeps the newest
    [limit] entries, whatever the length was before; and from a state within
    the limit every state the lambda reaches is within the limit. *)
Theorem valid_parent_summaries_bounded (s0 s : ScribeLambda) :
  0 <= limit ->
  (forall constructedAt (scribe : IScribe.t PS) (ph : PH) head messages,
     validParentSummaries (construct cfg constructedAt scribe ph head messages)
     = IScribe.validParentSummaries scribe)
  /\ (forall (summaryHandle : string),
        let pushed :=
          match validParentSummaries s with
          | None => []
          | Some l => l
          end ++ [summaryHandle] in
        exists s' l,
          updateValidParentSummaries cfg summaryHandle s = (Ok tt, s', [])
          /\ validParentSummaries s' = Some l
          /\ Z.of_nat (List.length l) <= limit
          /\ l = skipn (Z.to_nat (Z.of_nat (List.length pushed) - limit)) pushed)
  /\ (withinLimit cfg (validParentSummaries s0) ->
      reachableFrom cfg s0 s ->
      withinLimit cfg (validParentSummaries s)).
Proof.
  intros Hn. split; [reflexivity|]. split.
  - intros h pushed. unfold updateValidParentSummaries, modify.
    do 2 eexists. split; [reflexivity|]. simpl. split; [reflexivity|].
    split; [apply pushAndCap_length, Hn|apply pushAndCap_skipn].
  - intros H0 Hr. induction Hr as [|s1 a Hr IH]; [exact H0|].
    apply act_keeps_withinLimit; assumption.
Qed.

End ValidParentSummaries.

(** A lambda within the limit that writes a service summary (scenario S4). *)
Lemma valid_parent_summaries_bounded_witness :
  withinLimit Sample.cfg
    (validParentSummaries
       (after Sample.cfg
          (Handle (Sample.env true) (Sample.batch 12 [Sample.op 11 11 11 NoClient]))
          (Sample.lambda Sample.cfg 10 10 4 0 (Some ["S0"; "S00"]%string) false))).
Proof.
  apply (valid_parent_summaries_bounded Sample.cfg
           (Sample.lambda Sample.cfg 10 10 4 0 (Some ["S0"; "S00"]%string) false)).
  - simpl. lia.
  - simpl. lia.
  - apply reach_step, reach_here.
Defined.

(** C8 as stated fails: with a limit of 2, a lambda restored from a checkpoint
    that lists three service summaries has three valid parent summaries, and
    still has them after a batch that writes no service summary. *)
Lemma restored_lambda_exceeds_limit :
  maxTrackedServiceSummaryVersionsSinceLastClientSummary Sample.cfg = 2
  /\ validParentSummaries
       (Sample.lambda Sample.cfg 10 10 4 0 (Some ["S1"; "S2"; "S3"]%string) false)
     = Some ["S1"; "S2"; "S3"]%string
  /\ validParentSummaries
       (after Sample.cfg
          (Handle (Sample.env true) (Sample.batch 12 [Sample.op 11 10 10 Operation]))
          (Sample.lambda Sample.cfg 10 10 4 0 (Some ["S1"; "S2"; "S3"]%string) false))
     = Some ["S1"; "S2"; "S3"]%string
  /\ ~ withinLimit Sample.cfg (Some ["S1"; "S2"; "S3"]%string).
Proof.
  split; [reflexivity|]. split; [vm_compute; reflexivity|].
  split; [vm_compute; reflexivity|]. simpl. lia.
Qed.

(** ** The corruption flag *)

Section CorruptFlag.

Context {PH PS : Type} `{ProtocolOpHandler PH PS}.
Local Abbreviation ScribeLambda := (ScribeLambda PH PS).
Local Abbreviation M := (M PH PS).
Local Abbreviation Env := (Env PS).
Variable cfg : Config.

Lemma quiet_checkpointCore (checkpoint : IScribe.t PS) queuedMessage clearCache skip :
  quiet (checkpointCore (PH := PH) checkpoint queuedMessage clearCache skip).
Proof. unfold checkpointCore, writeCheckpoint_start. quiet_auto. Qed.
Hint Resolve quiet_checkpointCore : quiet.

Lemma quiet_prepareCheckpoint (env : Env) message reason skip :
  quiet (prepareCheckpoint (PH := PH) cfg env message reason skip).
Proof. unfold prepareCheckpoint. quiet_auto. Qed.
Hint Resolve quiet_prepareCheckpoint : quiet.

Lemma quiet_processFromPending_loop (env : Env) target message pending :
  quiet (processFromPending_loop cfg env target message pending).
Proof.
  induction pending as [|m rest IH]; simpl; [apply quiet_ret|].
  unfold markDocumentAsCorrupt. quiet_auto.
Qed.
Hint Resolve quiet_processFromPending_loop : quiet.

Lemma quiet_processFromPending (env : Env) target message :
  quiet (processFromPending cfg env target message).
Proof. unfold processFromPending. quiet_auto. Qed.
Hint Resolve quiet_processFromPending : quiet.

Lemma quiet_admitOp (env : Env) op lastKnown :
  quiet (admitOp (PH := PH) cfg env op lastKnown).
Proof. unfold admitOp, fetchMissing. quiet_auto. Qed.
Hint Resolve quiet_admitOp : quiet.

(** A method that returns leaves the flag as it found it. *)
Local Abbreviation flagIs c := (fun s : ScribeLambda => isDocumentCorrupt s = c).
Local Abbreviation anything := (fun _ : ScribeLambda => True).

Lemma preserves_returns {A} (P : ScribeLambda -> Prop) (m : M A) :
  preserves P m -> hoare P m P anything.
Proof. intros Hm. eapply hoare_conseq; [exact Hm| | |]; auto. Qed.

Lemma flag_processFromPending (env : Env) target message c :
  hoare (flagIs c) (processFromPending cfg env target message) (flagIs c) anything.
Proof.
  intros s Hs.
  destruct (processFromPending cfg env target message s) as [[[[]|e] s1] t] eqn:E;
    [|exact I].
  apply processFromPending_ok in E. destruct E as (_ & Hsame & _).
  rewrite Hsame. exact Hs.
Qed.

Lemma flag_handleSummarize (env : Env) message op c :
  hoare (flagIs c) (handleSummarize cfg env message op) (flagIs c) anything.
Proof.
  unfold handleSummarize, sendSummaryAck, sendSummaryNack,
    sendSummaryConfirmationMessage, sendToDeli, updateProtocolHead,
    updateLastSummarySequenceNumber, revertProtocolState.
  hoare_auto (flagIs c) ltac:(apply flag_processFromPending).
Qed.

Lemma flag_handleNoClient (env : Env) op c :
  hoare (flagIs c) (handleNoClient cfg env op) (flagIs c) anything.
Proof.
  unfold handleNoClient, sendSummaryConfirmationMessage, sendToDeli,
    updateLastSummarySequenceNumber, updateValidParentSummaries.
  hoare_auto (flagIs c) ltac:(solve [intros ? ?; exact I]).
Qed.

Lemma flag_dispatch (env : Env) message op c :
  hoare (flagIs c) (dispatch cfg env message op) (flagIs c) anything.
Proof.
  unfold dispatch, handleSummaryAck, updateProtocolHead, updateLastSummarySequenceNumber.
  hoare_auto (flagIs c)
    ltac:(first [apply flag_handleSummarize | apply flag_handleNoClient]).
Qed.

Lemma flag_processOp (env : Env) message baseMessage c :
  hoare (flagIs c) (processOp cfg env message baseMessage) (flagIs c) anything.
Proof.
  unfold processOp, admitOp, fetchMissing.
  hoare_auto (flagIs c)
    ltac:(first [apply flag_processFromPending | apply flag_dispatch]).
Qed.

Lemma flag_processBoxcar (env : Env) message contents c :
  hoare (flagIs c) (processBoxcar cfg env message contents) (flagIs c) anything.
Proof.
  induction contents as [|b rest IH]; simpl; [apply hoare_ret; auto|].
  hoare_auto (flagIs c) ltac:(first [apply IH | apply flag_processOp]).
Qed.

Lemma flag_handler (env : Env) message c :
  hoare (flagIs c) (handler cfg env message) (flagIs c) anything.
Proof.
  unfold handler, reprocess, endOfBatch.
  hoare_auto (flagIs c)
    ltac:(first [ apply flag_processBoxcar
                | apply preserves_returns, frame_prepareCheckpoint;
                  intros; assumption ]).
Qed.

(** Rules for [quiet_if_corrupting]: a command that keeps the flag down; a
    quiet command that returns with the flag down, followed by another
    command; a [try] that keeps the flag down and has sent nothing when it
    throws, with a quiet [catch]. *)
Lemma corrupting_keeps {A} (m : M A) :
  preserves (flagIs false) m -> quiet_if_corrupting m.
Proof.
  intros Hm s Hs. specialize (Hm s Hs).
  destruct (m s) as [[[a|e] s1] t1]; intros Hc; simpl in Hm; congruence.
Qed.

Lemma corrupting_quiet {A} (m : M A) : quiet m -> quiet_if_corrupting m.
Proof.
  intros Hm s Hs. specialize (Hm s).
  destruct (m s) as [[r s1] t1]. intros _. exact Hm.
Qed.

Lemma corrupting_bind {A B} (m : M A) (k : A -> M B) :
  quiet m -> hoare (flagIs false) m (flagIs false) anything ->
  (forall a, quiet_if_corrupting (k a)) -> quiet_if_corrupting (bind m k).
Proof.
  intros Hq Hm Hk s Hs. specialize (Hq s). specialize (Hm s Hs). unfold bind.
  destruct (m s) as [[[a|e] s1] t1]; simpl in *; [|intros _; exact Hq].
  specialize (Hk a s1 Hm). destruct (k a s1) as [[r s2] t2].
  intros Hc. rewrite sentOps_app, Hq, (Hk Hc). reflexivity.
Qed.

Lemma corrupting_get {A} (k : ScribeLambda -> M A) :
  (forall s0, quiet_if_corrupting (k s0)) -> quiet_if_corrupting (bind get k).
Proof.
  intros Hk s Hs. specialize (Hk s s Hs). unfold bind, get.
  destruct (k s s) as [[r s2] t2]. exact Hk.
Qed.

Lemma corrupting_try_catch {A} (m : M A) (h : string -> M A) :
  preserves (flagIs false) m -> quiet_on_throw m -> (forall e, quiet (h e)) ->
  quiet_if_corrupting (try_catch m h).
Proof.
  intros Hm Hq Hh s Hs. specialize (Hm s Hs). specialize (Hq s). unfold try_catch.
  destruct (m s) as [[[a|e] s1] t1]; simpl in *; [intros Hc; congruence|].
  specialize (Hh e s1). destruct (h e s1) as [[r s2] t2]. simpl in Hh.
  intros _. rewrite sentOps_app, Hq, Hh. reflexivity.
Qed.

(** The Summarize branch raises the flag only while draining the pending
    ops, before the summary writer is called; the [try] and its [catch] keep
    the flag as it is. *)
Lemma corrupting_handleSummarize (env : Env) message op :
  quiet_if_corrupting (handleSummarize cfg env message op).
Proof.
  unfold handleSummarize.
  apply corrupting_get. intros s0.
  destruct (_ || _); [|apply corrupting_quiet, quiet_ret].
  apply corrupting_bind;
    [apply quiet_processFromPending|apply flag_processFromPending|intros _].
  apply corrupting_get. intros s1.
  destruct (_ <? _); [|apply corrupting_quiet, quiet_ret].
  apply corrupting_keeps.
  unfold preserves, sendSummaryAck, sendSummaryNack,
    sendSummaryConfirmationMessage, sendToDeli, updateProtocolHead,
    updateLastSummarySequenceNumber, revertProtocolState.
  hoare_auto (flagIs false) ltac:(idtac).
Qed.

(** The NoClient branch raises the flag in its [catch], which is entered when
    the summary writer or the send of the UpdateDSN rejected: no op has been
    sent. *)
Lemma corrupting_handleNoClient (env : Env) op :
  quiet_if_corrupting (handleNoClient cfg env op).
Proof.
  unfold handleNoClient.
  apply corrupting_bind;
    [apply quiet_assert|apply hoare_assert; auto|intros _].
  apply corrupting_bind;
    [apply quiet_assert|apply hoare_assert; auto|intros _].
  apply corrupting_bind;
    [apply quiet_modify_dcm|apply hoare_modify_dcm; auto|intros _].
  apply corrupting_bind;
    [apply quiet_modify|apply hoare_modify; auto|intros _].
  destruct (_ && _); [|apply corrupting_quiet, quiet_ret].
  apply corrupting_get. intros s0.
  apply corrupting_try_catch.
  - unfold preserves, sendSummaryConfirmationMessage, sendToDeli,
      updateLastSummarySequenceNumber, updateValidParentSummaries.
    hoare_auto (flagIs false) ltac:(idtac).
  - unfold sendSummaryConfirmationMessage, sendToDeli,
      updateLastSummarySequenceNumber, updateValidParentSummaries.
    repeat quiet_on_throw_step.
  - intros e. quiet_auto.
Qed.

Lemma corrupting_dispatch (env : Env) message op :
  quiet_if_corrupting (dispatch cfg env message op).
Proof.
  unfold dispatch.
  destruct (_ && _); [apply corrupting_handleSummarize|].
  destruct (MessageType_eqb _ _); [apply corrupting_handleNoClient|].
  apply corrupting_quiet.
  unfold handleSummaryAck, updateProtocolHead, updateLastSummarySequenceNumber.
  quiet_auto.
Qed.

Lemma corrupting_processOp (env : Env) message baseMessage :
  quiet_if_corrupting (processOp cfg env message baseMessage).
Proof.
  unfold processOp.
  destruct baseMessage as [op|]; [|apply corrupting_quiet, quiet_ret].
  apply corrupting_get. intros s0.
  destruct (_ <=? _); [apply corrupting_quiet, quiet_ret|].
  destruct (_ <=? _); [apply corrupting_quiet, quiet_ret|].
  apply corrupting_bind; [apply quiet_admitOp| |intros _].
  { unfold admitOp, fetchMissing. hoare_auto (flagIs false) ltac:(idtac). }
  apply corrupting_bind; [quiet_auto| |intros _].
  { hoare_auto (flagIs false) ltac:(idtac). }
  apply corrupting_get. intros s1.
  apply corrupting_bind;
    [apply quiet_modify|apply hoare_modify; auto|intros _].
  apply corrupting_bind;
    [apply quiet_modify|apply hoare_modify; auto|intros _].
  apply corrupting_bind; [quiet_auto| |intros _].
  { apply hoare_when. apply flag_processFromPending. }
  apply corrupting_bind;
    [apply quiet_modify|apply hoare_modify; auto|intros _].
  apply corrupting_dispatch.
Qed.

(** C4, as the code has it.  [handler] does not read the flag: a lambda whose
    flag is set goes on processing batches and summaries.  What holds is that
    the flag, once set, stays set in every checkpoint and through every
    action; that a call of [handler] which sets it throws, so that nothing
    more of that batch is processed; and that the op which sets it has sent
    no SummaryAck, SummaryNack or UpdateDSN. *)
Theorem corruption_aborts_the_batch (env : Env) (message : IQueuedMessage)
    (s : ScribeLambda) :
  (forall (a : Action PS),
     isDocumentCorrupt s = true -> isDocumentCorrupt (after cfg a s) = true)
  /\ (forall logOffset scrub,
        IScribe.isCorrupt (generateScribeCheckpoint env logOffset scrub s)
        = isDocumentCorrupt s)
  /\ (forall r s' t,
        isDocumentCorrupt s = false ->
        handler cfg env message s = (r, s', t) ->
        isDocumentCorrupt s' = true ->
        exists e, r = Throw e)
  /\ (forall baseMessage r s' t,
        isDocumentCorrupt s = false ->
        processOp cfg env message baseMessage s = (r, s', t) ->
        isDocumentCorrupt s' = true ->
        (exists e, r = Throw e) /\ sentOps t = []).
Proof.
  split; [|split; [reflexivity|split]].
  - intros a Hs. unfold after.
    assert (Hp : preserves (flagIs true) (act cfg a)).
    { destruct a; simpl.
      - apply frame_handler; intros; solve [assumption|reflexivity].
      - apply frame_settle; intros; assumption.
      - apply frame_idleTimeCheckpoint; intros; assumption.
      - apply frame_close; intros; assumption. }
    specialize (Hp s Hs). destruct (act cfg a s) as [[[r|e] s'] t]; exact Hp.
  - intros r s' t Hs E Hs'.
    pose proof (hoare_run s (flag_handler env message false) Hs E) as Hr.
    destruct r as [[]|e]; [|exists e; reflexivity].
    simpl in Hr. congruence.
  - intros baseMessage r s' t Hs E Hs'.
    pose proof (hoare_run s (flag_processOp env message baseMessage false) Hs E) as Hr.
    pose proof (corrupting_processOp env message baseMessage s Hs) as Hq.
    rewrite E in Hq.
    destruct r as [[]|e]; [simpl in Hr; congruence|].
    split; [exists e; reflexivity|exact (Hq Hs')].
Qed.

End CorruptFlag.

(** Op 11 moves the minimum sequence number to 11; draining the deque, the
    protocol handler refuses op 10 and the document is marked corrupt. *)
Lemma corruption_aborts_the_batch_witness :
  exists e s' t,
    handler Sample.cfg (Sample.env true) (Sample.batch 5 [Sample.op 11 11 10 Operation])
            Sample.behind = (Throw e, s', t)
    /\ isDocumentCorrupt s' = true.
Proof.
  destruct (handler Sample.cfg (Sample.env true)
              (Sample.batch 5 [Sample.op 11 11 10 Operation]) Sample.behind)
    as [[r s'] t] eqn:E.
  assert (Hc : isDocumentCorrupt s' = true).
  { vm_compute in E. inversion E. reflexivity. }
  destruct (corruption_aborts_the_batch Sample.cfg (Sample.env true)
              (Sample.batch 5 [Sample.op 11 11 10 Operation]) Sample.behind)
    as (_ & _ & Hthrow & _).
  destruct (Hthrow r s' t eq_refl E Hc) as [e ->].
  exists e, s', t. split; [reflexivity|exact Hc].
Defined.

(** C4 as stated fails: a lambda constructed from a checkpoint whose
    [isCorrupt] is true writes the client summary of the next Summarize op
    and sends the SummaryAck and the UpdateDSN control op. *)
Lemma corrupt_lambda_still_summarizes :
  isDocumentCorrupt (Sample.lambda Sample.cfg 10 10 4 0 None true) = true
  /\ sentOps
       (snd (handler Sample.cfg (Sample.env true)
               (Sample.batch 5 [Sample.summarize11])
               (Sample.lambda Sample.cfg 10 10 4 0 None true)))
     = [SummaryAckOp (mkAck "H1" 11) false;
        ControlOp (mkUpdateDSN 11 true false) false].
Proof.
  split; vm_compute; reflexivity.
Qed.


(** ** The reason of a checkpoint *)

Section CheckpointReasons.

Context {PH PS : Type} `{ProtocolOpHandler PH PS}.
Local Abbreviation ScribeLambda := (ScribeLambda PH PS).
Local Abbreviation M := (M PH PS).
Local Abbreviation Env := (Env PS).
Variable cfg : Config.

Lemma prepareCheckpoint_logs (env : Env) message reason skip (s : ScribeLambda) :
  exists s' t,
    prepareCheckpoint cfg env message reason skip s
    = (Ok tt, s', t ++ [WritingCheckpoint reason])
    /\ (forall r, ~ In (WritingCheckpoint r) t)
    /\ noActiveClients (documentCheckpointManager s')
       = noActiveClients (documentCheckpointManager s)
    /\ idleTimer (documentCheckpointManager s') = None.
Proof.
  unfold prepareCheckpoint. unfold bind at 1, get at 1.
  unfold bind at 1, modify_dcm at 1, modify at 1.
  unfold bind at 1, modify_dcm at 1, modify at 1.
  unfold bind at 1.
  match goal with
  | |- context [checkpointCore ?c ?q ?cc ?sk ?st] =>
      destruct (checkpointCore_returns c q cc sk st)
        as (s1 & t1 & E & Hd & _ & Hl & _); rewrite E
  end.
  monad_unfold. simpl.
  do 2 eexists. split; [reflexivity|].
  split; [exact Hl|]. simpl. rewrite Hd. split; reflexivity.
Qed.

Lemma endOfBatch_counted (env : Env) message (s : ScribeLambda) :
  endOfBatch cfg env message s
  = if noActiveClients (documentCheckpointManager s) then
      bind (when (localCheckpointEnabled cfg) (modify (set_globalCheckpointOnly true)))
           (fun _ =>
              bind (prepareCheckpoint cfg env message NoClients false)
                   (fun _ => modify_dcm (setNoActiveClients false)))
           (counted message s)
    else
      match getCheckpointReason cfg env (counted message s) with
      | Some reason => prepareCheckpoint cfg env message reason false (counted message s)
      | None =>
          modify_dcm (updateCheckpointIdleTimer (isDocumentCorrupt s)) (counted message s)
      end.
Proof.
  unfold endOfBatch.
  unfold bind at 1, modify_dcm at 1, modify at 1.
  unfold bind at 1, modify_dcm at 1, modify at 1.
  unfold bind at 1, get at 1.
  cbn [documentCheckpointManager set_documentCheckpointManager noActiveClients
       incrementRawMessageCounter updateCheckpointMessages isDocumentCorrupt].
  change (set_documentCheckpointManager
            (incrementRawMessageCounter
               (updateCheckpointMessages message (documentCheckpointManager s)))
            (set_documentCheckpointManager
               (updateCheckpointMessages message (documentCheckpointManager s)) s))
    with (counted message s).
  destruct (noActiveClients (documentCheckpointManager s)).
  - match goal with
    | |- _ = ?R => destruct R as [[r s'] t]; reflexivity
    end.
  - destruct (getCheckpointReason cfg env (counted message s));
      match goal with
      | |- _ = ?R => destruct R as [[r s'] t]; reflexivity
      end.
Qed.

(** C9. [getCheckpointReason] answers EveryMessage whenever the heuristics are
    disabled; otherwise MaxMessages when the raw messages since the last
    checkpoint have reached [maxMessages]; otherwise MaxTime when the time
    since the last checkpoint has reached [maxTime]; otherwise nothing.  At
    the end of a batch, the flag that a NoClient op sets (and that the rest of
    the batch keeps) comes first: the checkpoint is written with reason
    NoClients and the flag is cleared; without it the checkpoint is written
    with the reason [getCheckpointReason] gives, and when it gives none no
    checkpoint is written and the idle timer is armed. *)
Theorem checkpoint_reason_priority (env : Env) (message : IQueuedMessage)
    (s : ScribeLambda) :
  let info := documentCheckpointManager s in
  (heuristics_enable cfg = false ->
   getCheckpointReason cfg env s = Some EveryMessage)
  /\ (heuristics_enable cfg = true ->
      heuristics_maxMessages cfg <= rawMessagesSinceCheckpoint info ->
      getCheckpointReason cfg env s = Some MaxMessages)
  /\ (heuristics_enable cfg = true ->
      rawMessagesSinceCheckpoint info < heuristics_maxMessages cfg ->
      heuristics_maxTime cfg <= now env - lastCheckpointTime info ->
      getCheckpointReason cfg env s = Some MaxTime)
  /\ (heuristics_enable cfg = true ->
      rawMessagesSinceCheckpoint info < heuristics_maxMessages cfg ->
      now env - lastCheckpointTime info < heuristics_maxTime cfg ->
      getCheckpointReason cfg env s = None)
  /\ (forall op s' t,
        handleNoClient cfg env op s = (Ok tt, s', t) ->
        noActiveClients (documentCheckpointManager s') = true)
  /\ (forall contents r s' t,
        noActiveClients info = true ->
        processBoxcar cfg env message contents s = (r, s', t) ->
        noActiveClients (documentCheckpointManager s') = true)
  /\ (noActiveClients info = true ->
      exists s' t,
        endOfBatch cfg env message s = (Ok tt, s', t ++ [WritingCheckpoint NoClients])
        /\ (forall r, ~ In (WritingCheckpoint r) t)
        /\ noActiveClients (documentCheckpointManager s') = false
        /\ idleTimer (documentCheckpointManager s') = None)
  /\ (noActiveClients info = false ->
      forall reason,
        getCheckpointReason cfg env (counted message s) = Some reason ->
        exists s' t,
          endOfBatch cfg env message s = (Ok tt, s', t ++ [WritingCheckpoint reason])
          /\ (forall r, ~ In (WritingCheckpoint r) t)
          /\ idleTimer (documentCheckpointManager s') = None)
  /\ (noActiveClients info = false ->
      getCheckpointReason cfg env (counted message s) = None ->
      exists s',
        endOfBatch cfg env message s = (Ok tt, s', [])
        /\ idleTimer (documentCheckpointManager s')
           = Some (Some message, isDocumentCorrupt s)).
Proof.
  intros info. repeat apply conj.
  - unfold getCheckpointReason. intros ->. reflexivity.
  - unfold getCheckpointReason. fold info. intros -> Hm. simpl.
    apply Z.leb_le in Hm. rewrite Hm. reflexivity.
  - unfold getCheckpointReason. fold info. intros -> Hm Ht. simpl.
    apply Z.leb_gt in Hm. apply Z.leb_le in Ht. rewrite Hm, Ht. reflexivity.
  - unfold getCheckpointReason. fold info. intros -> Hm Ht. simpl.
    apply Z.leb_gt in Hm. apply Z.leb_gt in Ht. rewrite Hm, Ht. reflexivity.
  - intros op s' t E.
    assert (Hh : hoare (fun _ => True) (handleNoClient cfg env op)
                   (fun s1 => noActiveClients (documentCheckpointManager s1) = true)
                   (fun _ => True)).
    { unfold handleNoClient.
      apply (hoare_bind (Q := fun _ => True)); [apply hoare_assert; auto|intros _].
      apply (hoare_bind (Q := fun _ => True)); [apply hoare_assert; auto|intros _].
      apply (hoare_bind
               (Q := fun s1 => noActiveClients (documentCheckpointManager s1) = true));
        [apply hoare_modify_dcm; reflexivity|intros _].
      apply hoare_conseq
        with (P' := fun s1 => noActiveClients (documentCheckpointManager s1) = true)
             (Q' := fun s1 => noActiveClients (documentCheckpointManager s1) = true)
             (E' := fun s1 => noActiveClients (documentCheckpointManager s1) = true);
        auto.
      unfold sendSummaryConfirmationMessage, sendToDeli,
        updateLastSummarySequenceNumber, updateValidParentSummaries.
      hoare_auto (fun s1 : ScribeLambda =>
                    noActiveClients (documentCheckpointManager s1) = true) idtac. }
    exact (hoare_run s Hh I E).
  - intros contents r s' t Hs E.
    assert (Hp : preserves
                   (fun s1 : ScribeLambda =>
                      noActiveClients (documentCheckpointManager s1) = true)
                   (processBoxcar cfg env message contents))
      by (apply frame_processBoxcar; intros; solve [assumption|reflexivity]).
    pose proof (hoare_run s Hp Hs E) as Hr. destruct r; exact Hr.
  - intros Hn. rewrite endOfBatch_counted. fold info. rewrite Hn.
    unfold bind at 1.
    match goal with
    | |- context [when ?b ?m ?st] =>
        destruct (when b m st) as [[r0 s0] t0] eqn:Ew
    end.
    assert (Hw : r0 = Ok tt /\ t0 = []).
    { destruct (localCheckpointEnabled cfg); simpl in Ew; inversion Ew; subst;
        split; reflexivity. }
    destruct Hw as (-> & ->).
    unfold bind at 1.
    destruct (prepareCheckpoint_logs env message NoClients false s0)
      as (s1 & t1 & E1 & Hl & Hn1 & Hi1).
    rewrite E1. monad_unfold. simpl.
    do 2 eexists. split; [rewrite app_nil_r; reflexivity|].
    split; [exact Hl|]. split; [reflexivity|exact Hi1].
  - intros Hn reason Hr. rewrite endOfBatch_counted. fold info. rewrite Hn, Hr.
    destruct (prepareCheckpoint_logs env message reason false (counted message s))
      as (s1 & t1 & E1 & Hl & Hn1 & Hi1).
    rewrite E1.
    do 2 eexists. split; [reflexivity|]. split; [exact Hl|exact Hi1].
  - intros Hn Hr. rewrite endOfBatch_counted. fold info. rewrite Hn, Hr.
    eexists. split; reflexivity.
Qed.

End CheckpointReasons.

(** One message counted, one second since the last checkpoint: no reason, the
    idle timer is armed. *)
Lemma checkpoint_reason_priority_witness :
  exists s',
    endOfBatch Sample.cfg (Sample.env true) (Sample.batch 5 [])
               (Sample.lambda Sample.cfg 10 10 4 0 None false)
    = (Ok tt, s', [])
    /\ idleTimer (documentCheckpointManager s')
       = Some (Some (Sample.batch 5 []), false).
Proof.
  pose proof (checkpoint_reason_priority Sample.cfg (Sample.env true)
                (Sample.batch 5 []) (Sample.lambda Sample.cfg 10 10 4 0 None false))
    as T.
  cbv zeta in T.
  destruct T as (_ & _ & _ & _ & _ & _ & _ & _ & T9).
  apply T9; reflexivity.
Defined.

(** ** The checkpoint queue *)

Section CheckpointQueue.

Context {PH PS : Type} `{ProtocolOpHandler PH PS}.
Local Abbreviation ScribeLambda := (ScribeLambda PH PS).
Local Abbreviation M := (M PH PS).
Local Abbreviation Env := (Env PS).
Variable cfg : Config.

Lemma starts_app (t1 t2 : list (Event PS)) :
  starts (t1 ++ t2) = (starts t1 + starts t2)%nat.
Proof. unfold starts. rewrite filter_app, length_app. reflexivity. Qed.






End CheckpointQueue.



(** ** Acknowledging the upstream offset *)

(** C1 fails on the code.  The write of batch 5 is pending when batch 6 makes
    the protocol handler refuse a message: the document is marked corrupt and
    the MarkAsCorrupt checkpoint, requested with [skipKafkaCheckpoint], is
    queued; the queue keeps the checkpoint and the message but not the flag.
    When the writes settle, the offset of batch 6 is acknowledged.  With no
    write pending the same failure is not acknowledged. *)
Theorem queued_corrupt_checkpoint_is_acknowledged :
  let env := Sample.env true in
  let s1 := after Sample.cfgEveryMessage (Handle env Sample.batch5)
              Sample.behindEveryMessage in
  let s2 := after Sample.cfgEveryMessage (Handle env Sample.batch6) s1 in
  inFlight s1 = 1%nat
  /\ fst (fst (handler Sample.cfgEveryMessage env Sample.batch6 s1))
     = Throw "Protocol error"
  /\ isDocumentCorrupt s2 = true
  /\ pendingCheckpointOffset s2 = Some Sample.batch6
  /\ acknowledged
       (snd (run Sample.cfgEveryMessage [Settle Fulfilled; Settle Fulfilled] s2))
     = [Sample.batch5; Sample.batch6]
  /\ isDocumentCorrupt
       (after Sample.cfgEveryMessage (Handle env Sample.batch6')
          Sample.behindEveryMessage) = true
  /\ acknowledged
       (snd (run Sample.cfgEveryMessage [Handle env Sample.batch6'; Settle Fulfilled]
               Sample.behindEveryMessage))
     = [].
Proof.
  vm_compute. repeat split.
Qed.

(** ** The pending checkpoint messages and the inserts *)

(** The side conditions of a relation of the form "keeps P" when [P] does not
    read what is written. *)
Ltac keeps_side :=
  first [ intros; assumption
        | let H1 := fresh in let H2 := fresh in let Hs := fresh in
          intros ? ? ? ? ? H1 H2 Hs; exact (H2 (H1 Hs)) ].

Section Inserts.

Context {PH PS : Type} `{ProtocolOpHandler PH PS}.
Local Abbreviation ScribeLambda := (ScribeLambda PH PS).
Local Abbreviation M := (M PH PS).
Local Abbreviation Env := (Env PS).
Variable cfg : Config.

Local Abbreviation keeps P :=
  (fun (s s' : ScribeLambda) (_ : list (Event PS)) => P s -> P s').

Lemma rel_preserves {A} (P : ScribeLambda -> Prop) (m : M A) :
  rel (keeps P) m -> preserves P m.
Proof.
  intros Hm s Hs. specialize (Hm s).
  destruct (m s) as [[[a|e] s'] t]; simpl in Hm; auto.
Qed.

Lemma insertsOf_increasing (s : ScribeLambda) :
  bufferInOrder s -> increasing (insertsOf s).
Proof. intros [Hi _]. apply increasing_filter, Hi. Qed.

Lemma insertsOf_beyond (s : ScribeLambda) m :
  In m (insertsOf s) -> lastCheckpointInsertedNumber s < sequenceNumber m.
Proof.
  unfold insertsOf. intros Hm. apply filter_In in Hm.
  apply Z.ltb_lt. exact (proj2 Hm).
Qed.

(** Starting a checkpoint operation keeps the inserts in order. *)
Lemma started_in_order checkpoint queuedMessage clearCache skip (s : ScribeLambda) :
  bufferInOrder s ->
  insertsInOrder
    (set_pendingP (Some (startedRequest checkpoint queuedMessage clearCache skip s)) s).
Proof.
  intros Hb. split; [exact Hb|]. intros p Hp. simpl in Hp. inversion Hp; subst p.
  unfold startedRequest. simpl. destruct clearCache.
  - split; [constructor|intros m []].
  - split; [apply insertsOf_increasing, Hb|apply insertsOf_beyond].
Qed.

Lemma in_order_checkpointCore (checkpoint : IScribe.t PS) queuedMessage clearCache skip :
  preserves insertsInOrder
    (checkpointCore (PH := PH) checkpoint queuedMessage clearCache skip).
Proof.
  apply rel_preserves.
  apply rel_checkpointCore; try keeps_side.
  intros cp qm cc sk s _ _ [Hb _]. apply started_in_order, Hb.
Qed.

(** The methods that write neither the buffer nor the sequence number. *)
Lemma in_order_processFromPending (env : Env) target message :
  preserves insertsInOrder (processFromPending cfg env target message).
Proof.
  apply rel_preserves.
  apply rel_processFromPending; try keeps_side.
  intros cp qm cc sk s _ _ [Hb _]. apply started_in_order, Hb.
Qed.

Lemma in_order_dispatch (env : Env) message op :
  preserves insertsInOrder (dispatch cfg env message op).
Proof.
  apply rel_preserves.
  apply rel_dispatch; try keeps_side.
  intros cp qm cc sk s _ _ [Hb _]. apply started_in_order, Hb.
Qed.

Lemma in_order_endOfBatch (env : Env) message :
  preserves insertsInOrder (endOfBatch cfg env message).
Proof.
  apply rel_preserves.
  apply rel_endOfBatch; try keeps_side.
  intros cp qm cc sk s _ _ [Hb _]. apply started_in_order, Hb.
Qed.

Lemma in_order_idleTimeCheckpoint (env : Env) initial :
  preserves insertsInOrder (idleTimeCheckpoint cfg env initial).
Proof.
  apply rel_preserves.
  apply rel_idleTimeCheckpoint; try keeps_side.
  intros cp qm cc sk s _ _ [Hb _]. apply started_in_order, Hb.
Qed.

(** The loop body: the op is pushed on the buffer before the sequence number
    is moved to it, so the invariant is broken and restored on the way. *)
Lemma in_order_processOp (env : Env) message baseMessage :
  preserves insertsInOrder (processOp cfg env message baseMessage).
Proof.
  unfold preserves, processOp.
  destruct baseMessage as [op|]; [|apply hoare_ret; auto].
  apply hoare_get. intros s0.
  destruct (Z.leb_spec (sequenceNumber op) (this_sequenceNumber s0)) as [_|Hnew];
    [apply hoare_ret; tauto|].
  destruct (sequenceNumber op <=? lastProtocolHandlerSequenceNumber s0);
    [apply hoare_ret; tauto|].
  set (P0 := fun s : ScribeLambda =>
               insertsInOrder s /\ this_sequenceNumber s < sequenceNumber op).
  set (P1 := fun s : ScribeLambda =>
               (increasing (pendingCheckpointMessages s)
                /\ (forall m, In m (pendingCheckpointMessages s) ->
                      sequenceNumber m <= sequenceNumber op))
               /\ (forall p, pendingP s = Some p ->
                     increasing (if_inserts p)
                     /\ (forall m, In m (if_inserts p) ->
                           lastCheckpointInsertedNumber s < sequenceNumber m))).
  apply hoare_conseq with (P' := P0) (Q' := insertsInOrder) (E' := insertsInOrder);
    auto; [|intros s [Hs ->]; split; assumption].
  apply (hoare_bind (Q := P0)).
  { unfold admitOp, fetchMissing. repeat hoare_step P0;
      try (intros s [Hs Hlt]; first [exact Hs | split; assumption]). }
  intros _. apply (hoare_bind (Q := P1)).
  { destruct (enablePendingCheckpointMessages cfg); simpl.
    - apply hoare_modify. intros s [[[Hi Hle] Hp] Hlt]. split; [split|exact Hp]; simpl.
      + apply increasing_snoc; [exact Hi|]. intros m Hm. specialize (Hle m Hm). lia.
      + intros m Hm. apply in_app_or in Hm. destruct Hm as [Hm|[<-|[]]]; [|lia].
        specialize (Hle m Hm). lia.
    - apply hoare_ret. intros s [[[Hi Hle] Hp] Hlt]. split; [split|exact Hp].
      + exact Hi.
      + intros m Hm. specialize (Hle m Hm). lia. }
  intros _. apply hoare_get_any. intros s1.
  apply (hoare_bind (Q := insertsInOrder)).
  { apply hoare_modify. intros s [Hb Hp]. split; [exact Hb|exact Hp]. }
  intros _.
  hoare_auto (insertsInOrder (PH := PH) (PS := PS))
    ltac:(first [apply in_order_processFromPending | apply in_order_dispatch]).
Qed.

Lemma in_order_processBoxcar (env : Env) message contents :
  preserves insertsInOrder (processBoxcar cfg env message contents).
Proof.
  unfold preserves. induction contents as [|b rest IH]; simpl; [apply hoare_ret; auto|].
  apply (hoare_bind (Q := insertsInOrder)); [apply in_order_processOp|intros _; exact IH].
Qed.

Lemma in_order_handler (env : Env) message :
  preserves insertsInOrder (handler cfg env message).
Proof.
  unfold preserves, handler, reprocess.
  hoare_auto (insertsInOrder (PH := PH) (PS := PS))
    ltac:(first [apply in_order_processBoxcar | apply in_order_endOfBatch]).
Qed.

(** The outcomes of the [.then] callback: it acknowledges or not, and then
    leaves nothing pending, or drops the queued pair (closed lambda), or
    starts it. *)
Lemma then_cases (p : InFlight PS) (failed : bool) (sx : ScribeLambda) :
  checkpointCore_then cfg p failed sx
  = (Ok tt, set_pendingP None sx, acknowledgementOf cfg p failed)
  \/ checkpointCore_then cfg p failed sx
     = (Ok tt, drained sx, acknowledgementOf cfg p failed)
  \/ exists checkpoint queuedMessage,
       closed (drained sx) = false
       /\ checkpointCore_then cfg p failed sx
          = (Ok tt,
             set_pendingP
               (Some (startedRequest checkpoint queuedMessage (if_clearCache p) false
                        (drained sx)))
               (drained sx),
             acknowledgementOf cfg p failed
             ++ [startEvent checkpoint (if_clearCache p) (drained sx)]).
Proof.
  destruct (pendingCheckpointScribe sx) as [scribe|] eqn:Hs.
  2:{ left. apply checkpointCore_then_nothing_queued. left. exact Hs. }
  destruct (pendingCheckpointOffset sx) as [queued|] eqn:Ho.
  2:{ left. apply checkpointCore_then_nothing_queued. right. exact Ho. }
  rewrite (checkpointCore_then_flushes cfg p failed sx Hs Ho).
  destruct (closed (drained sx)) eqn:Hcl.
  - right. left. rewrite checkpointCore_closed by exact Hcl.
    cbv beta iota. rewrite app_nil_r. reflexivity.
  - right. right. exists scribe, queued. split; [reflexivity|].
    rewrite (checkpointCore_starts _ _ _ _ _ Hcl eq_refl). reflexivity.
Qed.

(** The outcomes of a settlement.  Either nothing happens (nothing is
    pending, or a cache-clearing delete was rejected), or the [.then]
    callback runs in the state [sx] that [writeCheckpoint] left. *)
Lemma settle_cases (o : Settled) (s : ScribeLambda) :
  settle cfg o s = (Ok tt, s, [])
  \/ exists p sx failed,
       pendingP s = Some p
       /\ (sx = s
           \/ (sx = finished cfg (if_inserts p) s /\ if_clearCache p = false
               /\ o = Fulfilled))
       /\ settle cfg o s = checkpointCore_then cfg p failed sx.
Proof.
  destruct (pendingP s) as [p|] eqn:Hp;
    [|left; apply settle_nothing_pending; exact Hp].
  destruct (if_clearCache p) eqn:Hc.
  - destruct o.
    + right. exists p, s, false. split; [reflexivity|]. split; [left; reflexivity|].
      pose proof (@settle_then _ _ cfg Fulfilled s p Hp (fun _ => eq_refl)) as X.
      rewrite Hc in X. exact X.
    + left. apply (settle_delete_rejected cfg s Hp Hc).
  - destruct o.
    + right. exists p, (finished cfg (if_inserts p) s), false.
      split; [reflexivity|].
      split; [right; split; [reflexivity|split; [exact Hc|reflexivity]]|].
      assert (Hno : if_clearCache p = true -> Fulfilled = Fulfilled) by reflexivity.
      pose proof (@settle_then _ _ cfg Fulfilled s p Hp Hno) as X.
      rewrite Hc in X. exact X.
    + right. exists p, s, true. split; [reflexivity|]. split; [left; reflexivity|].
      assert (Hno : if_clearCache p = true -> Rejected = Fulfilled) by congruence.
      pose proof (@settle_then _ _ cfg Rejected s p Hp Hno) as X.
      rewrite Hc in X. exact X.
Qed.

Lemma bufferInOrder_finished inserts (s : ScribeLambda) :
  bufferInOrder s -> bufferInOrder (finished cfg inserts s).
Proof.
  intros [Hi Hle]. unfold finished.
  destruct (peekBack inserts) as [lastInsert|]; [|split; assumption].
  split; simpl.
  - apply removeFrontWhile_increasing, Hi.
  - intros m Hm. apply Hle. eapply removeFrontWhile_In. exact Hm.
Qed.

Lemma in_order_settle (o : Settled) (s : ScribeLambda) :
  insertsInOrder s -> insertsInOrder (after cfg (Settle o) s).
Proof.
  intros Hs. unfold after. simpl act.
  destruct (settle_cases o s) as [E|(p & sx & failed & Hp & Hsx & E)].
  - rewrite E. exact Hs.
  - assert (Hb : bufferInOrder sx).
    { destruct Hsx as [->|(-> & _ & _)]; [exact (proj1 Hs)|].
      apply bufferInOrder_finished. exact (proj1 Hs). }
    rewrite E.
    destruct (then_cases p failed sx) as [E1|[E1|(cp & qm & _ & E1)]];
      rewrite E1; simpl.
    + split; [exact Hb|]. intros q Hq. discriminate.
    + split; [exact Hb|]. intros q Hq. discriminate.
    + apply started_in_order. exact Hb.
Qed.

Lemma act_in_order (a : Action PS) (s : ScribeLambda) :
  insertsInOrder s -> insertsInOrder (after cfg a s).
Proof.
  intros Hs. destruct a as [env message|o|env initial|].
  - pose proof (in_order_handler env message s Hs) as Hh. unfold after. simpl act.
    destruct (handler cfg env message s) as [[[r|e] s'] t]; exact Hh.
  - apply in_order_settle. exact Hs.
  - pose proof (in_order_idleTimeCheckpoint env initial s Hs) as Hh.
    unfold after. simpl act.
    destruct (idleTimeCheckpoint cfg env initial s) as [[[r|e] s'] t]; exact Hh.
  - exact Hs.
Qed.

Lemma construct_in_order constructedAt (scribe : IScribe.t PS) (ph : PH) head messages :
  insertsInOrder (construct cfg constructedAt scribe ph head messages).
Proof.
  split; [split|]; simpl.
  - constructor.
  - intros m [].
  - intros p Hp. discriminate.
Qed.

Lemma reachable_in_order (s0 s : ScribeLambda) :
  insertsInOrder s0 -> reachableFrom cfg s0 s -> insertsInOrder s.
Proof.
  intros H0 Hr. induction Hr as [|s1 a Hr IH]; [exact H0|].
  apply act_in_order. exact IH.
Qed.

(** The state that a settlement leaves has the buffer, the protocol head and
    the last inserted number of the state [sx] in which the [.then] callback
    ran. *)
Lemma then_keeps (p : InFlight PS) failed (sx : ScribeLambda) :
  let s' := snd (fst (checkpointCore_then cfg p failed sx)) in
  pendingCheckpointMessages s' = pendingCheckpointMessages sx
  /\ protocolHead s' = protocolHead sx
  /\ lastCheckpointInsertedNumber s' = lastCheckpointInsertedNumber sx.
Proof.
  destruct (then_cases p failed sx) as [E|[E|(cp & qm & _ & E)]];
    rewrite E; simpl; repeat split.
Qed.

Lemma finished_last_inserted (p : InFlight PS) (s : ScribeLambda) :
  insertsInOrder s -> pendingP s = Some p ->
  lastCheckpointInsertedNumber s
  <= lastCheckpointInsertedNumber (finished cfg (if_inserts p) s).
Proof.
  intros [_ Hp] Ep. unfold finished.
  destruct (peekBack (if_inserts p)) as [lastInsert|] eqn:Ek; simpl; [|lia].
  destruct (Hp p Ep) as [_ Hgt]. specialize (Hgt lastInsert (peekBack_In _ Ek)). lia.
Qed.

(** The last inserted number never goes down. *)
Lemma act_last_inserted (a : Action PS) (s : ScribeLambda) :
  insertsInOrder s ->
  lastCheckpointInsertedNumber s <= lastCheckpointInsertedNumber (after cfg a s).
Proof.
  intros Hs. unfold after.
  set (P := fun s1 : ScribeLambda =>
              lastCheckpointInsertedNumber s1 = lastCheckpointInsertedNumber s).
  destruct a as [env message|o|env initial|]; simpl act.
  - assert (Hp : preserves P (handler cfg env message))
      by (apply frame_handler; intros; assumption).
    specialize (Hp s eq_refl).
    destruct (handler cfg env message s) as [[[r|e] s'] t]; unfold P in Hp; simpl; lia.
  - destruct (settle_cases o s) as [E|(p & sx & failed & Hp & Hsx & E)].
    + rewrite E. simpl. lia.
    + rewrite E. destruct (then_keeps p failed sx) as (_ & _ & ->).
      destruct Hsx as [->|(-> & _ & _)]; [lia|].
      apply finished_last_inserted; assumption.
  - assert (Hp : preserves P (idleTimeCheckpoint cfg env initial))
      by (apply frame_idleTimeCheckpoint; intros; assumption).
    specialize (Hp s eq_refl).
    destruct (idleTimeCheckpoint cfg env initial s) as [[[r|e] s'] t];
      unfold P in Hp; simpl; lia.
  - simpl. lia.
Qed.

Lemma reach_last_inserted (s1 s2 : ScribeLambda) :
  insertsInOrder s1 -> reachableFrom cfg s1 s2 ->
  lastCheckpointInsertedNumber s1 <= lastCheckpointInsertedNumber s2.
Proof.
  intros H1 Hr. induction Hr as [|s a Hr IH]; [lia|].
  pose proof (act_last_inserted a s (reachable_in_order s1 s H1 Hr)). lia.
Qed.

(** What an action hands to the checkpoint manager is beyond the last
    inserted number. *)
Lemma act_hands_over_new (a : Action PS) (s : ScribeLambda) e m :
  insertsInOrder s ->
  In e (snd (act cfg a s)) -> In m (handedOver e) ->
  lastCheckpointInsertedNumber s < sequenceNumber m.
Proof.
  intros Hs.
  set (R := fun (s1 s2 : ScribeLambda) (t : list (Event PS)) =>
              lastCheckpointInsertedNumber s2 = lastCheckpointInsertedNumber s1
              /\ forall e m, In e t -> In m (handedOver e) ->
                   lastCheckpointInsertedNumber s1 < sequenceNumber m).
  assert (R_refl : forall s, R s s []) by (intros; split; [reflexivity|intros ? ? []]).
  assert (R_trans : forall s s1 s2 t1 t2, R s s1 t1 -> R s1 s2 t2 -> R s s2 (t1 ++ t2)).
  { intros s1 s2 s3 t1 t2 [E1 H1] [E2 H2]. split; [congruence|].
    intros e0 m0 He Hm. apply in_app_or in He. destruct He as [He|He].
    - eapply H1; eassumption.
    - rewrite <- E1. eapply H2; eassumption. }
  assert (R_event : forall e s, isStart e = false -> R s s [e]).
  { intros e0 s1 He. split; [reflexivity|].
    intros e1 m1 [<-|[]] Hm. destruct e0; simpl in *; try contradiction; discriminate. }
  assert (R_start : forall checkpoint queuedMessage clearCache skip s,
             closed s = false -> pendingP s = None ->
             R s (set_pendingP
                    (Some (startedRequest checkpoint queuedMessage clearCache skip s)) s)
               [startEvent checkpoint clearCache s]).
  { intros cp qm cc sk s1 _ _. split; [reflexivity|].
    intros e1 m1 [<-|[]] Hm. unfold startEvent in Hm.
    destruct cc; simpl in Hm; [contradiction|apply insertsOf_beyond, Hm]. }
  assert (R_set : forall (s1 s2 : ScribeLambda),
             lastCheckpointInsertedNumber s2 = lastCheckpointInsertedNumber s1 ->
             R s1 s2 []) by (intros; split; [assumption|intros ? ? []]).
  destruct a as [env message|o|env initial|]; simpl act.
  - assert (Hh : rel R (handler cfg env message))
      by (apply rel_handler; try assumption; intros; apply R_set; reflexivity).
    intros He Hm. exact (proj2 (Hh s) e m He Hm).
  - destruct (settle_cases o s) as [E|(p & sx & failed & Hp & Hsx & E)].
    + rewrite E. intros [].
    + rewrite E.
      assert (Hsx' : lastCheckpointInsertedNumber s <= lastCheckpointInsertedNumber sx).
      { destruct Hsx as [->|(-> & _ & _)]; [lia|].
        apply finished_last_inserted; assumption. }
      assert (Hack : forall e, In e (acknowledgementOf cfg p failed) -> handedOver e = []).
      { unfold acknowledgementOf.
        destruct (negb (if_skipKafkaCheckpoint p) && negb failed);
          [intros e0 [<-|[]]; reflexivity|intros e0 []]. }
      destruct (then_cases p failed sx) as [E1|[E1|(cp & qm & _ & E1)]];
        rewrite E1; simpl snd; intros He Hm.
      * rewrite (Hack e He) in Hm. contradiction.
      * rewrite (Hack e He) in Hm. contradiction.
      * apply in_app_or in He. destruct He as [He|[<-|[]]].
        -- rewrite (Hack e He) in Hm. contradiction.
        -- unfold startEvent in Hm. destruct (if_clearCache p); simpl in Hm;
             [contradiction|].
           apply insertsOf_beyond in Hm. simpl in Hm. lia.
  - assert (Hh : rel R (idleTimeCheckpoint cfg env initial))
      by (apply rel_idleTimeCheckpoint; try assumption; intros; apply R_set;
          reflexivity).
    intros He Hm. exact (proj2 (Hh s) e m He Hm).
  - simpl. intros [].
Qed.

(** C10.  In every state a constructed lambda reaches: when a checkpoint
    write that handed over inserts is fulfilled, the last inserted number
    becomes the sequence number of the last insert, every entry left in the
    pending checkpoint messages is strictly beyond
    [max(protocolHead, lastInserted - maxPendingCheckpointMessagesLength)],
    and none of the ops inserted is handed to the checkpoint manager again by
    anything the lambda does afterwards; and whatever any action hands to the
    checkpoint manager is beyond the last inserted number. *)
Theorem pending_checkpoint_messages_are_capped
    (constructedAt : Z) (scribe : IScribe.t PS) (ph : PH) (head : Z)
    (messages : list ISequencedDocumentMessage) (s : ScribeLambda) :
  reachableFrom cfg (construct cfg constructedAt scribe ph head messages) s ->
  (forall p lastInsert,
     pendingP s = Some p ->
     if_clearCache p = false ->
     peekBack (if_inserts p) = Some lastInsert ->
     let s' := after cfg (Settle Fulfilled) s in
     lastCheckpointInsertedNumber s' = sequenceNumber lastInsert
     /\ (forall m, In m (pendingCheckpointMessages s') ->
           Z.max (protocolHead s')
                 (lastCheckpointInsertedNumber s'
                  - maxPendingCheckpointMessagesLength cfg)
           < sequenceNumber m)
     /\ (forall s2 a e again m,
           reachableFrom cfg s' s2 ->
           In e (snd (act cfg a s2)) -> In again (handedOver e) ->
           In m (if_inserts p) ->
           sequenceNumber m < sequenceNumber again))
  /\ (forall a e m,
        In e (snd (act cfg a s)) -> In m (handedOver e) ->
        lastCheckpointInsertedNumber s < sequenceNumber m).
Proof.
  intros Hr.
  assert (Hs : insertsInOrder s)
    by (eapply reachable_in_order; [apply construct_in_order|exact Hr]).
  split; [|intros a e m; apply act_hands_over_new; exact Hs].
  intros p lastInsert Hp Hc Hk s'.
  assert (Hs' : insertsInOrder s') by (apply act_in_order; exact Hs).
  assert (E : settle cfg Fulfilled s
              = checkpointCore_then cfg p false (finished cfg (if_inserts p) s)).
  { assert (Hno : if_clearCache p = true -> Fulfilled = Fulfilled) by reflexivity.
    pose proof (@settle_then _ _ cfg Fulfilled s p Hp Hno) as X.
    rewrite Hc in X. exact X. }
  destruct (then_keeps p false (finished cfg (if_inserts p) s)) as (Em & Eh & El).
  assert (Hlast : lastCheckpointInsertedNumber s' = sequenceNumber lastInsert).
  { unfold s', after. simpl act. rewrite E, El. unfold finished. rewrite Hk.
    reflexivity. }
  assert (Hhead : protocolHead s' = protocolHead s).
  { unfold s', after. simpl act. rewrite E, Eh. unfold finished. rewrite Hk.
    reflexivity. }
  assert (Hbuf : pendingCheckpointMessages s'
                 = removeFrontWhile
                     (Z.max (protocolHead s)
                            (sequenceNumber lastInsert
                             - maxPendingCheckpointMessagesLength cfg))
                     (pendingCheckpointMessages s)).
  { unfold s', after. simpl act. rewrite E, Em. unfold finished. rewrite Hk.
    reflexivity. }
  split; [exact Hlast|]. split.
  - rewrite Hlast, Hhead, Hbuf. intros m Hm.
    eapply removeFrontWhile_beyond; [|exact Hm]. exact (proj1 (proj1 Hs)).
  - intros s2 a e again m Hr2 He Ha Hm.
    assert (H1 : sequenceNumber m <= sequenceNumber lastInsert).
    { destruct (proj2 Hs p Hp) as [Hi _]. eapply peekBack_greatest; eassumption. }
    pose proof (reach_last_inserted s' s2 Hs' Hr2) as H2.
    pose proof (act_hands_over_new a s2 e again
                  (reachable_in_order s' s2 Hs' Hr2) He Ha) as H3.
    rewrite Hlast in H2. lia.
Qed.

End Inserts.

(** The write of batch 5 handed over op 11; once it is fulfilled the last
    inserted number is 11. *)
Lemma pending_checkpoint_messages_are_capped_witness :
  exists p,
    pendingP (after Sample.cfgEveryMessage (Handle (Sample.env true) Sample.batch5)
                Sample.soundEveryMessage) = Some p
    /\ if_inserts p = [Sample.op 11 10 10 Operation]
    /\ lastCheckpointInsertedNumber
         (after Sample.cfgEveryMessage (Settle Fulfilled)
            (after Sample.cfgEveryMessage (Handle (Sample.env true) Sample.batch5)
               Sample.soundEveryMessage)) = 11.
Proof.
  assert (Hp : exists p,
             pendingP (after Sample.cfgEveryMessage
                         (Handle (Sample.env true) Sample.batch5)
                         Sample.soundEveryMessage) = Some p
             /\ if_clearCache p = false
             /\ if_inserts p = [Sample.op 11 10 10 Operation])
    by (eexists; vm_compute; repeat split).
  destruct Hp as (p & Hp & Hc & Hi). exists p. split; [exact Hp|]. split; [exact Hi|].
  destruct (pending_checkpoint_messages_are_capped Sample.cfgEveryMessage 0
              (Sample.scribe 10 10 4 0 None false) (mkCounters 10 10) 0 []
              (after Sample.cfgEveryMessage (Handle (Sample.env true) Sample.batch5)
                 Sample.soundEveryMessage))
    as [T _].
  - apply reach_step, reach_here.
  - assert (Hk : peekBack (if_inserts p) = Some (Sample.op 11 10 10 Operation))
      by (rewrite Hi; reflexivity).
    destruct (T p (Sample.op 11 10 10 Operation) Hp Hc Hk) as (T1 & _).
    exact T1.
Defined.

(** * Further properties of the lambda *)

(** ** Invariants along runs *)

(** *** Rules for [maintains] *)

Section MaintainsRules.

Context {PH PS : Type} `{ProtocolOpHandler PH PS}.
Local Abbreviation ScribeLambda := (ScribeLambda PH PS).
Local Abbreviation M := (M PH PS).
Variable I : ScribeLambda -> Prop.
Variable good : Event PS -> Prop.

Lemma maintains_ret {A} (a : A) : maintains I good (ret a).
Proof. intros s Hs. split; [exact Hs|constructor]. Qed.

Lemma maintains_throw {A} (e : string) : maintains I good (throw (A := A) e).
Proof. intros s Hs. split; [exact Hs|constructor]. Qed.

Lemma maintains_liftRes {A} (r : Res A) : maintains I good (liftRes r).
Proof. destruct r; intros s Hs; (split; [exact Hs|constructor]). Qed.

Lemma maintains_assert (b : bool) (msg : string) : maintains I good (assert b msg).
Proof. destruct b; intros s Hs; (split; [exact Hs|constructor]). Qed.

Lemma maintains_modify (f : ScribeLambda -> ScribeLambda) :
  (forall s, I s -> I (f s)) -> maintains I good (modify f).
Proof. intros Hf s Hs. split; [apply Hf, Hs|constructor]. Qed.

Lemma maintains_modify_dcm (f : DocumentCheckpointManager -> DocumentCheckpointManager) :
  (forall s, I s ->
     I (set_documentCheckpointManager (f (documentCheckpointManager s)) s)) ->
  maintains I good (modify_dcm f).
Proof. intros Hf s Hs. split; [apply Hf, Hs|constructor]. Qed.

Lemma maintains_emit (e : Event PS) : good e -> maintains I good (emit e).
Proof. intros He s Hs. split; [exact Hs|]. constructor; [exact He|constructor]. Qed.

Lemma maintains_bind {A B} (m : M A) (k : A -> M B) :
  maintains I good m -> (forall a, maintains I good (k a)) ->
  maintains I good (bind m k).
Proof.
  intros Hm Hk s Hs. destruct (Hm s Hs) as [H1 G1]. unfold bind.
  destruct (m s) as [[[a|e] s1] t1]; simpl in *; [|split; assumption].
  destruct (Hk a s1 H1) as [H2 G2].
  destruct (k a s1) as [[r s2] t2]; simpl in *.
  split; [exact H2|]. apply Forall_app. split; assumption.
Qed.

(** Reading the state: the continuation may assume that what it got is in
    [I]. *)
Lemma maintains_get {A} (k : ScribeLambda -> M A) :
  (forall s0, I s0 -> maintains I good (k s0)) -> maintains I good (bind get k).
Proof.
  intros Hk s Hs. unfold bind, get. destruct (Hk s Hs s Hs) as [H2 G2].
  destruct (k s s) as [[r s2] t2]; simpl in *. split; assumption.
Qed.

Lemma maintains_when (b : bool) (m : M unit) :
  (b = true -> maintains I good m) -> maintains I good (when b m).
Proof.
  intros Hm. destruct b; simpl; [apply Hm; reflexivity|apply maintains_ret].
Qed.

Lemma maintains_try_catch {A} (m : M A) (h : string -> M A) :
  maintains I good m -> (forall e, maintains I good (h e)) ->
  maintains I good (try_catch m h).
Proof.
  intros Hm Hh s Hs. destruct (Hm s Hs) as [H1 G1]. unfold try_catch.
  destruct (m s) as [[[a|e] s1] t1]; simpl in *; [split; assumption|].
  destruct (Hh e s1 H1) as [H2 G2].
  destruct (h e s1) as [[r s2] t2]; simpl in *.
  split; [exact H2|]. apply Forall_app. split; assumption.
Qed.

End MaintainsRules.

(** One step of a proof of [maintains]: the rule for the head construct of the
    program; a test is remembered with its outcome. *)
Ltac maintains_step :=
  cbv zeta;
  lazymatch goal with
  | |- maintains _ _ (bind get _) => apply maintains_get; intros ? ?
  | |- maintains _ _ (bind _ _) => apply maintains_bind; [|intro]
  | |- maintains _ _ (ret _) => apply maintains_ret
  | |- maintains _ _ (throw _) => apply maintains_throw
  | |- maintains _ _ (emit _) => apply maintains_emit
  | |- maintains _ _ (modify_dcm _) => apply maintains_modify_dcm
  | |- maintains _ _ (modify _) => apply maintains_modify
  | |- maintains _ _ (when _ _) => apply maintains_when; intro
  | |- maintains _ _ (liftRes _) => apply maintains_liftRes
  | |- maintains _ _ (assert _ _) => apply maintains_assert
  | |- maintains _ _ (try_catch _ _) => apply maintains_try_catch; [|intro]
  | |- maintains _ _ (if ?b then _ else _) => destruct b eqn:?
  | |- maintains _ _ (match ?x with _ => _ end) => destruct x eqn:?
  end.

Ltac maintains_auto using_lemmas :=
  repeat first [ progress using_lemmas | maintains_step ];
  try (intros; cbv beta; auto; fail).

(** *** The methods keep an invariant

    [I] is an invariant and [good] a property of the calls such that: the
    calls a method makes, other than the start of a checkpoint operation, are
    [good]; the start of an operation keeps [I] and is [good] when the
    cache-clearing flag it is given is one that [okCC] allows; and the setters
    keep [I], where a setter that the code guards by a switch of the
    configuration or by a test has to keep it only under that guard. *)
Section MaintainsMethods.

Context {PH PS : Type} `{ProtocolOpHandler PH PS}.
Local Abbreviation ScribeLambda := (ScribeLambda PH PS).
Local Abbreviation M := (M PH PS).
Local Abbreviation Env := (Env PS).
Variable cfg : Config.
Variable I : ScribeLambda -> Prop.
Variable good : Event PS -> Prop.
Variable okCC : bool -> Prop.

Hypothesis good_log : forall reason, good (WritingCheckpoint reason).
Hypothesis I_pendingCheckpointScribe :
  forall v s, I s -> I (set_pendingCheckpointScribe v s).
Hypothesis I_pendingCheckpointOffset :
  forall v s, I s -> I (set_pendingCheckpointOffset v s).
Hypothesis I_start :
  forall checkpoint queuedMessage c skip s,
    I s -> okCC c -> closed s = false -> pendingP s = None ->
    I (set_pendingP (Some (startedRequest checkpoint queuedMessage c skip s)) s)
    /\ good (startEvent checkpoint c s).

Lemma maintains_checkpointCore checkpoint queuedMessage c skip :
  okCC c -> maintains I good (checkpointCore checkpoint queuedMessage c skip).
Proof.
  intros Hc s Hs. destruct (closed s) eqn:Hcl.
  - rewrite checkpointCore_closed by exact Hcl. split; [exact Hs|constructor].
  - destruct (pendingP s) as [p|] eqn:Hp.
    + rewrite (checkpointCore_queues _ _ _ _ _ Hcl Hp). simpl.
      split; [|constructor].
      apply I_pendingCheckpointOffset, I_pendingCheckpointScribe, Hs.
    + rewrite (checkpointCore_starts _ _ _ _ _ Hcl Hp). simpl.
      destruct (I_start checkpoint queuedMessage c skip s Hs Hc Hcl Hp) as [Hi Hg].
      split; [exact Hi|]. constructor; [exact Hg|constructor].
Qed.

Hypothesis I_documentCheckpointManager :
  forall v s, I s -> I (set_documentCheckpointManager v s).
Hypothesis I_clearCache : forall s, I s -> okCC (clearCache s).

Lemma maintains_prepareCheckpoint (env : Env) message reason skip :
  (forall s, I s -> I (set_lastOffset (Some (offset message)) s)) ->
  maintains I good (prepareCheckpoint cfg env message reason skip).
Proof.
  intros Ho. unfold prepareCheckpoint.
  maintains_auto ltac:(apply maintains_checkpointCore).
Qed.

Hypothesis I_markCorrupt : forall s, I s -> I (set_isDocumentCorrupt true s).

Lemma maintains_markDocumentAsCorrupt (env : Env) message :
  (forall s, I s -> I (set_lastOffset (Some (offset message)) s)) ->
  maintains I good (markDocumentAsCorrupt cfg env message).
Proof.
  intros Ho. unfold markDocumentAsCorrupt.
  maintains_auto ltac:(apply maintains_prepareCheckpoint; exact Ho).
Qed.

Hypothesis I_pendingMessages : forall v s, I s -> I (set_pendingMessages v s).
Hypothesis I_protocolHandler : forall v s, I s -> I (set_protocolHandler v s).

Lemma maintains_processFromPending_loop (env : Env) target message pending :
  (forall s, I s -> I (set_lastOffset (Some (offset message)) s)) ->
  maintains I good (processFromPending_loop cfg env target message pending).
Proof.
  intros Ho. induction pending as [|m rest IH]; simpl; [apply maintains_ret|].
  maintains_auto ltac:(first [ apply IH
                             | apply maintains_markDocumentAsCorrupt; exact Ho ]).
Qed.

Lemma maintains_processFromPending (env : Env) target message :
  (forall s, I s -> I (set_lastOffset (Some (offset message)) s)) ->
  maintains I good (processFromPending cfg env target message).
Proof.
  intros Ho. unfold processFromPending.
  maintains_auto ltac:(apply maintains_processFromPending_loop; exact Ho).
Qed.

Lemma maintains_idleTimeCheckpoint (env : Env) initial :
  maintains I good (idleTimeCheckpoint cfg env initial).
Proof.
  unfold idleTimeCheckpoint.
  maintains_auto ltac:(apply maintains_checkpointCore).
Qed.

Hypothesis I_closed : forall s, I s -> I (set_closed true s).

Lemma maintains_close : maintains I good (close (PH := PH) (PS := PS)).
Proof. unfold close. maintains_auto idtac. Qed.

Hypothesis good_acknowledgement :
  forall queuedMessage restart, good (ContextCheckpoint queuedMessage restart).
Hypothesis I_settled : forall s, I s -> I (set_pendingP None s).
Hypothesis I_inFlight : forall p s, I s -> pendingP s = Some p -> okCC (if_clearCache p).
Hypothesis I_finished :
  forall p s0 s, I s0 -> pendingP s0 = Some p -> I s ->
    I (finished cfg (if_inserts p) s).

Lemma maintains_checkpointCore_then p failed :
  okCC (if_clearCache p) -> maintains I good (checkpointCore_then cfg p failed).
Proof.
  intros Hc. unfold checkpointCore_then.
  maintains_auto ltac:(apply maintains_checkpointCore; exact Hc).
Qed.

Lemma maintains_writeCheckpoint_finish inserts :
  (forall s, I s -> I (finished cfg inserts s)) ->
  maintains I good (writeCheckpoint_finish cfg inserts).
Proof.
  intros Hf s Hs. rewrite writeCheckpoint_finish_finished. simpl.
  split; [apply Hf, Hs|constructor].
Qed.

Lemma maintains_settle (o : Settled) : maintains I good (settle cfg o).
Proof.
  unfold settle. apply maintains_get. intros s0 H0.
  destruct (pendingP s0) as [p|] eqn:Hp; [|apply maintains_ret].
  assert (Kt : forall failed, maintains I good (checkpointCore_then cfg p failed))
    by (intro; apply maintains_checkpointCore_then, (I_inFlight p s0 H0 Hp)).
  pose proof (fun s => I_finished p s0 s H0 Hp) as Hf.
  maintains_auto ltac:(first [ apply Kt
                             | apply maintains_writeCheckpoint_finish; exact Hf ]).
Qed.

(** The branches of the dispatch on the op type. *)
Hypothesis I_lastSummarySequenceNumber :
  forall v s, I s -> I (set_lastSummarySequenceNumber v s).
Hypothesis I_validParentSummaries :
  forall v s, I s -> I (set_validParentSummaries v s).
Hypothesis good_writeServiceSummary :
  serviceSummaryEnabled cfg = true ->
  forall op head checkpoint pending,
    good (WriteServiceSummary op head checkpoint pending).
Hypothesis good_serviceUpdateDSN :
  serviceSummaryEnabled cfg = true ->
  forall durableSequenceNumber clearCache,
    good (SendToDeli
            (ControlOp (mkUpdateDSN durableSequenceNumber false clearCache)
                       (enableTraces cfg))).
Hypothesis I_globalCheckpointOnly : forall s, I s -> I (set_globalCheckpointOnly true s).
Hypothesis I_clearCacheAfterServiceSummary :
  clearCacheAfterServiceSummary cfg = true ->
  forall s, I s -> I (set_clearCache true s).

Lemma maintains_handleNoClient (env : Env) op :
  maintains I good (handleNoClient cfg env op).
Proof.
  unfold handleNoClient, sendSummaryConfirmationMessage, sendToDeli,
    updateLastSummarySequenceNumber, updateValidParentSummaries.
  maintains_auto idtac;
    match goal with
    | E : _ = true |- good _ =>
        first [apply good_writeServiceSummary | apply good_serviceUpdateDSN];
        exact E
    end.
Qed.

Hypothesis good_writeClientSummary :
  forall op head checkpoint pending isEphemeral,
    good (WriteClientSummary op head checkpoint pending isEphemeral).
Hypothesis good_sendToDeli : forall op, good (SendToDeli op).
Hypothesis I_protocolHead : forall v s, I s -> I (set_protocolHead v s).
Hypothesis I_lastClientSummaryHead :
  forall v s, I s -> I (set_lastClientSummaryHead v s).

Lemma maintains_handleSummarize (env : Env) message op :
  (forall s, I s -> I (set_lastOffset (Some (offset message)) s)) ->
  maintains I good (handleSummarize cfg env message op).
Proof.
  intros Ho.
  unfold handleSummarize, sendSummaryAck, sendSummaryNack,
    sendSummaryConfirmationMessage, sendToDeli, updateProtocolHead,
    updateLastSummarySequenceNumber, revertProtocolState.
  maintains_auto ltac:(apply maintains_processFromPending; exact Ho).
Qed.

Lemma maintains_handleSummaryAck op : maintains I good (handleSummaryAck cfg op).
Proof.
  unfold handleSummaryAck, updateProtocolHead, updateLastSummarySequenceNumber.
  maintains_auto idtac.
Qed.

(** The loop of [handler], for branches of the dispatch that keep [I]. *)
Hypothesis I_localCheckpointEnabled :
  localCheckpointEnabled cfg = true ->
  forall s, I s -> I (set_globalCheckpointOnly false s).

Hypothesis good_readMessages : forall from to, good (ReadMessages from to).
Hypothesis I_push :
  enablePendingCheckpointMessages cfg = true ->
  forall op s, I s ->
    I (set_pendingCheckpointMessages (pendingCheckpointMessages s ++ [op]) s).
Hypothesis I_sequenceNumber :
  forall v s0 s, I s0 -> (v <=? this_sequenceNumber s0) = false -> I s ->
    I (set_this_sequenceNumber v s).
Hypothesis I_minSequenceNumber : forall v s, I s -> I (set_minSequenceNumber v s).
Hypothesis I_resetClearCache : forall s, I s -> I (set_clearCache false s).

Section Dispatch.

Variable env : Env.
Variable message : IQueuedMessage.
Hypothesis I_offset : forall s, I s -> I (set_lastOffset (Some (offset message)) s).
Hypothesis K_summarize : forall op, maintains I good (handleSummarize cfg env message op).
Hypothesis K_summaryAck : forall op, maintains I good (handleSummaryAck cfg op).

Lemma maintains_dispatch_with op : maintains I good (dispatch cfg env message op).
Proof.
  unfold dispatch.
  maintains_auto ltac:(first [ apply K_summarize | apply K_summaryAck
                             | apply maintains_handleNoClient ]).
  intros s Hs. apply I_localCheckpointEnabled; [|exact Hs].
  match goal with
  | E : andb _ (localCheckpointEnabled cfg) = true |- _ =>
      exact (proj2 (proj1 (andb_true_iff _ _) E))
  end.
Qed.

Lemma maintains_processOp_with baseMessage :
  maintains I good (processOp cfg env message baseMessage).
Proof.
  unfold processOp, admitOp, fetchMissing.
  maintains_auto ltac:(first [ apply maintains_processFromPending; exact I_offset
                             | apply maintains_dispatch_with ]).
  intros s Hs.
  match goal with
  | E : (?v <=? this_sequenceNumber ?s0) = false |- _ =>
      apply (I_sequenceNumber v s0); assumption
  end.
Qed.

Lemma maintains_processBoxcar_with contents :
  maintains I good (processBoxcar cfg env message contents).
Proof.
  induction contents as [|b rest IH]; simpl; [apply maintains_ret|].
  maintains_auto ltac:(first [apply IH | apply maintains_processOp_with]).
Qed.

Lemma maintains_endOfBatch :
  maintains I good (endOfBatch cfg env message).
Proof.
  unfold endOfBatch.
  maintains_auto ltac:(apply maintains_prepareCheckpoint; exact I_offset).
Qed.

End Dispatch.

(** [handler] after the duplicate filter. *)
Lemma maintains_batch_with (env : Env) message :
  (forall s, I s -> I (set_lastOffset (Some (offset message)) s)) ->
  (forall op, maintains I good (handleSummarize cfg env message op)) ->
  (forall op, maintains I good (handleSummaryAck cfg op)) ->
  maintains I good
    (bind (modify (set_lastOffset (Some (offset message))))
       (fun _ =>
          bind (processBoxcar cfg env message (value message))
               (fun _ => endOfBatch cfg env message))).
Proof.
  intros Ho Ks Ka.
  maintains_auto ltac:(first [ apply maintains_processBoxcar_with; assumption
                             | apply maintains_endOfBatch; assumption ]).
Qed.

Hypothesis I_next :
  forall m s0, I s0 -> isReprocess m s0 = false ->
    forall s, I s -> I (set_lastOffset (Some (offset m)) s).

Lemma maintains_handler_with (env : Env) message :
  ((forall s, I s -> I (set_lastOffset (Some (offset message)) s)) ->
   forall op, maintains I good (handleSummarize cfg env message op)) ->
  (forall op, maintains I good (handleSummaryAck cfg op)) ->
  maintains I good (handler cfg env message).
Proof.
  intros Ks Ka. unfold handler. apply maintains_get. intros s0 H0.
  destruct (isReprocess message s0) eqn:Er.
  - unfold reprocess. maintains_auto idtac.
  - pose proof (I_next message s0 H0 Er) as Ho.
    apply maintains_batch_with; [exact Ho|exact (Ks Ho)|exact Ka].
Qed.

Lemma maintains_handler (env : Env) message :
  maintains I good (handler cfg env message).
Proof.
  apply maintains_handler_with.
  - intros Ho op. apply maintains_handleSummarize. exact Ho.
  - apply maintains_handleSummaryAck.
Qed.

Lemma maintains_act_with (a : Action PS) :
  (forall env message,
     (forall s, I s -> I (set_lastOffset (Some (offset message)) s)) ->
     forall op, maintains I good (handleSummarize cfg env message op)) ->
  (forall op, maintains I good (handleSummaryAck cfg op)) ->
  maintains I good (act cfg a).
Proof.
  intros Ks Ka. destruct a as [env message|o|env initial|]; simpl.
  - apply maintains_handler_with; [apply Ks|exact Ka].
  - apply maintains_settle.
  - apply maintains_idleTimeCheckpoint.
  - apply maintains_close.
Qed.

Lemma maintains_act (a : Action PS) : maintains I good (act cfg a).
Proof.
  apply maintains_act_with.
  - intros env message Ho op. apply maintains_handleSummarize. exact Ho.
  - apply maintains_handleSummaryAck.
Qed.

End MaintainsMethods.

(** An invariant of every action is an invariant of every run. *)
Section MaintainsRuns.

Context {PH PS : Type} `{ProtocolOpHandler PH PS}.
Local Abbreviation ScribeLambda := (ScribeLambda PH PS).
Variable cfg : Config.
Variable I : ScribeLambda -> Prop.
Variable good : Event PS -> Prop.
Hypothesis K_act : forall a : Action PS, maintains I good (act cfg a).

Lemma maintains_after (a : Action PS) (s : ScribeLambda) :
  I s -> I (after cfg a s) /\ Forall good (snd (act cfg a s)).
Proof. intros Hs. exact (K_act a s Hs). Qed.

Lemma maintains_run (actions : list (Action PS)) :
  forall s, I s ->
    I (fst (run cfg actions s)) /\ Forall good (snd (run cfg actions s)).
Proof.
  induction actions as [|a rest IH]; intros s Hs; simpl.
  - split; [exact Hs|constructor].
  - destruct (maintains_after a s Hs) as [H1 G1].
    destruct (IH (after cfg a s) H1) as [H2 G2].
    split; [exact H2|]. apply Forall_app. split; assumption.
Qed.

Lemma maintains_reachable (s0 s : ScribeLambda) :
  I s0 -> reachableFrom cfg s0 s -> I s.
Proof.
  intros H0 Hr. induction Hr as [|s1 a Hr IH]; [exact H0|].
  exact (proj1 (maintains_after a s1 IH)).
Qed.

End MaintainsRuns.

(** Side conditions: a setter that does not write what the invariant reads. *)
Ltac invariant_side :=
  intros; try exact Logic.I;
  try (unfold finished; destruct (peekBack _));
  simpl in *; try tauto; try congruence; auto.

Lemma Forall_anything {A} (l : list A) : Forall (fun _ => True) l.
Proof. apply Forall_forall. intros; exact Logic.I. Qed.

(** ** A closed lambda *)

Section ClosedLambda.

Context {PH PS : Type} `{ProtocolOpHandler PH PS}.
Local Abbreviation ScribeLambda := (ScribeLambda PH PS).
Variable cfg : Config.

Lemma starts_none (t : list (Event PS)) :
  Forall (fun e => isStart e = false) t -> starts t = 0%nat.
Proof.
  unfold starts. induction 1 as [|e t He Ht IH]; simpl; [reflexivity|].
  rewrite He. exact IH.
Qed.

Lemma closed_act (a : Action PS) :
  maintains (fun s : ScribeLambda => closed s = true)
            (fun e => isStart e = false) (act cfg a).
Proof.
  apply (maintains_act cfg _ _ (fun _ => True)); invariant_side.
Qed.

(** X1.  Once [close] has been called the lambda stays closed, and nothing it
    does afterwards (batches handled, checkpoint operations settling, the idle
    timer firing) starts a checkpoint write or a cache-clearing delete. *)
Theorem closed_lambda_starts_no_checkpoint (s : ScribeLambda)
    (actions : list (Action PS)) :
  closed s = true ->
  closed (fst (run cfg actions s)) = true
  /\ starts (snd (run cfg actions s)) = 0%nat.
Proof.
  intros Hc.
  destruct (maintains_run cfg _ _ closed_act actions s Hc) as [H1 G1].
  split; [exact H1|apply starts_none, G1].
Qed.

End ClosedLambda.

Lemma closed_lambda_starts_no_checkpoint_witness :
  closed (after Sample.cfgEveryMessage Close Sample.soundEveryMessage) = true
  /\ starts
       (snd (run Sample.cfgEveryMessage
               [Handle (Sample.env true) Sample.batch5; Settle Fulfilled;
                IdleTimeout (Sample.env true) (Some Sample.batch5)]
               (after Sample.cfgEveryMessage Close Sample.soundEveryMessage)))
     = 0%nat.
Proof.
  split; [reflexivity|].
  apply (closed_lambda_starts_no_checkpoint Sample.cfgEveryMessage).
  reflexivity.
Defined.

(** ** Switches of the configuration *)

Section Switches.

Context {PH PS : Type} `{ProtocolOpHandler PH PS}.
Local Abbreviation ScribeLambda := (ScribeLambda PH PS).
Variable cfg : Config.

Lemma global_only_act (a : Action PS) :
  localCheckpointEnabled cfg = false ->
  maintains (fun s : ScribeLambda => globalCheckpointOnly s = true)
            globalOnlyWrite (act cfg a).
Proof.
  intros Hl. apply (maintains_act cfg _ _ (fun _ => True)); invariant_side.
  - unfold startEvent. destruct c; simpl; auto.
Qed.

(** X2.  Without local checkpoints ([localCheckpointEnabled] false) the lambda
    is constructed with [globalCheckpointOnly] set and nothing clears it: every
    checkpoint it hands to the checkpoint manager is marked global-only. *)
Theorem checkpoints_are_global_without_local_checkpoints
    (constructedAt : Z) (scribe : IScribe.t PS) (ph : PH) (head : Z)
    (messages : list ISequencedDocumentMessage) (actions : list (Action PS)) :
  localCheckpointEnabled cfg = false ->
  globalCheckpointOnly
    (fst (run cfg actions (construct cfg constructedAt scribe ph head messages)))
  = true
  /\ (forall checkpoint h inserts noClients globalOnly corrupt,
        In (CheckpointWrite checkpoint h inserts noClients globalOnly corrupt)
           (snd (run cfg actions
                   (construct cfg constructedAt scribe ph head messages))) ->
        globalOnly = true).
Proof.
  intros Hl.
  destruct (maintains_run cfg _ _ (fun a => global_only_act a Hl) actions
              (construct cfg constructedAt scribe ph head messages))
    as [H1 G1].
  { simpl. rewrite Hl. reflexivity. }
  split; [exact H1|].
  intros checkpoint h inserts noClients globalOnly corrupt Hin.
  rewrite Forall_forall in G1. exact (G1 _ Hin).
Qed.

Lemma no_delete_act (a : Action PS) :
  clearCacheAfterServiceSummary cfg = false ->
  maintains (fun s : ScribeLambda =>
               clearCache s = false
               /\ forall p, pendingP s = Some p -> if_clearCache p = false)
            notDelete (act cfg a).
Proof.
  intros Hl. apply (maintains_act cfg _ _ (fun c => c = false)); invariant_side.
  - subst c. split; [split; [tauto|]|exact Logic.I].
    intros p Hp. inversion Hp. reflexivity.
  - split; [tauto|discriminate].
  - match goal with Hi : _ /\ _ |- _ => exact (proj2 Hi _ ltac:(eassumption)) end.
Qed.

(** X3.  Unless [clearCacheAfterServiceSummary] is set, the lambda never asks
    the checkpoint manager to delete the cached checkpoint: [clearCache] stays
    false and every checkpoint operation is a write. *)
Theorem cache_is_never_cleared_unless_configured
    (constructedAt : Z) (scribe : IScribe.t PS) (ph : PH) (head : Z)
    (messages : list ISequencedDocumentMessage) (actions : list (Action PS)) :
  clearCacheAfterServiceSummary cfg = false ->
  clearCache
    (fst (run cfg actions (construct cfg constructedAt scribe ph head messages)))
  = false
  /\ (forall h deferred,
        ~ In (CheckpointDelete h deferred)
             (snd (run cfg actions
                     (construct cfg constructedAt scribe ph head messages)))).
Proof.
  intros Hl.
  destruct (maintains_run cfg _ _ (fun a => no_delete_act a Hl) actions
              (construct cfg constructedAt scribe ph head messages))
    as [H1 G1].
  { simpl. split; [reflexivity|discriminate]. }
  split; [exact (proj1 H1)|].
  intros h deferred Hin. rewrite Forall_forall in G1. exact (G1 _ Hin).
Qed.

Lemma no_inserts_act (a : Action PS) :
  enablePendingCheckpointMessages cfg = false ->
  maintains (fun s : ScribeLambda =>
               pendingCheckpointMessages s = []
               /\ forall p, pendingP s = Some p -> if_inserts p = [])
            (fun e => handedOver e = []) (act cfg a).
Proof.
  intros Hl. apply (maintains_act cfg _ _ (fun _ => True)).
  all: try (intros; simpl in *; try tauto; try congruence; auto; fail).
  - intros checkpoint queuedMessage c skip s [Hs Hq] _ _ Hp.
    assert (Hi : insertsOf s = []) by (unfold insertsOf; rewrite Hs; reflexivity).
    split; [split; [exact Hs|]|].
    + simpl. intros p E. inversion E. simpl. rewrite Hi. destruct c; reflexivity.
    + unfold startEvent. destruct c; simpl; [reflexivity|exact Hi].
  - intros s [Hs Hq]. split; [exact Hs|discriminate].
  - intros p s0 s [_ Hq] Hp Hs. rewrite (Hq p Hp). exact Hs.
Qed.

(** X4.  With [enablePendingCheckpointMessages] off, the buffer of pending
    checkpoint messages stays empty and no checkpoint write hands ops to the
    checkpoint manager for insertion. *)
Theorem no_pending_checkpoint_messages_unless_enabled
    (constructedAt : Z) (scribe : IScribe.t PS) (ph : PH) (head : Z)
    (messages : list ISequencedDocumentMessage) (actions : list (Action PS)) :
  enablePendingCheckpointMessages cfg = false ->
  pendingCheckpointMessages
    (fst (run cfg actions (construct cfg constructedAt scribe ph head messages)))
  = []
  /\ (forall e,
        In e (snd (run cfg actions
                     (construct cfg constructedAt scribe ph head messages))) ->
        handedOver e = []).
Proof.
  intros Hl.
  destruct (maintains_run cfg _ _ (fun a => no_inserts_act a Hl) actions
              (construct cfg constructedAt scribe ph head messages))
    as [H1 G1].
  { simpl. split; [reflexivity|discriminate]. }
  split; [exact (proj1 H1)|].
  intros e Hin. rewrite Forall_forall in G1. exact (G1 _ Hin).
Qed.

End Switches.

(** A lambda without local checkpoints that handles a batch. *)
Lemma checkpoints_are_global_without_local_checkpoints_witness :
  localCheckpointEnabled (Sample.configure false true false false false) = false
  /\ globalCheckpointOnly
       (fst (run (Sample.configure false true false false false)
               [Handle (Sample.env true)
                  (Sample.batch 5 [Sample.op 11 10 10 ClientJoin]);
                Settle Fulfilled]
               (construct (Sample.configure false true false false false) 0
                  (Sample.scribe 10 10 4 0 None false) (mkCounters 10 10) 0 [])))
     = true.
Proof.
  split; [reflexivity|].
  apply (checkpoints_are_global_without_local_checkpoints
           (Sample.configure false true false false false)).
  reflexivity.
Defined.

(** A service summary followed by the checkpoint of its batch: a write. *)
Lemma cache_is_never_cleared_unless_configured_witness :
  clearCacheAfterServiceSummary Sample.cfg = false
  /\ forall h deferred,
       ~ In (CheckpointDelete h deferred)
            (snd (run Sample.cfg
                    [Handle (Sample.env true) Sample.batchNoClient; Settle Fulfilled]
                    (construct Sample.cfg 0 (Sample.scribe 10 10 4 0 None false)
                       (mkCounters 10 10) 0 []))).
Proof.
  split; [reflexivity|].
  apply (cache_is_never_cleared_unless_configured Sample.cfg).
  reflexivity.
Defined.

Lemma no_pending_checkpoint_messages_unless_enabled_witness :
  enablePendingCheckpointMessages (Sample.configure true false false false false)
  = false
  /\ pendingCheckpointMessages
       (fst (run (Sample.configure true false false false false)
               [Handle (Sample.env true) Sample.batch5; Settle Fulfilled]
               (construct (Sample.configure true false false false false) 0
                  (Sample.scribe 10 10 4 0 None false) (mkCounters 10 10) 0 [])))
     = [].
Proof.
  split; [reflexivity|].
  apply (no_pending_checkpoint_messages_unless_enabled
           (Sample.configure true false false false false)).
  reflexivity.
Defined.

(** ** What only goes up *)

Section Monotone.

Context {PH PS : Type} `{ProtocolOpHandler PH PS}.
Local Abbreviation ScribeLambda := (ScribeLambda PH PS).
Local Abbreviation Env := (Env PS).
Variable cfg : Config.

Lemma offset_act (lo : Z) (a : Action PS) :
  maintains (fun s : ScribeLambda =>
               exists lo', lastOffset s = Some lo' /\ lo <= lo')
            (fun _ => True) (act cfg a).
Proof.
  apply (maintains_act cfg _ _ (fun _ => True)); invariant_side.
  match goal with
  | E : isReprocess _ _ = false, Hi : exists _, lastOffset ?s0 = _ /\ _ |- _ =>
      destruct Hi as (lo0 & E0 & Hle); unfold isReprocess in E; rewrite E0 in E;
      apply Z.leb_gt in E
  end.
  eexists. split; [reflexivity|lia].
Qed.

(** X5.  [lastOffset] never goes back: whatever the lambda does, the offset it
    has recorded stays at or above an offset it had recorded before. *)
Theorem last_offset_never_decreases (s0 s : ScribeLambda) (lo : Z) :
  reachableFrom cfg s0 s ->
  lastOffset s0 = Some lo ->
  exists lo', lastOffset s = Some lo' /\ lo <= lo'.
Proof.
  intros Hr H0.
  apply (maintains_reachable cfg _ _ (offset_act lo) s0 s); [|exact Hr].
  exists lo. split; [exact H0|lia].
Qed.

Lemma handler_lastOffset (env : Env) (message : IQueuedMessage) (s : ScribeLambda) :
  isReprocess message s = false ->
  lastOffset (after cfg (Handle env message) s) = Some (offset message).
Proof.
  intros Er. unfold after. simpl. unfold handler.
  unfold bind at 1, get at 1. rewrite Er.
  unfold bind at 1, modify at 1.
  pose (I0 := fun s' : ScribeLambda => lastOffset s' = Some (offset message)).
  assert (Ho : forall s', I0 s' -> I0 (set_lastOffset (Some (offset message)) s'))
    by (intros; reflexivity).
  assert (K : maintains I0 (fun _ => True)
                (bind (processBoxcar cfg env message (value message))
                      (fun _ => endOfBatch cfg env message))).
  { apply maintains_bind; [|intros _].
    - apply (maintains_processBoxcar_with cfg I0 _ (fun _ => True));
        try (unfold I0; invariant_side; fail).
      + intros op.
        apply (maintains_handleSummarize cfg I0 _ (fun _ => True));
          unfold I0; invariant_side.
      + intros op. apply maintains_handleSummaryAck; unfold I0; invariant_side.
    - apply (maintains_endOfBatch cfg I0 _ (fun _ => True));
        unfold I0; invariant_side. }
  specialize (K (set_lastOffset (Some (offset message)) s) eq_refl).
  destruct K as [K _].
  match goal with
  | K : I0 (snd (fst ?m)) |- _ => destruct m as [[r s'] t]
  end.
  exact K.
Qed.

(** X6.  A batch beyond [lastOffset] leaves its offset in [lastOffset], whether
    [handler] returns or throws. *)
Theorem handler_records_offset (env : Env) (message : IQueuedMessage)
    (s : ScribeLambda) :
  isReprocess message s = false ->
  forall r s' t,
    handler cfg env message s = (r, s', t) ->
    lastOffset s' = Some (offset message).
Proof.
  intros Er r s' t E.
  pose proof (handler_lastOffset env message s Er) as Ho.
  unfold after in Ho. simpl in Ho. rewrite E in Ho. exact Ho.
Qed.

Lemma sequence_act (n : Z) (a : Action PS) :
  maintains (fun s : ScribeLambda => n <= this_sequenceNumber s)
            (fun _ => True) (act cfg a).
Proof.
  apply (maintains_act cfg _ _ (fun _ => True)); invariant_side.
  match goal with
  | E : (_ <=? _) = false |- _ => apply Z.leb_gt in E; lia
  end.
Qed.

(** X7.  The sequence number of the lambda never goes back. *)
Theorem sequence_number_never_decreases (s0 s : ScribeLambda) :
  reachableFrom cfg s0 s ->
  this_sequenceNumber s0 <= this_sequenceNumber s.
Proof.
  intros Hr.
  apply (maintains_reachable cfg _ _ (sequence_act (this_sequenceNumber s0)) s0 s);
    [lia|exact Hr].
Qed.

Lemma head_handleSummarize (n : Z) (env : Env) message op :
  isExternal cfg = false ->
  (forall s : ScribeLambda,
     n <= protocolHead s ->
     n <= protocolHead (set_lastOffset (Some (offset message)) s)) ->
  maintains (fun s : ScribeLambda => n <= protocolHead s) (fun _ => True)
            (handleSummarize cfg env message op).
Proof.
  intros Hx Ho. unfold handleSummarize. apply maintains_get. intros s0 H0.
  destruct (negb (isExternal cfg)
            || (ph_sequenceNumber (protocolHandler s0) <=? referenceSequenceNumber op));
    [|apply maintains_ret].
  cbv zeta. apply maintains_bind; [|intros _].
  - apply (maintains_processFromPending cfg _ _ (fun _ => True)); invariant_side.
  - intros s Hs. split; [|apply Forall_anything].
    unfold bind at 1, get at 1.
    destruct (Z.ltb_spec (protocolHead s) (ph_sequenceNumber (protocolHandler s)))
      as [Hlt|Hge]; [|exact Hs].
    unfold sendSummaryAck, sendSummaryNack, sendSummaryConfirmationMessage,
      sendToDeli, updateProtocolHead, updateLastSummarySequenceNumber,
      revertProtocolState.
    monad_unfold. rewrite Hx. simpl.
    destruct (writeClientSummary env op (lastClientSummaryHead s)
                (generateScribeCheckpoint env (lastOffset s)
                   (scrubUserDataInSummaries cfg) s)
                (pendingCheckpointMessages s) (isEphemeralContainer cfg))
      as [[ack|nack]|e]; simpl;
      repeat match goal with
             | |- context [match send env ?o with _ => _ end] =>
                 destruct (send env o) as [[]|?]; simpl
             | |- context [if ignoreStorageException cfg then _ else _] =>
                 destruct (ignoreStorageException cfg); simpl
             end; lia.
Qed.

Lemma head_act (n : Z) (a : Action PS) :
  isExternal cfg = false ->
  maintains (fun s : ScribeLambda => n <= protocolHead s) (fun _ => True)
            (act cfg a).
Proof.
  intros Hx. apply (maintains_act_with cfg _ _ (fun _ => True)); invariant_side.
  - apply head_handleSummarize; assumption.
  - unfold handleSummaryAck. rewrite Hx. simpl. maintains_auto idtac.
Qed.

(** X8.  With a summary writer that is not external, [protocolHead] never goes
    back: it moves only when a client summary succeeds, and then forward. *)
Theorem protocol_head_never_decreases (s0 s : ScribeLambda) :
  isExternal cfg = false ->
  reachableFrom cfg s0 s ->
  protocolHead s0 <= protocolHead s.
Proof.
  intros Hx Hr.
  apply (maintains_reachable cfg _ _ (fun a => head_act (protocolHead s0) a Hx) s0 s);
    [lia|exact Hr].
Qed.

End Monotone.

Lemma last_offset_never_decreases_witness :
  lastOffset (Sample.lambda Sample.cfg 10 10 4 0 None false) = Some 4
  /\ exists lo',
       lastOffset
         (after Sample.cfg (Handle (Sample.env true) Sample.batch5)
            (Sample.lambda Sample.cfg 10 10 4 0 None false)) = Some lo'
       /\ 4 <= lo'.
Proof.
  split; [reflexivity|].
  apply (last_offset_never_decreases Sample.cfg
           (Sample.lambda Sample.cfg 10 10 4 0 None false)).
  - apply reach_step, reach_here.
  - reflexivity.
Defined.

(** A batch on which [handler] throws: the protocol handler refuses op 10. *)
Lemma handler_records_offset_witness :
  isReprocess (Sample.batch 6 [Sample.op 11 11 10 Operation]) Sample.behind = false
  /\ exists s' t,
       handler Sample.cfg (Sample.env true)
         (Sample.batch 6 [Sample.op 11 11 10 Operation]) Sample.behind
       = (Throw "Protocol error", s', t)
       /\ lastOffset s' = Some 6.
Proof.
  split; [reflexivity|].
  destruct (handler Sample.cfg (Sample.env true)
              (Sample.batch 6 [Sample.op 11 11 10 Operation]) Sample.behind)
    as [[r s'] t] eqn:E.
  exists s', t. split.
  - apply (f_equal (fun x => fst (fst x))) in E. simpl in E. rewrite <- E.
    vm_compute. reflexivity.
  - exact (handler_records_offset Sample.cfg (Sample.env true)
             (Sample.batch 6 [Sample.op 11 11 10 Operation]) Sample.behind
             eq_refl r s' t E).
Defined.

Lemma sequence_number_never_decreases_witness :
  this_sequenceNumber (Sample.lambda Sample.cfg 10 10 4 0 None false)
  <= this_sequenceNumber
       (after Sample.cfg (Handle (Sample.env true) Sample.batch5)
          (Sample.lambda Sample.cfg 10 10 4 0 None false)).
Proof.
  apply (sequence_number_never_decreases Sample.cfg).
  apply reach_step, reach_here.
Defined.

Lemma protocol_head_never_decreases_witness :
  isExternal Sample.cfg = false
  /\ protocolHead (Sample.lambda Sample.cfg 10 10 4 0 None false)
     <= protocolHead
          (after Sample.cfg
             (Handle (Sample.env true) (Sample.batch 5 [Sample.summarize11]))
             (Sample.lambda Sample.cfg 10 10 4 0 None false)).
Proof.
  split; [reflexivity|].
  apply (protocol_head_never_decreases Sample.cfg); [reflexivity|].
  apply reach_step, reach_here.
Defined.

(** ** Batches and ops that are skipped *)

Section Skipped.

Context {PH PS : Type} `{ProtocolOpHandler PH PS}.
Local Abbreviation ScribeLambda := (ScribeLambda PH PS).
Local Abbreviation Env := (Env PS).
Variable cfg : Config.

Lemma handled_offset (env : Env) (message : IQueuedMessage) (s : ScribeLambda) :
  isReprocess message (after cfg (Handle env message) s) = true.
Proof.
  destruct (isReprocess message s) eqn:Er.
  - unfold after. simpl. unfold handler, bind at 1, get at 1. rewrite Er.
    unfold reprocess. monad_unfold.
    destruct (kafkaCheckpointOnReprocessingOp cfg); simpl; exact Er.
  - unfold isReprocess.
    rewrite (handler_lastOffset cfg env message s Er).
    apply Z.leb_refl.
Qed.

(** X9.  A batch is handled once: after [handler] has been given a batch,
    whether it returned or threw, the same batch given again is taken for a
    duplicate; it is only noted as the most recent message and, when
    [kafkaCheckpointOnReprocessingOp] is set, acknowledged upstream. *)
Theorem redelivered_batch_is_skipped (env env' : Env) (message : IQueuedMessage)
    (s : ScribeLambda) :
  handler cfg env' message (after cfg (Handle env message) s)
  = (Ok tt,
     set_documentCheckpointManager
       (updateCheckpointMessages message
          (documentCheckpointManager (after cfg (Handle env message) s)))
       (after cfg (Handle env message) s),
     if kafkaCheckpointOnReprocessingOp cfg
     then [ContextCheckpoint message (restartOnCheckpointFailure cfg)]
     else []).
Proof.
  unfold handler at 1. unfold bind at 1, get at 1.
  rewrite handled_offset. unfold reprocess. monad_unfold.
  destruct (kafkaCheckpointOnReprocessingOp cfg); reflexivity.
Qed.

Lemma skipped_processOp (env : Env) message baseMessage (s : ScribeLambda) :
  skipped s baseMessage ->
  processOp cfg env message baseMessage s = (Ok tt, s, []).
Proof.
  destruct baseMessage as [op|]; [|reflexivity].
  intros [Hs|Hs]; unfold processOp, bind at 1, get at 1.
  - apply Z.leb_le in Hs. rewrite Hs. reflexivity.
  - destruct (sequenceNumber op <=? this_sequenceNumber s); [reflexivity|].
    cbv zeta. apply Z.leb_le in Hs. rewrite Hs. reflexivity.
Qed.

(** X10.  Ops that were already taken in are skipped, whatever their type: a
    batch whose ops are all at or below the current sequence number, or at or
    below the last op known to the protocol handler, changes nothing and calls
    no collaborator in the loop of [handler]; all that [handler] does with such
    a batch is to record its offset and to decide on a checkpoint. *)
Theorem stale_ops_are_skipped (env : Env) (message : IQueuedMessage)
    (s : ScribeLambda) :
  Forall (skipped s) (value message) ->
  processBoxcar cfg env message (value message) s = (Ok tt, s, [])
  /\ (isReprocess message s = false ->
      handler cfg env message s
      = endOfBatch cfg env message (set_lastOffset (Some (offset message)) s)).
Proof.
  intros Hk.
  assert (Hb : forall s' : ScribeLambda,
             Forall (skipped s') (value message) ->
             processBoxcar cfg env message (value message) s' = (Ok tt, s', [])).
  { clear Hk. intros s'. induction (value message) as [|b rest IH]; intros Hk;
      [reflexivity|].
    inversion Hk as [|b' rest' Hb Hrest]; subst. simpl. unfold bind.
    rewrite (skipped_processOp env message b s' Hb), (IH Hrest). reflexivity. }
  split; [apply Hb, Hk|].
  intros Er. unfold handler, bind at 1, get at 1. rewrite Er.
  unfold bind at 1, modify at 1. unfold bind at 1.
  rewrite (Hb (set_lastOffset (Some (offset message)) s)) by exact Hk.
  simpl.
  destruct (endOfBatch cfg env message (set_lastOffset (Some (offset message)) s))
    as [[r s'] t].
  reflexivity.
Qed.

End Skipped.

(** A replayed Summarize op: nothing is written, nothing is sent. *)
Lemma stale_ops_are_skipped_witness :
  processBoxcar Sample.cfg (Sample.env true)
    (Sample.batch 12 [Sample.op 9 9 8 Summarize; Sample.op 10 10 9 NoClient])
    (value (Sample.batch 12 [Sample.op 9 9 8 Summarize; Sample.op 10 10 9 NoClient]))
    (Sample.lambda Sample.cfg 10 10 4 0 None false)
  = (Ok tt, Sample.lambda Sample.cfg 10 10 4 0 None false, []).
Proof.
  apply (stale_ops_are_skipped Sample.cfg (Sample.env true)
           (Sample.batch 12 [Sample.op 9 9 8 Summarize; Sample.op 10 10 9 NoClient])
           (Sample.lambda Sample.cfg 10 10 4 0 None false)).
  repeat constructor; simpl; lia.
Defined.

(** ** What does not touch the document *)

Section Bystanders.

Context {PH PS : Type} `{ProtocolOpHandler PH PS}.
Local Abbreviation ScribeLambda := (ScribeLambda PH PS).
Local Abbreviation M := (M PH PS).
Local Abbreviation Env := (Env PS).
Variable cfg : Config.

Lemma same_document_refl (s : ScribeLambda) : same_document s s.
Proof. unfold same_document. tauto. Qed.

Lemma nothrow_checkpointCore (checkpoint : IScribe.t PS) queuedMessage c skip :
  nothrow (checkpointCore (PH := PH) checkpoint queuedMessage c skip).
Proof.
  intros s.
  destruct (checkpointCore_returns checkpoint queuedMessage c skip s)
    as (s' & t & E & _).
  exists tt, s', t. exact E.
Qed.

Lemma nothrow_settle (o : Settled) : nothrow (settle (PH := PH) (PS := PS) cfg o).
Proof.
  unfold settle, checkpointCore_then, writeCheckpoint_finish.
  repeat first [ apply nothrow_checkpointCore | nothrow_step ].
Qed.

Lemma nothrow_idleTimeCheckpoint (env : Env) initial :
  nothrow (idleTimeCheckpoint cfg env initial).
Proof.
  unfold idleTimeCheckpoint.
  repeat first [ apply nothrow_checkpointCore | nothrow_step ].
Qed.

Lemma quiet_settle (o : Settled) : quiet (settle (PH := PH) (PS := PS) cfg o).
Proof.
  unfold settle, checkpointCore_then, writeCheckpoint_finish.
  repeat first [ apply quiet_checkpointCore | quiet_step ].
Qed.

Lemma quiet_idleTimeCheckpoint (env : Env) initial :
  quiet (idleTimeCheckpoint cfg env initial).
Proof.
  unfold idleTimeCheckpoint.
  repeat first [ apply quiet_checkpointCore | quiet_step ].
Qed.

(** X11.  Only [handler] touches the document. A checkpoint operation that
    settles, the idle timer and [close] return without throwing, send nothing
    to the producer and leave the offset, the sequence numbers, the protocol
    handler and head, the pending ops, the summary state, the corruption flag
    and the book-keeping of the checkpoint manager as they were. *)
Theorem only_handler_touches_the_document (a : Action PS) (s : ScribeLambda) :
  (forall env message, a <> Handle env message) ->
  fst (fst (act cfg a s)) = Ok tt
  /\ same_document s (after cfg a s)
  /\ sentOps (snd (act cfg a s)) = [].
Proof.
  intros Ha.
  assert (Hn : nothrow (act cfg a)).
  { destruct a as [env message|o|env initial|]; simpl.
    - exfalso. exact (Ha env message eq_refl).
    - apply nothrow_settle.
    - apply nothrow_idleTimeCheckpoint.
    - unfold close. apply nothrow_modify. }
  assert (Hq : quiet (act cfg a)).
  { destruct a as [env message|o|env initial|]; simpl.
    - exfalso. exact (Ha env message eq_refl).
    - apply quiet_settle.
    - apply quiet_idleTimeCheckpoint.
    - unfold close. apply quiet_modify. }
  assert (Hm : maintains (same_document s) (fun _ => True) (act cfg a)).
  { destruct a as [env message|o|env initial|]; simpl.
    - exfalso. exact (Ha env message eq_refl).
    - apply (maintains_settle cfg _ _ (fun _ => True));
        unfold same_document; invariant_side.
    - apply (maintains_idleTimeCheckpoint cfg _ _ (fun _ => True));
        unfold same_document; invariant_side.
    - apply maintains_close; unfold same_document; invariant_side. }
  destruct (Hn s) as ([] & s' & t & E).
  split; [rewrite E; reflexivity|].
  split; [exact (proj1 (Hm s (same_document_refl s)))|apply Hq].
Qed.

End Bystanders.

(** The write of batch 5 settles. *)
Lemma only_handler_touches_the_document_witness :
  same_document
    (after Sample.cfgEveryMessage (Handle (Sample.env true) Sample.batch5)
       Sample.soundEveryMessage)
    (after Sample.cfgEveryMessage (Settle Fulfilled)
       (after Sample.cfgEveryMessage (Handle (Sample.env true) Sample.batch5)
          Sample.soundEveryMessage))
  /\ inFlight
       (after Sample.cfgEveryMessage (Handle (Sample.env true) Sample.batch5)
          Sample.soundEveryMessage) = 1%nat.
Proof.
  split; [|reflexivity].
  apply (only_handler_touches_the_document Sample.cfgEveryMessage (Settle Fulfilled)).
  intros env message. discriminate.
Defined.

(** ** Restoring a lambda from a checkpoint *)

Section Restore.

Context {PH PS : Type} `{ProtocolOpHandler PH PS}.
Local Abbreviation ScribeLambda := (ScribeLambda PH PS).
Local Abbreviation Env := (Env PS).
Variable cfg : Config.

(** X12.  A checkpoint and the constructor are inverse to each other on what a
    checkpoint holds. A lambda constructed from the checkpoint of [s] has the
    offset of the checkpoint and the sequence numbers, the summary state and
    the corruption flag of [s], and starts with no checkpoint operation
    pending, no pending checkpoint messages and [clearCache] off; and the
    checkpoint of a lambda just constructed from [scribe], taken at the offset
    of [scribe] with the protocol head of [scribe], is [scribe] again, but for
    the protocol state, which is that of the protocol handler given to the
    constructor, and the time stamp. *)
Theorem checkpoint_round_trip (env : Env) (s : ScribeLambda) (logOffset : option Z)
    (scrub : bool) (constructedAt : Z) (scribe : IScribe.t PS) (ph : PH)
    (messages : list ISequencedDocumentMessage) :
  (let s' := construct cfg constructedAt (generateScribeCheckpoint env logOffset scrub s)
               ph (protocolHead s) messages in
   lastOffset s' = logOffset
   /\ this_sequenceNumber s' = this_sequenceNumber s
   /\ minSequenceNumber s' = minSequenceNumber s
   /\ lastClientSummaryHead s' = lastClientSummaryHead s
   /\ lastSummarySequenceNumber s' = lastSummarySequenceNumber s
   /\ validParentSummaries s' = validParentSummaries s
   /\ isDocumentCorrupt s' = isDocumentCorrupt s
   /\ protocolHead s' = protocolHead s
   /\ protocolHandler s' = ph
   /\ pendingMessages s' = messages
   /\ pendingP s' = None
   /\ pendingCheckpointMessages s' = []
   /\ clearCache s' = false
   /\ closed s' = false)
  /\ generateScribeCheckpoint env (IScribe.logOffset scribe) scrub
       (construct cfg constructedAt scribe ph (IScribe.protocolHead scribe) messages)
     = {| IScribe.lastSummarySequenceNumber := IScribe.lastSummarySequenceNumber scribe;
          IScribe.lastClientSummaryHead := IScribe.lastClientSummaryHead scribe;
          IScribe.logOffset := IScribe.logOffset scribe;
          IScribe.minimumSequenceNumber := IScribe.minimumSequenceNumber scribe;
          IScribe.protocolState := getProtocolState ph scrub;
          IScribe.sequenceNumber := IScribe.sequenceNumber scribe;
          IScribe.validParentSummaries := IScribe.validParentSummaries scribe;
          IScribe.isCorrupt := IScribe.isCorrupt scribe;
          IScribe.protocolHead := IScribe.protocolHead scribe;
          IScribe.checkpointTimestamp := now env |}.
Proof.
  split; [cbv zeta; repeat split|reflexivity].
Qed.

End Restore.

(** ** Service summaries *)

Section ServiceSummary.

Context {PH PS : Type} `{ProtocolOpHandler PH PS}.
Local Abbreviation ScribeLambda := (ScribeLambda PH PS).
Local Abbreviation Env := (Env PS).
Variable cfg : Config.

(** The state in which [writeServiceSummary] is called. *)
Local Abbreviation noClients s :=
  (set_globalCheckpointOnly true
     (set_documentCheckpointManager
        (setNoActiveClients true (documentCheckpointManager s)) s)).

Local Abbreviation serviceAnswer env op s :=
  (writeServiceSummary env op (protocolHead s)
     (generateScribeCheckpoint env (lastOffset s) (scrubUserDataInSummaries cfg) s)
     (pendingCheckpointMessages s)).

Local Abbreviation serviceCall env op s :=
  (WriteServiceSummary op (protocolHead s)
     (generateScribeCheckpoint env (lastOffset s) (scrubUserDataInSummaries cfg) s)
     (pendingCheckpointMessages s)).

Lemma dispatch_noClient (env : Env) message op (s : ScribeLambda) :
  mtype op = NoClient ->
  dispatch cfg env message op s = handleNoClient cfg env op s.
Proof. intros Ht. unfold dispatch. rewrite Ht. reflexivity. Qed.

(** The state in which the UpdateDSN is sent: [clearCache] has been raised
    when configured. *)
Local Abbreviation beforeSend s :=
  (if clearCacheAfterServiceSummary cfg
   then set_clearCache true (noClients s)
   else noClients s).

Local Abbreviation serviceUpdateDSN op :=
  (ControlOp (mkUpdateDSN (sequenceNumber op) false
                (clearCacheAfterServiceSummary cfg))
             (enableTraces cfg)).

Lemma handleNoClient_enabled (env : Env) op (s : ScribeLambda) :
  referenceSequenceNumber op = sequenceNumber op ->
  minimumSequenceNumber op = sequenceNumber op ->
  serviceSummaryEnabled cfg = true ->
  handleNoClient cfg env op s
  = match serviceAnswer env op s with
    | Ok r =>
        match truthy r with
        | Some summaryHandle =>
            match send env (serviceUpdateDSN op) with
            | Ok _ =>
                (Ok tt,
                 set_validParentSummaries
                   (Some (pushAndCap
                            (maxTrackedServiceSummaryVersionsSinceLastClientSummary cfg)
                            match validParentSummaries s with
                            | None => []
                            | Some l => l
                            end summaryHandle))
                   (set_lastSummarySequenceNumber (Some (sequenceNumber op))
                      (beforeSend s)),
                 [serviceCall env op s; SendToDeli (serviceUpdateDSN op)])
            | Throw e =>
                if ignoreStorageException cfg
                then (Ok tt, beforeSend s, [serviceCall env op s])
                else (Throw e, set_isDocumentCorrupt true (beforeSend s),
                      [serviceCall env op s])
            end
        | None => (Ok tt, noClients s, [serviceCall env op s])
        end
    | Throw e =>
        if ignoreStorageException cfg
        then (Ok tt, noClients s, [serviceCall env op s])
        else (Throw e, set_isDocumentCorrupt true (noClients s), [serviceCall env op s])
    end.
Proof.
  intros Hr Hm He. unfold serviceSummaryEnabled in He.
  unfold handleNoClient. rewrite Hr, Hm, Z.eqb_refl, He.
  unfold sendSummaryConfirmationMessage, sendToDeli, updateLastSummarySequenceNumber,
    updateValidParentSummaries.
  monad_unfold. simpl.
  change (generateScribeCheckpoint env (lastOffset s) (scrubUserDataInSummaries cfg)
            (noClients s))
    with (generateScribeCheckpoint env (lastOffset s) (scrubUserDataInSummaries cfg) s).
  destruct (writeServiceSummary env op (protocolHead s)
              (generateScribeCheckpoint env (lastOffset s)
                 (scrubUserDataInSummaries cfg) s)
              (pendingCheckpointMessages s)) as [r|e]; simpl.
  - destruct (truthy r) as [h|]; simpl; [|reflexivity].
    destruct (clearCacheAfterServiceSummary cfg); simpl;
      (destruct (send env (ControlOp _ _)) as [[]|e]; simpl;
       [reflexivity|destruct (ignoreStorageException cfg); reflexivity]).
  - destruct (ignoreStorageException cfg); reflexivity.
Qed.

(** X13.  A NoClient op for which a service summary is written: the lambda
    calls [writeServiceSummary] with the protocol head and, when it resolves to
    a handle, raises [clearCache] when configured and sends one op, the control
    op UpdateDSN with isClientSummary = false and clearCache as configured.
    When the producer takes it, the lambda records the op's sequence number as
    the last summary sequence number and the handle among the valid parent
    summaries, and leaves the protocol head and the last client summary head
    as they were.  When the producer rejects it, the awaited send throws
    inside the [try]: nothing has been sent, the last summary sequence number
    and the valid parent summaries stay as they were although the summary was
    written, and [clearCache] stays raised; with [ignoreStorageException] the
    op is passed over, without it the document is marked corrupt and the
    error is thrown on. *)
Theorem service_summary_success_updates_dsn (env : Env) (message : IQueuedMessage)
    (op : ISequencedDocumentMessage) (s : ScribeLambda) (summaryHandle : string) :
  mtype op = NoClient ->
  referenceSequenceNumber op = sequenceNumber op ->
  minimumSequenceNumber op = sequenceNumber op ->
  serviceSummaryEnabled cfg = true ->
  serviceAnswer env op s = Ok (Some summaryHandle) ->
  summaryHandle <> EmptyString ->
  exists r s' t,
    dispatch cfg env message op s = (r, s', t)
    /\ clearCache s' = (clearCacheAfterServiceSummary cfg || clearCache s)%bool
    /\ protocolHead s' = protocolHead s
    /\ lastClientSummaryHead s' = lastClientSummaryHead s
    /\ protocolHandler s' = protocolHandler s
    /\ noActiveClients (documentCheckpointManager s') = true
    /\ globalCheckpointOnly s' = true
    /\ match send env (serviceUpdateDSN op) with
       | Ok _ =>
           r = Ok tt
           /\ t = [serviceCall env op s; SendToDeli (serviceUpdateDSN op)]
           /\ lastSummarySequenceNumber s' = Some (sequenceNumber op)
           /\ validParentSummaries s'
              = Some (pushAndCap
                        (maxTrackedServiceSummaryVersionsSinceLastClientSummary cfg)
                        match validParentSummaries s with
                        | None => []
                        | Some l => l
                        end summaryHandle)
           /\ isDocumentCorrupt s' = isDocumentCorrupt s
       | Throw e =>
           t = [serviceCall env op s]
           /\ lastSummarySequenceNumber s' = lastSummarySequenceNumber s
           /\ validParentSummaries s' = validParentSummaries s
           /\ if ignoreStorageException cfg
              then r = Ok tt /\ isDocumentCorrupt s' = isDocumentCorrupt s
              else r = Throw e /\ isDocumentCorrupt s' = true
       end.
Proof.
  intros Ht Hr Hm He Hw Hh.
  rewrite (dispatch_noClient env message op s Ht).
  rewrite (handleNoClient_enabled env op s Hr Hm He), Hw.
  assert (Et : truthy (Some summaryHandle) = Some summaryHandle).
  { unfold truthy. destruct (String.eqb_spec summaryHandle EmptyString) as [E|E];
      [contradiction|reflexivity]. }
  rewrite Et.
  destruct (send env (serviceUpdateDSN op)) as [[]|e];
    [|destruct (ignoreStorageException cfg)];
    do 3 eexists; (split; [reflexivity|]);
    destruct (clearCacheAfterServiceSummary cfg); simpl; repeat split.
Qed.

(** X14.  A service summary that fails. When [writeServiceSummary] throws and
    storage exceptions are ignored, the op is passed over: nothing is sent and
    the summary state stays as it was. When they are not ignored the document
    is marked corrupt and the error is thrown on; no checkpoint is requested
    for it and nothing is sent. When the summary is disabled for the document,
    or resolves to no handle, nothing is sent either. *)
Theorem service_summary_failure_sends_nothing (env : Env) (message : IQueuedMessage)
    (op : ISequencedDocumentMessage) (s : ScribeLambda) :
  mtype op = NoClient ->
  referenceSequenceNumber op = sequenceNumber op ->
  minimumSequenceNumber op = sequenceNumber op ->
  (serviceSummaryEnabled cfg = false ->
   dispatch cfg env message op s = (Ok tt, noClients s, []))
  /\ (serviceSummaryEnabled cfg = true ->
      forall r, serviceAnswer env op s = Ok r -> truthy r = None ->
      dispatch cfg env message op s = (Ok tt, noClients s, [serviceCall env op s]))
  /\ (serviceSummaryEnabled cfg = true ->
      forall e, serviceAnswer env op s = Throw e ->
      ignoreStorageException cfg = true ->
      dispatch cfg env message op s = (Ok tt, noClients s, [serviceCall env op s]))
  /\ (serviceSummaryEnabled cfg = true ->
      forall e, serviceAnswer env op s = Throw e ->
      ignoreStorageException cfg = false ->
      dispatch cfg env message op s
      = (Throw e, set_isDocumentCorrupt true (noClients s), [serviceCall env op s])).
Proof.
  intros Ht Hr Hm. rewrite (dispatch_noClient env message op s Ht).
  split; [|split; [|split]].
  - intros He. unfold serviceSummaryEnabled in He.
    unfold handleNoClient. rewrite Hr, Hm, Z.eqb_refl, He. reflexivity.
  - intros He r Hw Hn. rewrite (handleNoClient_enabled env op s Hr Hm He), Hw, Hn.
    reflexivity.
  - intros He e Hw Hi. rewrite (handleNoClient_enabled env op s Hr Hm He), Hw, Hi.
    reflexivity.
  - intros He e Hw Hi. rewrite (handleNoClient_enabled env op s Hr Hm He), Hw, Hi.
    reflexivity.
Qed.

(** X15.  A NoClient op whose reference or minimum sequence number is not its
    sequence number is refused: [handler] throws on the assertion, before the
    lambda has noted that no clients are left and before any summary is
    written. *)
Theorem malformed_no_client_op_is_refused (env : Env) (message : IQueuedMessage)
    (op : ISequencedDocumentMessage) (s : ScribeLambda) :
  mtype op = NoClient ->
  referenceSequenceNumber op <> sequenceNumber op
  \/ minimumSequenceNumber op <> sequenceNumber op ->
  exists e, dispatch cfg env message op s = (Throw e, s, []).
Proof.
  intros Ht Hb. rewrite (dispatch_noClient env message op s Ht).
  unfold handleNoClient, assert, bind at 1.
  destruct (Z.eqb_spec (referenceSequenceNumber op) (sequenceNumber op)) as [Er|Er].
  - destruct Hb as [Hb|Hb]; [contradiction|].
    unfold ret, bind at 1.
    destruct (Z.eqb_spec (minimumSequenceNumber op) (sequenceNumber op)) as [Em|Em];
      [contradiction|].
    eexists. reflexivity.
  - eexists. reflexivity.
Qed.

End ServiceSummary.

(** Scenario S4: a NoClient op with a service summary. *)
Lemma service_summary_success_updates_dsn_witness :
  exists s',
    dispatch Sample.cfg (Sample.env true) Sample.batchNoClient Sample.noClient11
      (Sample.lambda Sample.cfg 10 10 4 0 None false)
    = (Ok tt, s',
       [WriteServiceSummary Sample.noClient11 0
          (generateScribeCheckpoint (Sample.env true) (Some 4) false
             (Sample.lambda Sample.cfg 10 10 4 0 None false)) [];
        SendToDeli (ControlOp (mkUpdateDSN 11 false false) false)])
    /\ lastSummarySequenceNumber s' = Some 11
    /\ validParentSummaries s' = Some ["S1"%string].
Proof.
  destruct (service_summary_success_updates_dsn Sample.cfg (Sample.env true)
              Sample.batchNoClient Sample.noClient11
              (Sample.lambda Sample.cfg 10 10 4 0 None false) "S1"%string)
    as (r & s' & t & E & _ & _ & _ & _ & _ & _ & Hr & Ht & Hl & Hv & _);
    try reflexivity; [discriminate|].
  subst r t. exists s'. split; [exact E|]. split; [exact Hl|exact Hv].
Defined.

(** The summary writer rejects the write and storage exceptions are not
    ignored. *)
Lemma service_summary_failure_sends_nothing_witness :
  dispatch Sample.cfg Sample.envFailing Sample.batchNoClient Sample.noClient11
    (Sample.lambda Sample.cfg 10 10 4 0 None false)
  = (Throw "storage",
     set_isDocumentCorrupt true
       (set_globalCheckpointOnly true
          (set_documentCheckpointManager
             (setNoActiveClients true
                (documentCheckpointManager
                   (Sample.lambda Sample.cfg 10 10 4 0 None false)))
             (Sample.lambda Sample.cfg 10 10 4 0 None false))),
     [WriteServiceSummary Sample.noClient11 0
        (generateScribeCheckpoint Sample.envFailing (Some 4) false
           (Sample.lambda Sample.cfg 10 10 4 0 None false)) []]).
Proof.
  destruct (service_summary_failure_sends_nothing Sample.cfg Sample.envFailing
              Sample.batchNoClient Sample.noClient11
              (Sample.lambda Sample.cfg 10 10 4 0 None false)
              eq_refl eq_refl eq_refl) as (_ & _ & _ & T).
  exact (T eq_refl "storage"%string eq_refl eq_refl).
Defined.

Lemma malformed_no_client_op_is_refused_witness :
  exists e,
    dispatch Sample.cfg (Sample.env true) Sample.batchNoClient
      (Sample.op 11 10 11 NoClient) (Sample.lambda Sample.cfg 10 10 4 0 None false)
    = (Throw e, Sample.lambda Sample.cfg 10 10 4 0 None false, []).
Proof.
  apply (malformed_no_client_op_is_refused Sample.cfg (Sample.env true)
           Sample.batchNoClient (Sample.op 11 10 11 NoClient)
           (Sample.lambda Sample.cfg 10 10 4 0 None false)).
  - reflexivity.
  - right. simpl. lia.
Defined.

(** ** Client summaries: the other outcomes *)

Section ClientSummaryOutcomes.

Context {PH PS : Type} `{ProtocolOpHandler PH PS}.
Local Abbreviation ScribeLambda := (ScribeLambda PH PS).
Local Abbreviation Env := (Env PS).
Variable cfg : Config.

(** The call of [writeClientSummary] in the state [s1]. *)
Local Abbreviation clientCall env op s1 :=
  (WriteClientSummary op (lastClientSummaryHead s1)
     (generateScribeCheckpoint env (lastOffset s1) (scrubUserDataInSummaries cfg) s1)
     (pendingCheckpointMessages s1) (isEphemeralContainer cfg)).

(** The state the snapshot is put back in. *)
Local Abbreviation putBack s ph1 rest :=
  (set_pendingMessages (pendingMessages s)
     (set_protocolHandler
        (initializeProtocol (getProtocolState (protocolHandler s) false))
        (advanced s ph1 rest))).

Local Abbreviation ownNack op :=
  (SummaryNackOp (mkNack "Failed to summarize the document." (sequenceNumber op))
                 (enableTraces cfg)).

(** The [catch] of the Summarize branch, entered with the error [e] after the
    call of the summary writer and the sends [sent]. *)
Local Abbreviation caught env op s ph1 rest e sent :=
  (if ignoreStorageException cfg then
     match send env (ownNack op) with
     | Ok _ =>
         (Ok tt, putBack s ph1 rest,
          clientCall env op (advanced s ph1 rest) :: sent ++ [SendToDeli (ownNack op)])
     | Throw e' =>
         (Throw e', putBack s ph1 rest, clientCall env op (advanced s ph1 rest) :: sent)
     end
   else (Throw e, putBack s ph1 rest, clientCall env op (advanced s ph1 rest) :: sent)).

(** A Summarize op that deli has not acked, once the protocol handler has
    been brought to its reference sequence number. *)
Lemma dispatch_summarize (env : Env) message op (s : ScribeLambda) ph1 rest :
  mtype op = Summarize ->
  deliAcked op = false ->
  isExternal cfg = false
  \/ ph_sequenceNumber (protocolHandler s) <= referenceSequenceNumber op ->
  drain (referenceSequenceNumber op) (protocolHandler s) (pendingMessages s)
    = Some (ph1, rest) ->
  dispatch cfg env message op s
  = if protocolHead s <? ph_sequenceNumber ph1 then
      match answer cfg env op (advanced s ph1 rest) with
      | Ok response =>
          if isExternal cfg then
            (Ok tt, advanced s ph1 rest, [clientCall env op (advanced s ph1 rest)])
          else
            match response with
            | StatusTrue ack =>
                match send env (SummaryAckOp ack (enableTraces cfg)) with
                | Ok _ =>
                    match
                      send env (ControlOp (mkUpdateDSN (sequenceNumber op) true false)
                                          (enableTraces cfg))
                    with
                    | Ok _ =>
                        (Ok tt,
                         set_lastSummarySequenceNumber (Some (ph_sequenceNumber ph1))
                           (set_protocolHead (ph_sequenceNumber ph1)
                              (advanced s ph1 rest)),
                         [clientCall env op (advanced s ph1 rest);
                          SendToDeli (SummaryAckOp ack (enableTraces cfg));
                          SendToDeli
                            (ControlOp (mkUpdateDSN (sequenceNumber op) true false)
                                       (enableTraces cfg))])
                    | Throw e =>
                        caught env op s ph1 rest e
                          [SendToDeli (SummaryAckOp ack (enableTraces cfg))]
                    end
                | Throw e => caught env op s ph1 rest e []
                end
            | StatusFalse nack =>
                match send env (SummaryNackOp nack (enableTraces cfg)) with
                | Ok _ =>
                    (Ok tt, putBack s ph1 rest,
                     [clientCall env op (advanced s ph1 rest);
                      SendToDeli (SummaryNackOp nack (enableTraces cfg))])
                | Throw e => caught env op s ph1 rest e []
                end
            end
      | Throw e => caught env op s ph1 rest e []
      end
    else (Ok tt, advanced s ph1 rest, []).
Proof.
  intros Ht Hd Hx Hdr.
  unfold dispatch. rewrite Ht, Hd. simpl.
  unfold handleSummarize. unfold bind at 1. unfold get at 1.
  assert (Hc : negb (isExternal cfg)
               || (ph_sequenceNumber (protocolHandler s) <=? referenceSequenceNumber op)
               = true).
  { destruct Hx as [Hx|Hx]; [rewrite Hx; reflexivity|].
    apply Z.leb_le in Hx. rewrite Hx. apply orb_true_r. }
  rewrite Hc. cbv zeta.
  unfold bind at 1.
  rewrite (processFromPending_drain cfg env _ message s Hdr).
  unfold bind at 1. unfold get at 1.
  change (protocolHead (set_protocolHandler ph1 (set_pendingMessages rest s)))
    with (protocolHead s).
  change (ph_sequenceNumber
            (protocolHandler (set_protocolHandler ph1 (set_pendingMessages rest s))))
    with (ph_sequenceNumber ph1).
  destruct (protocolHead s <? ph_sequenceNumber ph1); [|reflexivity].
  unfold answer, advanced.
  unfold try_catch, bind at 1, get at 1, bind at 1, emit at 1, bind at 1.
  unfold sendSummaryAck, sendSummaryNack, sendSummaryConfirmationMessage, sendToDeli,
    updateProtocolHead, updateLastSummarySequenceNumber, revertProtocolState.
  match goal with
  | |- context [writeClientSummary env op ?h ?c ?p ?e] =>
      destruct (writeClientSummary env op h c p e) as [[ack|nack]|err]
  end;
    monad_unfold; simpl;
    destruct (isExternal cfg); simpl; try reflexivity;
    repeat match goal with
           | |- context [match send env ?o with _ => _ end] =>
               destruct (send env o) as [[]|?]; simpl; try reflexivity
           | |- context [if ignoreStorageException cfg then _ else _] =>
               destruct (ignoreStorageException cfg); simpl; try reflexivity
           end.
Qed.

(** X16.  When [writeClientSummary] throws, the protocol handler is rebuilt
    from the protocol state captured before the attempt and the pending ops
    captured with it are put back, whether the summary writer is external or
    not; the protocol head and the last summary sequence number stay. With
    [ignoreStorageException] the lambda then sends a SummaryNack of its own for
    the op, with the message "Failed to summarize the document.": when the
    producer takes it, that is the one op sent and the handler goes on; when
    the producer rejects it, the error of the send is thrown out of the
    [catch] and nothing has been sent.  Without [ignoreStorageException] the
    error of the summary writer is thrown on and nothing has been sent. *)
Theorem client_summary_exception_reverts (env : Env) (message : IQueuedMessage)
    (op : ISequencedDocumentMessage) (s : ScribeLambda) ph1 rest (e : string) :
  mtype op = Summarize ->
  deliAcked op = false ->
  isExternal cfg = false
  \/ ph_sequenceNumber (protocolHandler s) <= referenceSequenceNumber op ->
  drain (referenceSequenceNumber op) (protocolHandler s) (pendingMessages s)
    = Some (ph1, rest) ->
  protocolHead s < ph_sequenceNumber ph1 ->
  answer cfg env op (advanced s ph1 rest) = Throw e ->
  exists r s' t,
    dispatch cfg env message op s = (r, s', t)
    /\ restored s s'
    /\ (ignoreStorageException cfg = true ->
        match send env (ownNack op) with
        | Ok _ => r = Ok tt /\ sentOps t = [ownNack op]
        | Throw e' => r = Throw e' /\ sentOps t = []
        end)
    /\ (ignoreStorageException cfg = false -> r = Throw e /\ sentOps t = []).
Proof.
  intros Ht Hd Hx Hdr Hlt Hw.
  rewrite (dispatch_summarize env message op s ph1 rest Ht Hd Hx Hdr), Hw.
  apply Z.ltb_lt in Hlt. rewrite Hlt. unfold restored.
  destruct (ignoreStorageException cfg);
    [destruct (send env (ownNack op)) as [[]|e']|]; do 3 eexists;
    (split; [reflexivity|]); simpl; repeat split; intros; discriminate.
Qed.

(** X17.  An external summary writer answers for itself: whatever status
    [writeClientSummary] returns, the lambda sends neither SummaryAck nor
    SummaryNack nor UpdateDSN, does not move the protocol head, and keeps the
    protocol handler where the attempt brought it, also when the status is
    false. *)
Theorem external_writer_sends_nothing (env : Env) (message : IQueuedMessage)
    (op : ISequencedDocumentMessage) (s : ScribeLambda) ph1 rest
    (response : SummaryResponse) :
  mtype op = Summarize ->
  deliAcked op = false ->
  isExternal cfg = true ->
  ph_sequenceNumber (protocolHandler s) <= referenceSequenceNumber op ->
  drain (referenceSequenceNumber op) (protocolHandler s) (pendingMessages s)
    = Some (ph1, rest) ->
  protocolHead s < ph_sequenceNumber ph1 ->
  answer cfg env op (advanced s ph1 rest) = Ok response ->
  dispatch cfg env message op s
  = (Ok tt, advanced s ph1 rest, [clientCall env op (advanced s ph1 rest)]).
Proof.
  intros Ht Hd Hx Hle Hdr Hlt Hw.
  rewrite (dispatch_summarize env message op s ph1 rest Ht Hd (or_intror Hle) Hdr), Hw.
  apply Z.ltb_lt in Hlt. rewrite Hlt, Hx. reflexivity.
Qed.

(** X18.  Summarize ops for which no summary is written. An op that deli has
    already acked is passed over. With an external writer, an op whose
    reference sequence number is behind the protocol handler is passed over.
    Otherwise the protocol handler is brought to the reference sequence number,
    and when that does not take it beyond the protocol head (a replay of a
    summary already taken) nothing is written or sent, and the protocol handler
    stays where it was brought. *)
Theorem summarize_op_is_passed_over (env : Env) (message : IQueuedMessage)
    (op : ISequencedDocumentMessage) (s : ScribeLambda) :
  mtype op = Summarize ->
  (deliAcked op = true -> dispatch cfg env message op s = (Ok tt, s, []))
  /\ (deliAcked op = false ->
      isExternal cfg = true ->
      referenceSequenceNumber op < ph_sequenceNumber (protocolHandler s) ->
      dispatch cfg env message op s = (Ok tt, s, []))
  /\ (deliAcked op = false ->
      isExternal cfg = false
      \/ ph_sequenceNumber (protocolHandler s) <= referenceSequenceNumber op ->
      forall ph1 rest,
        drain (referenceSequenceNumber op) (protocolHandler s) (pendingMessages s)
          = Some (ph1, rest) ->
        ph_sequenceNumber ph1 <= protocolHead s ->
        dispatch cfg env message op s = (Ok tt, advanced s ph1 rest, [])).
Proof.
  intros Ht. split; [|split].
  - intros Hd. unfold dispatch. rewrite Ht, Hd. reflexivity.
  - intros Hd Hx Hlt. unfold dispatch. rewrite Ht, Hd. simpl.
    unfold handleSummarize, bind, get. rewrite Hx.
    apply Z.leb_gt in Hlt. rewrite Hlt. reflexivity.
  - intros Hd Hx ph1 rest Hdr Hle.
    rewrite (dispatch_summarize env message op s ph1 rest Ht Hd Hx Hdr).
    apply Z.ltb_ge in Hle. rewrite Hle. reflexivity.
Qed.

End ClientSummaryOutcomes.

(** The summary writer throws on the Summarize op 12, after the attempt has
    drained op 11 into the protocol handler; storage exceptions are ignored.
    The protocol handler goes back from 11 to 10 and op 11 is on the pending
    deque again. *)
Lemma client_summary_exception_reverts_witness :
  exists r s' t,
    dispatch (Sample.configure true true false false true) Sample.envFailing
      (Sample.batch 5 [Sample.summarize12]) Sample.summarize12 Sample.beforeSummary12
    = (r, s', t)
    /\ protocolHandler s' = mkCounters 10 10
    /\ pendingMessages s' = [Sample.op 11 10 10 Operation; Sample.summarize12]
    /\ r = Ok tt
    /\ sentOps t
       = [SummaryNackOp (mkNack "Failed to summarize the document." 12) false].
Proof.
  destruct (client_summary_exception_reverts
              (Sample.configure true true false false true) Sample.envFailing
              (Sample.batch 5 [Sample.summarize12]) Sample.summarize12
              Sample.beforeSummary12 (mkCounters 11 10) [Sample.summarize12]
              "storage"%string)
    as (r & s' & t & E & (Hp & Hm & _ & _) & Hi & _);
    try reflexivity; [left; reflexivity|].
  exists r, s', t. destruct (Hi eq_refl) as [Hr Hs].
  repeat split; assumption.
Defined.

(** An external writer that answers the Summarize op 11 with status false. *)
Lemma external_writer_sends_nothing_witness :
  sentOps
    (snd (dispatch (Sample.configure true true false true false) (Sample.env false)
            (Sample.batch 5 [Sample.summarize11]) Sample.summarize11
            Sample.beforeSummary))
  = []
  /\ protocolHandler
       (snd (fst (dispatch (Sample.configure true true false true false)
                    (Sample.env false) (Sample.batch 5 [Sample.summarize11])
                    Sample.summarize11 Sample.beforeSummary)))
     = mkCounters 10 10.
Proof.
  rewrite (external_writer_sends_nothing
             (Sample.configure true true false true false) (Sample.env false)
             (Sample.batch 5 [Sample.summarize11]) Sample.summarize11
             Sample.beforeSummary (mkCounters 10 10) [Sample.summarize11]
             (StatusFalse (mkNack "rejected" 11)));
    try reflexivity.
  split; reflexivity.
Defined.

(** The Summarize op 11 replayed to a lambda whose protocol head is 10. *)
Lemma summarize_op_is_passed_over_witness :
  dispatch Sample.cfg (Sample.env true) (Sample.batch 5 [Sample.summarize11])
    Sample.summarize11
    (set_protocolHead 10 Sample.beforeSummary)
  = (Ok tt,
     advanced (set_protocolHead 10 Sample.beforeSummary) (mkCounters 10 10)
       [Sample.summarize11],
     []).
Proof.
  destruct (summarize_op_is_passed_over Sample.cfg (Sample.env true)
              (Sample.batch 5 [Sample.summarize11]) Sample.summarize11
              (set_protocolHead 10 Sample.beforeSummary) eq_refl) as (_ & _ & T).
  apply T; try reflexivity.
  left. reflexivity.
Defined.

(** ** Draining the pending ops *)

Section Draining.

Context {PH PS : Type} `{ProtocolOpHandler PH PS}.
Local Abbreviation ScribeLambda := (ScribeLambda PH PS).
Local Abbreviation Env := (Env PS).
Variable cfg : Config.

Lemma leading_removeFrontWhile (target : Z) (l : list ISequencedDocumentMessage) :
  l = leading target l ++ removeFrontWhile target l.
Proof.
  induction l as [|m r IH]; simpl; [reflexivity|].
  destruct (sequenceNumber m <=? target); simpl; [f_equal; exact IH|reflexivity].
Qed.

Lemma leading_below (target : Z) (l : list ISequencedDocumentMessage) :
  Forall (fun m => sequenceNumber m <= target) (leading target l).
Proof.
  induction l as [|m r IH]; simpl; [constructor|].
  destruct (Z.leb_spec (sequenceNumber m) target); constructor; assumption.
Qed.

Lemma removeFrontWhile_front (target : Z) (l : list ISequencedDocumentMessage) m rest :
  removeFrontWhile target l = m :: rest -> target < sequenceNumber m.
Proof.
  induction l as [|a r IH]; simpl; [discriminate|].
  destruct (Z.leb_spec (sequenceNumber a) target) as [Hle|Hgt]; [exact IH|].
  intros E. inversion E; subst. exact Hgt.
Qed.

Lemma drain_feed (target : Z) (l : list ISequencedDocumentMessage) :
  forall ph : PH,
    drain target ph l
    = match feed ph (leading target l) with
      | Some ph1 => Some (ph1, removeFrontWhile target l)
      | None => None
      end.
Proof.
  induction l as [|m r IH]; intros ph; simpl; [reflexivity|].
  destruct (sequenceNumber m <=? target); simpl; [|reflexivity].
  destruct (processMessage ph m) as [ph'|]; [apply IH|reflexivity].
Qed.

(** X19.  [processFromPending] takes the ops at the front of the pending deque
    that are at or below the target, and gives them to the protocol handler in
    order. When the protocol handler accepts them all, they are gone from the
    deque, the first op left (if any) is beyond the target, no collaborator has
    been called and nothing else has changed. *)
Theorem processFromPending_feeds_leading_ops (env : Env) (target : Z)
    (queuedMessage : IQueuedMessage) (s : ScribeLambda) (ph1 : PH) :
  feed (protocolHandler s) (leading target (pendingMessages s)) = Some ph1 ->
  processFromPending cfg env target queuedMessage s
  = (Ok tt,
     set_protocolHandler ph1
       (set_pendingMessages (removeFrontWhile target (pendingMessages s)) s),
     [])
  /\ pendingMessages s
     = leading target (pendingMessages s)
       ++ removeFrontWhile target (pendingMessages s)
  /\ Forall (fun m => sequenceNumber m <= target) (leading target (pendingMessages s))
  /\ (forall m rest,
        removeFrontWhile target (pendingMessages s) = m :: rest ->
        target < sequenceNumber m).
Proof.
  intros Hf. split; [|split; [|split]].
  - apply processFromPending_drain. rewrite drain_feed, Hf. reflexivity.
  - apply leading_removeFrontWhile.
  - apply leading_below.
  - apply removeFrontWhile_front.
Qed.

(** What [prepareCheckpoint] leaves and logs, whatever [checkpointCore] does
    with the checkpoint. *)
Lemma prepareCheckpoint_returns (env : Env) message reason skip (s : ScribeLambda) :
  exists s' t,
    prepareCheckpoint cfg env message reason skip s
    = (Ok tt, s', t ++ [WritingCheckpoint reason])
    /\ lastOffset s' = Some (offset message)
    /\ isDocumentCorrupt s' = isDocumentCorrupt s
    /\ pendingMessages s' = pendingMessages s
    /\ protocolHandler s' = protocolHandler s
    /\ sentOps t = [] /\ acknowledged t = [].
Proof.
  unfold prepareCheckpoint. unfold bind at 1, get at 1. cbv zeta.
  unfold bind at 1, modify_dcm at 1, modify at 1.
  unfold bind at 1, modify_dcm at 1, modify at 1.
  unfold bind at 1.
  match goal with
  | |- context [checkpointCore ?c ?q ?cc ?sk ?st] =>
      pose proof (frame_checkpointCore
                    (fun s' : ScribeLambda =>
                       pendingMessages s' = pendingMessages s
                       /\ protocolHandler s' = protocolHandler s)
                    ltac:(intros; assumption) ltac:(intros; assumption)
                    ltac:(intros; assumption) c q cc sk st
                    (conj eq_refl eq_refl)) as Hf;
      destruct (checkpointCore_returns c q cc sk st)
        as (s1 & t1 & E & _ & Hc & _ & Ha & Hs); rewrite E in *
  end.
  monad_unfold. simpl.
  exists (set_lastOffset (Some (offset message)) s1), t1.
  split; [reflexivity|]. simpl. simpl in Hc. repeat split; tauto.
Qed.

(** X20.  When the protocol handler refuses one of these ops, the document is
    corrupt: [processFromPending] throws a protocol error after it has set the
    corruption flag and requested a checkpoint with the reason MarkAsCorrupt at
    the offset of the batch in hand. Nothing is sent to the producer and
    nothing is acknowledged upstream by the call. *)
Theorem protocol_error_marks_the_document_corrupt (env : Env) (target : Z)
    (queuedMessage : IQueuedMessage) (s : ScribeLambda) :
  feed (protocolHandler s) (leading target (pendingMessages s)) = None ->
  exists s' t,
    processFromPending cfg env target queuedMessage s
    = (Throw "Protocol error", s', t ++ [WritingCheckpoint MarkAsCorrupt])
    /\ isDocumentCorrupt s' = true
    /\ lastOffset s' = Some (offset queuedMessage)
    /\ sentOps t = [] /\ acknowledged t = [].
Proof.
  unfold processFromPending, bind at 1, get at 1.
  generalize (eq_refl (pendingMessages s)).
  generalize (pendingMessages s) at 1 3 4 as pending.
  intros pending. revert s.
  induction pending as [|m rest IH]; intros s Hp Hf; simpl in Hf; [discriminate|].
  simpl. destruct (sequenceNumber m <=? target); [|discriminate].
  simpl in Hf. unfold bind at 1, modify at 1. unfold bind at 1, get at 1.
  change (protocolHandler (set_pendingMessages rest s)) with (protocolHandler s).
  destruct (processMessage (protocolHandler s) m) as [ph'|] eqn:Epm.
  - unfold bind at 1, modify at 1.
    destruct (IH (set_protocolHandler ph' (set_pendingMessages rest s)) eq_refl Hf)
      as (s' & t & E & Hc & Ho & Hs & Ha).
    rewrite E. exists s', t. repeat split; assumption.
  - unfold markDocumentAsCorrupt. unfold bind at 1. unfold bind at 1, modify at 1.
    destruct (prepareCheckpoint_returns env queuedMessage MarkAsCorrupt true
                (set_isDocumentCorrupt true (set_pendingMessages rest s)))
      as (s' & t & E & Ho & Hc & _ & _ & Hs & Ha).
    rewrite E. unfold throw. simpl.
    exists s', t. rewrite app_nil_r. repeat split; assumption.
Qed.

End Draining.

(** The pending ops 11, 12 and 14 drained up to 12. *)
Lemma processFromPending_feeds_leading_ops_witness :
  processFromPending Sample.cfg (Sample.env true) 12 Sample.batch5
    (set_pendingMessages
       [Sample.op 11 10 10 Operation; Sample.op 12 10 11 Operation;
        Sample.op 14 10 11 Operation]
       (Sample.lambda Sample.cfg 10 10 4 0 None false))
  = (Ok tt,
     set_protocolHandler (mkCounters 12 10)
       (set_pendingMessages [Sample.op 14 10 11 Operation]
          (Sample.lambda Sample.cfg 10 10 4 0 None false)),
     []).
Proof.
  apply (processFromPending_feeds_leading_ops Sample.cfg (Sample.env true) 12
           Sample.batch5
           (set_pendingMessages
              [Sample.op 11 10 10 Operation; Sample.op 12 10 11 Operation;
               Sample.op 14 10 11 Operation]
              (Sample.lambda Sample.cfg 10 10 4 0 None false))
           (mkCounters 12 10)).
  reflexivity.
Defined.

(** The protocol handler at 8 refuses the pending op 10. *)
Lemma protocol_error_marks_the_document_corrupt_witness :
  exists s' t,
    processFromPending Sample.cfg (Sample.env true) 10 Sample.batch5 Sample.behind
    = (Throw "Protocol error", s', t ++ [WritingCheckpoint MarkAsCorrupt])
    /\ isDocumentCorrupt s' = true
    /\ lastOffset s' = Some 5.
Proof.
  destruct (protocol_error_marks_the_document_corrupt Sample.cfg (Sample.env true) 10
              Sample.batch5 Sample.behind)
    as (s' & t & E & Hc & Ho & _); [reflexivity|].
  exists s', t. repeat split; assumption.
Defined.

(** ** Checkpoints *)

Section Checkpoints.

Context {PH PS : Type} `{ProtocolOpHandler PH PS}.
Local Abbreviation ScribeLambda := (ScribeLambda PH PS).
Local Abbreviation Env := (Env PS).
Variable cfg : Config.

(** The checkpoint of [s] at the offset of [message]: user data is scrubbed
    as configured for global or for local checkpoints. *)
Local Abbreviation checkpointAt env message s :=
  (generateScribeCheckpoint env (Some (offset message))
     (if isGlobalCheckpoint (noActiveClients (documentCheckpointManager s))
                            (globalCheckpointOnly s)
      then scrubUserDataInGlobalCheckpoints cfg
      else scrubUserDataInLocalCheckpoints cfg) s).

(** X21.  [prepareCheckpoint] on a lambda that is open and has no checkpoint
    operation pending. The checkpoint is taken at the offset of the message,
    with the corruption flag as it stands. When [clearCache] is raised the
    checkpoint is not written: the cached checkpoint is deleted instead;
    otherwise it is written together with the pending checkpoint messages not
    yet inserted. The request in flight remembers the message and whether the
    upstream acknowledgement is to be skipped; the offset of the message
    becomes [lastOffset], the checkpoint timer is reset, and the reason is
    logged. *)
Theorem checkpoint_is_written_or_cache_deleted (env : Env) (message : IQueuedMessage)
    (reason : CheckpointReason) (skip : bool) (s : ScribeLambda) :
  closed s = false ->
  pendingP s = None ->
  exists s',
    prepareCheckpoint cfg env message reason skip s
    = (Ok tt, s',
       [if clearCache s then CheckpointDelete (protocolHead s) true
        else CheckpointWrite (checkpointAt env message s) (protocolHead s)
               (insertsOf s) (noActiveClients (documentCheckpointManager s))
               (globalCheckpointOnly s) (isDocumentCorrupt s);
        WritingCheckpoint reason])
    /\ pendingP s'
       = Some (mkInFlight (checkpointAt env message s) message (clearCache s) skip
                 (if clearCache s then [] else insertsOf s))
    /\ IScribe.logOffset (checkpointAt env message s) = Some (offset message)
    /\ IScribe.isCorrupt (checkpointAt env message s) = isDocumentCorrupt s
    /\ lastOffset s' = Some (offset message)
    /\ documentCheckpointManager s'
       = resetCheckpointTimer (now env)
           (updateCheckpointMessages message (documentCheckpointManager s))
    /\ protocolHandler s' = protocolHandler s
    /\ pendingMessages s' = pendingMessages s
    /\ this_sequenceNumber s' = this_sequenceNumber s
    /\ pendingCheckpointMessages s' = pendingCheckpointMessages s.
Proof.
  intros Hc Hp.
  unfold prepareCheckpoint. unfold bind at 1, get at 1. cbv zeta.
  unfold bind at 1, modify_dcm at 1, modify at 1.
  unfold bind at 1, modify_dcm at 1, modify at 1.
  unfold bind at 1.
  rewrite checkpointCore_starts by assumption.
  monad_unfold. simpl. unfold startEvent, startedRequest, insertsOf. simpl.
  destruct (clearCache s); eexists; (split; [reflexivity|]); simpl; repeat split.
Qed.

(** X22.  The idle timer. Fired with no message it does nothing. Fired with the
    message it was armed with, on a lambda that is open and has no checkpoint
    operation pending, it starts a checkpoint at the offset of that message, to
    be acknowledged upstream, and logs the reason IdleTime; unlike
    [prepareCheckpoint] it leaves [lastOffset] and the checkpoint timer as they
    are. *)
Theorem idle_checkpoint_is_taken_at_the_armed_message (env : Env)
    (message : IQueuedMessage) (s : ScribeLambda) :
  idleTimeCheckpoint cfg env None s = (Ok tt, s, [])
  /\ (closed s = false ->
      pendingP s = None ->
      idleTimeCheckpoint cfg env (Some message) s
      = (Ok tt,
         set_pendingP
           (Some (mkInFlight (checkpointAt env message s) message (clearCache s) false
                    (if clearCache s then [] else insertsOf s)))
           s,
         [if clearCache s then CheckpointDelete (protocolHead s) true
          else CheckpointWrite (checkpointAt env message s) (protocolHead s)
                 (insertsOf s) (noActiveClients (documentCheckpointManager s))
                 (globalCheckpointOnly s) (isDocumentCorrupt s);
          WritingCheckpoint IdleTime])).
Proof.
  split; [reflexivity|]. intros Hc Hp.
  unfold idleTimeCheckpoint. unfold bind at 1, get at 1. cbv zeta.
  unfold bind at 1.
  rewrite checkpointCore_starts by assumption.
  monad_unfold. simpl. unfold startEvent, startedRequest.
  destruct (clearCache s); reflexivity.
Qed.

End Checkpoints.

(** The lambda at sequence number 10 asked for a checkpoint at batch 5. *)
Lemma checkpoint_is_written_or_cache_deleted_witness :
  exists s' checkpoint,
    prepareCheckpoint Sample.cfg (Sample.env true) Sample.batch5 MaxMessages false
      (Sample.lambda Sample.cfg 10 10 4 0 None false)
    = (Ok tt, s',
       [CheckpointWrite checkpoint 0 [] false false false;
        WritingCheckpoint MaxMessages])
    /\ IScribe.logOffset checkpoint = Some 5
    /\ lastOffset s' = Some 5.
Proof.
  destruct (checkpoint_is_written_or_cache_deleted Sample.cfg (Sample.env true)
              Sample.batch5 MaxMessages false
              (Sample.lambda Sample.cfg 10 10 4 0 None false) eq_refl eq_refl)
    as (s' & E & _ & Hl & _ & Ho & _).
  exists s'. eexists. split; [exact E|]. split; [exact Hl|exact Ho].
Defined.

Lemma idle_checkpoint_is_taken_at_the_armed_message_witness :
  exists checkpoint,
    snd (idleTimeCheckpoint Sample.cfg (Sample.env true) (Some Sample.batch5)
           (Sample.lambda Sample.cfg 10 10 4 0 None false))
    = [CheckpointWrite checkpoint 0 [] false false false; WritingCheckpoint IdleTime]
    /\ IScribe.logOffset checkpoint = Some 5.
Proof.
  destruct (idle_checkpoint_is_taken_at_the_armed_message Sample.cfg (Sample.env true)
              Sample.batch5 (Sample.lambda Sample.cfg 10 10 4 0 None false))
    as [_ T].
  rewrite (T eq_refl eq_refl). eexists. split; reflexivity.
Defined.

(** ** Ops taken in *)

Section Admission.

Context {PH PS : Type} `{ProtocolOpHandler PH PS}.
Local Abbreviation ScribeLambda := (ScribeLambda PH PS).
Local Abbreviation Env := (Env PS).
Variable cfg : Config.

(** X23.  The op that is next in sequence, of a type that needs nothing more
    than to be taken in (not a Summarize, NoClient, SummaryAck or ClientJoin
    op). It is pushed on the pending ops and, when pending checkpoint messages
    are enabled, on these too; its sequence number and minimum sequence number
    become those of the lambda; [clearCache] is lowered. When the minimum
    sequence number has changed the pending ops are drained up to it; otherwise
    they are left for later. No collaborator is called. *)
Theorem next_op_is_taken_in (env : Env) (message : IQueuedMessage)
    (op : ISequencedDocumentMessage) (s : ScribeLambda) (ph1 : PH)
    (rest : list ISequencedDocumentMessage) :
  this_sequenceNumber s < sequenceNumber op ->
  sequenceNumber op = lastProtocolHandlerSequenceNumber s + 1 ->
  mtype op = Operation \/ mtype op = ClientLeave \/ mtype op = OtherType ->
  (if minSequenceNumber s =? minimumSequenceNumber op
   then Some (protocolHandler s, pendingMessages s ++ [op])
   else drain (minimumSequenceNumber op) (protocolHandler s) (pendingMessages s ++ [op]))
  = Some (ph1, rest) ->
  exists s',
    processOp cfg env message (SequencedOperation op) s = (Ok tt, s', [])
    /\ pendingMessages s' = rest
    /\ protocolHandler s' = ph1
    /\ this_sequenceNumber s' = sequenceNumber op
    /\ minSequenceNumber s' = minimumSequenceNumber op
    /\ pendingCheckpointMessages s'
       = (if enablePendingCheckpointMessages cfg
          then pendingCheckpointMessages s ++ [op]
          else pendingCheckpointMessages s)
    /\ clearCache s' = false
    /\ protocolHead s' = protocolHead s
    /\ lastOffset s' = lastOffset s
    /\ isDocumentCorrupt s' = isDocumentCorrupt s.
Proof.
  intros Hs Hn Ht Hd.
  assert (E1 : (sequenceNumber op <=? this_sequenceNumber s) = false)
    by (apply Z.leb_gt; lia).
  assert (E2 : (sequenceNumber op <=? lastProtocolHandlerSequenceNumber s) = false)
    by (apply Z.leb_gt; lia).
  assert (E3 : (sequenceNumber op =? lastProtocolHandlerSequenceNumber s + 1) = true)
    by (apply Z.eqb_eq; exact Hn).
  assert (Ed : forall s0 : ScribeLambda, dispatch cfg env message op s0 = (Ok tt, s0, [])).
  { intros s0. unfold dispatch.
    destruct Ht as [Ht|[Ht|Ht]]; rewrite Ht; reflexivity. }
  unfold processOp, admitOp, fetchMissing.
  unfold bind at 1, get at 1. rewrite E1. cbv zeta. rewrite E2, E3.
  simpl negb. cbv iota. monad_unfold.
  cbn [minSequenceNumber set_pendingMessages set_pendingCheckpointMessages].
  destruct (enablePendingCheckpointMessages cfg);
    unfold ret; cbv beta iota;
    cbn [minSequenceNumber set_pendingMessages set_pendingCheckpointMessages];
    (destruct (minSequenceNumber s =? minimumSequenceNumber op); cbn [negb];
     cbv beta iota;
     [ inversion Hd; subst ph1 rest
     | match goal with
       | |- context [processFromPending cfg env ?t message ?S] =>
           rewrite (@processFromPending_drain _ _ _ cfg env t message S ph1 rest Hd)
       end ]);
    rewrite Ed; eexists; (split; [reflexivity|]); simpl; repeat split.
Qed.

(** X24.  A SummaryAck op records the client summary: its handle becomes the
    last client summary head and the list of valid parent summaries is reset,
    so that (with a limit of at least one) the next service summary handle is
    the only valid parent. Only with an external summary writer does the op
    also move the protocol head and the last summary sequence number, to the
    sequence number of the summary proposal. *)
Theorem summary_ack_records_the_client_summary (env : Env) (message : IQueuedMessage)
    (op : ISequencedDocumentMessage) (s : ScribeLambda) :
  mtype op = SummaryAck ->
  exists s',
    dispatch cfg env message op s = (Ok tt, s', [])
    /\ lastClientSummaryHead s' = Some (handle (ackContent op))
    /\ validParentSummaries s' = None
    /\ (forall summaryHandle,
          1 <= maxTrackedServiceSummaryVersionsSinceLastClientSummary cfg ->
          validParentSummaries
            (snd (fst (updateValidParentSummaries cfg summaryHandle s')))
          = Some [summaryHandle])
    /\ protocolHead s'
       = (if isExternal cfg then summarySequenceNumber (ackContent op)
          else protocolHead s)
    /\ lastSummarySequenceNumber s'
       = (if isExternal cfg then Some (summarySequenceNumber (ackContent op))
          else lastSummarySequenceNumber s)
    /\ protocolHandler s' = protocolHandler s
    /\ pendingMessages s' = pendingMessages s.
Proof.
  intros Ht. unfold dispatch. rewrite Ht. simpl.
  unfold handleSummaryAck, updateProtocolHead, updateLastSummarySequenceNumber.
  assert (Hp : forall (limit : Z) (h : string), 1 <= limit -> pushAndCap limit [] h = [h]).
  { intros limit h Hl. rewrite pushAndCap_skipn. cbn [app List.length].
    replace (Z.to_nat (Z.of_nat 1 - limit)) with 0%nat by lia. reflexivity. }
  monad_unfold. destruct (isExternal cfg); simpl; eexists;
    (split; [reflexivity|]); simpl; repeat split;
    intros h Hl; rewrite (Hp _ h Hl); reflexivity.
Qed.

End Admission.

(** Op 11 taken in by the lambda at 10; the minimum sequence number stays. *)
Lemma next_op_is_taken_in_witness :
  exists s',
    processOp Sample.cfg (Sample.env true) Sample.batch5
      (SequencedOperation (Sample.op 11 10 10 Operation))
      (Sample.lambda Sample.cfg 10 10 4 0 None false)
    = (Ok tt, s', [])
    /\ pendingMessages s' = [Sample.op 11 10 10 Operation]
    /\ this_sequenceNumber s' = 11.
Proof.
  destruct (next_op_is_taken_in Sample.cfg (Sample.env true) Sample.batch5
              (Sample.op 11 10 10 Operation)
              (Sample.lambda Sample.cfg 10 10 4 0 None false)
              (mkCounters 10 10) [Sample.op 11 10 10 Operation])
    as (s' & E & Hp & _ & Hs & _); try reflexivity; [left; reflexivity|].
  exists s'. repeat split; assumption.
Defined.

Lemma summary_ack_records_the_client_summary_witness :
  exists s',
    dispatch Sample.cfg (Sample.env true) Sample.batch5
      (mkMsg 11 10 10 SummaryAck false (mkAck "H2" 9) "")
      (Sample.lambda Sample.cfg 10 10 4 0 (Some ["S1"%string]) false)
    = (Ok tt, s', [])
    /\ lastClientSummaryHead s' = Some "H2"%string
    /\ validParentSummaries s' = None.
Proof.
  destruct (summary_ack_records_the_client_summary Sample.cfg (Sample.env true)
              Sample.batch5 (mkMsg 11 10 10 SummaryAck false (mkAck "H2" 9) "")
              (Sample.lambda Sample.cfg 10 10 4 0 (Some ["S1"%string]) false) eq_refl)
    as (s' & E & Hh & Hv & _).
  exists s'. repeat split; assumption.
Defined.

(** ** A cache-clearing delete that is rejected *)

Section RejectedDelete.

Context {PH PS : Type} `{ProtocolOpHandler PH PS}.
Local Abbreviation ScribeLambda := (ScribeLambda PH PS).
Variable cfg : Config.

Lemma pending_act (p : InFlight PS) (a : Action PS) :
  isSettle a = false ->
  maintains (fun s : ScribeLambda => pendingP s = Some p)
            (fun e => isStart e = false) (act cfg a).
Proof.
  intros Ha. destruct a as [env message|o|env initial|]; simpl; [| discriminate | |].
  - apply (maintains_handler cfg _ _ (fun _ => True)); invariant_side.
  - apply (maintains_idleTimeCheckpoint cfg _ _ (fun _ => True)); invariant_side.
  - apply maintains_close; invariant_side.
Qed.

(** X25.  The promise of a cache-clearing delete has no handler for a rejection
    before the [.then] callback: when the delete is rejected the callback is
    skipped, and the operation stays pending. From then on, whatever the lambda
    is given to do, every checkpoint it requests is queued behind that
    operation and none is started. *)
Theorem rejected_delete_stays_pending (s : ScribeLambda) (p : InFlight PS)
    (actions : list (Action PS)) :
  pendingP s = Some p ->
  if_clearCache p = true ->
  Forall (fun a => a = Settle Rejected \/ isSettle a = false) actions ->
  settle cfg Rejected s = (Ok tt, s, [])
  /\ pendingP (fst (run cfg actions s)) = Some p
  /\ starts (snd (run cfg actions s)) = 0%nat.
Proof.
  intros Hp Hc Ha. split; [exact (settle_delete_rejected cfg s Hp Hc)|].
  revert s Hp. induction Ha as [|a rest Hh Hrest IH]; intros s Hp; simpl;
    [split; [exact Hp|reflexivity]|].
  assert (Hs : pendingP (after cfg a s) = Some p
               /\ starts (snd (act cfg a s)) = 0%nat).
  { destruct Hh as [->|Hn].
    - unfold after. simpl. rewrite (settle_delete_rejected cfg s Hp Hc).
      split; [exact Hp|reflexivity].
    - destruct (pending_act p a Hn s Hp) as [H1 G1].
      split; [exact H1|apply starts_none, G1]. }
  destruct Hs as [H1 G1]. destruct (IH (after cfg a s) H1) as [H2 G2].
  split; [exact H2|]. rewrite starts_app, G1, G2. reflexivity.
Qed.

End RejectedDelete.

(** A service summary with [clearCacheAfterServiceSummary]: the checkpoint of
    the batch is a cache-clearing delete; it is rejected, and the next batch
    starts nothing. *)
Lemma rejected_delete_stays_pending_witness :
  exists p,
    pendingP
      (after (Sample.configure true true true false false)
         (Handle (Sample.env true) Sample.batchNoClient)
         (Sample.lambda (Sample.configure true true true false false)
            10 10 4 0 None false))
    = Some p
    /\ if_clearCache p = true
    /\ starts
         (snd (run (Sample.configure true true true false false)
                 [Settle Rejected;
                  Handle (Sample.env true)
                    (Sample.batch 13 [Sample.op 12 12 11 Operation])]
                 (after (Sample.configure true true true false false)
                    (Handle (Sample.env true) Sample.batchNoClient)
                    (Sample.lambda (Sample.configure true true true false false)
                       10 10 4 0 None false))))
       = 0%nat.
Proof.
  eexists. split; [vm_compute; reflexivity|]. split; [reflexivity|].
  eapply (rejected_delete_stays_pending (Sample.configure true true true false false)).
  - vm_compute. reflexivity.
  - reflexivity.
  - constructor; [left; reflexivity|].
    constructor; [right; reflexivity|]. constructor.
Defined.

(** ** Calls that are made only under a condition *)

Section ConditionalCalls.

Context {PH PS : Type} `{ProtocolOpHandler PH PS}.
Local Abbreviation ScribeLambda := (ScribeLambda PH PS).
Local Abbreviation Env := (Env PS).
Variable cfg : Config.

Lemma acknowledged_none (t : list (Event PS)) :
  Forall notAcknowledgement t -> acknowledged t = [].
Proof.
  induction 1 as [|e t He Ht IH]; simpl; [reflexivity|].
  destruct e; simpl in *; try exact IH. contradiction.
Qed.

Lemma notAcknowledgement_start (checkpoint : IScribe.t PS) c (s : ScribeLambda) :
  notAcknowledgement (startEvent checkpoint c s).
Proof. unfold startEvent. destruct c; exact Logic.I. Qed.

(** X26.  The upstream offset is acknowledged from two places only: the
    duplicate filter of [handler], and the [.then] callback of a checkpoint
    operation that has settled. A batch that is not a duplicate, the idle timer
    and [close] acknowledge nothing, whatever they do. *)
Theorem only_settlements_and_duplicates_acknowledge (a : Action PS)
    (s : ScribeLambda) :
  isSettle a = false ->
  (forall env message, a = Handle env message -> isReprocess message s = false) ->
  acknowledged (snd (act cfg a s)) = [].
Proof.
  intros Ha Hd. apply acknowledged_none.
  destruct a as [env message|o|env initial|]; simpl; [| discriminate | |].
  - assert (K : maintains (fun _ : ScribeLambda => True) notAcknowledgement
                  (bind (modify (set_lastOffset (Some (offset message))))
                     (fun _ =>
                        bind (processBoxcar cfg env message (value message))
                             (fun _ => endOfBatch cfg env message)))).
    { apply (maintains_batch_with cfg _ _ (fun _ => True));
        try (intros; exact Logic.I).
      + intros. split; [exact Logic.I|apply notAcknowledgement_start].
      + intros op.
        apply (maintains_handleSummarize cfg _ _ (fun _ => True));
          try (intros; exact Logic.I).
        intros. split; [exact Logic.I|apply notAcknowledgement_start].
      + intros op. apply maintains_handleSummaryAck; intros; exact Logic.I. }
    pose proof (proj2 (K s Logic.I)) as G.
    unfold handler. unfold bind at 1, get at 1. rewrite (Hd env message eq_refl).
    match goal with
    | G : Forall _ (snd ?b) |- _ => destruct b as [[r s'] t]
    end.
    exact G.
  - assert (K : maintains (fun _ : ScribeLambda => True) notAcknowledgement
                  (idleTimeCheckpoint cfg env initial)).
    { apply (maintains_idleTimeCheckpoint cfg _ _ (fun _ => True));
        try (intros; exact Logic.I).
      intros. split; [exact Logic.I|apply notAcknowledgement_start]. }
    exact (proj2 (K s Logic.I)).
  - constructor.
Qed.

Lemma no_service_summary_act (a : Action PS) :
  serviceSummaryEnabled cfg = false ->
  maintains (fun _ : ScribeLambda => True) notServiceSummary (act cfg a).
Proof.
  intros He. apply (maintains_act cfg _ _ (fun _ => True));
    try (intros; exact Logic.I); try congruence.
  intros. split; [exact Logic.I|]. unfold startEvent. destruct c; exact Logic.I.
Qed.

(** X27.  A document for which service summaries are disabled (they are not
    generated, or the container is ephemeral, or its tenant is a transient one
    that is filtered out) never has [writeServiceSummary] called, whatever the
    lambda is given to do. *)
Theorem no_service_summary_unless_enabled (actions : list (Action PS))
    (s : ScribeLambda) :
  serviceSummaryEnabled cfg = false ->
  forall op head checkpoint pending,
    ~ In (WriteServiceSummary op head checkpoint pending) (snd (run cfg actions s)).
Proof.
  intros He op head checkpoint pending Hin.
  destruct (maintains_run cfg _ _ (fun a => no_service_summary_act a He) actions s
              Logic.I) as [_ G].
  rewrite Forall_forall in G. exact (G _ Hin).
Qed.

(** What the lambda sends beside an external summary writer. *)
Local Abbreviation besideExternalWriter :=
  (fun e : Event PS =>
     match e with
     | SendToDeli o => sentBesideExternalWriter o
     | _ => True
     end).

Lemma sentOps_beside (t : list (Event PS)) :
  Forall besideExternalWriter t ->
  forall o, In o (sentOps t) -> sentBesideExternalWriter o.
Proof.
  induction 1 as [|e t He Ht IH]; simpl; [contradiction|].
  destruct e; simpl in *; try exact IH.
  intros o [<-|Ho]; [exact He|exact (IH o Ho)].
Qed.

Lemma external_handleSummarize (env : Env) message op :
  isExternal cfg = true ->
  maintains (fun _ : ScribeLambda => True) besideExternalWriter
            (handleSummarize cfg env message op).
Proof.
  intros Hx. unfold handleSummarize. apply maintains_get. intros s0 _.
  destruct (negb (isExternal cfg)
            || (ph_sequenceNumber (protocolHandler s0) <=? referenceSequenceNumber op));
    [|apply maintains_ret].
  cbv zeta. apply maintains_bind; [|intros _].
  - apply (maintains_processFromPending cfg _ _ (fun _ => True));
      try (intros; exact Logic.I).
    intros. split; [exact Logic.I|]. unfold startEvent. destruct c; exact Logic.I.
  - intros s _. split; [exact Logic.I|].
    unfold bind at 1, get at 1.
    destruct (protocolHead s <? ph_sequenceNumber (protocolHandler s));
      [|constructor].
    unfold sendSummaryAck, sendSummaryNack, sendSummaryConfirmationMessage,
      sendToDeli, updateProtocolHead, updateLastSummarySequenceNumber,
      revertProtocolState.
    monad_unfold. rewrite Hx. simpl.
    destruct (writeClientSummary env op (lastClientSummaryHead s)
                (generateScribeCheckpoint env (lastOffset s)
                   (scrubUserDataInSummaries cfg) s)
                (pendingCheckpointMessages s) (isEphemeralContainer cfg))
      as [[ack|nack]|e]; simpl;
      try (destruct (ignoreStorageException cfg); simpl);
      try (destruct (send env (SummaryNackOp _ _)) as [[]|e']; simpl);
      repeat constructor.
Qed.

Lemma external_act (a : Action PS) :
  isExternal cfg = true ->
  maintains (fun _ : ScribeLambda => True) besideExternalWriter (act cfg a).
Proof.
  intros Hx. apply (maintains_act_with cfg _ _ (fun _ => True));
    try (intros; exact Logic.I).
  - intros. split; [exact Logic.I|]. unfold startEvent. destruct c; exact Logic.I.
  - intros. simpl. reflexivity.
  - intros env message _ op. apply external_handleSummarize. exact Hx.
  - intros op. apply maintains_handleSummaryAck; intros; exact Logic.I.
Qed.

(** X28.  Beside an external summary writer the lambda never sends a
    SummaryAck, nor an UpdateDSN for a client summary: along every run, an op
    it sends is either the UpdateDSN of a service summary or the SummaryNack it
    sends of its own when [writeClientSummary] has thrown and storage
    exceptions are ignored. *)
Theorem external_writer_leaves_acks_to_the_writer (actions : list (Action PS))
    (s : ScribeLambda) :
  isExternal cfg = true ->
  forall o, In o (sentOps (snd (run cfg actions s))) -> sentBesideExternalWriter o.
Proof.
  intros Hx.
  destruct (maintains_run cfg _ _ (fun a => external_act a Hx) actions s Logic.I)
    as [_ G].
  exact (sentOps_beside _ G).
Qed.

End ConditionalCalls.

(** Batch 5 handled by a lambda on which no write is pending: a checkpoint
    is started, nothing is acknowledged. *)
Lemma only_settlements_and_duplicates_acknowledge_witness :
  starts (snd (act Sample.cfgEveryMessage (Handle (Sample.env true) Sample.batch5)
                 Sample.soundEveryMessage)) = 1%nat
  /\ acknowledged
       (snd (act Sample.cfgEveryMessage (Handle (Sample.env true) Sample.batch5)
               Sample.soundEveryMessage)) = [].
Proof.
  split; [vm_compute; reflexivity|].
  apply (only_settlements_and_duplicates_acknowledge Sample.cfgEveryMessage).
  - reflexivity.
  - intros env message E. inversion E. reflexivity.
Defined.

(** An ephemeral container that sees a NoClient op. *)
Lemma no_service_summary_unless_enabled_witness :
  serviceSummaryEnabled Sample.cfgEphemeral = false
  /\ forall op head checkpoint pending,
       ~ In (WriteServiceSummary op head checkpoint pending)
            (snd (run Sample.cfgEphemeral
                    [Handle (Sample.env true) Sample.batchNoClient; Settle Fulfilled]
                    (Sample.lambda Sample.cfgEphemeral 10 10 4 0 None false))).
Proof.
  split; [reflexivity|].
  apply (no_service_summary_unless_enabled Sample.cfgEphemeral).
  reflexivity.
Defined.

(** An external writer that answers the Summarize op 11 with status true. *)
Lemma external_writer_leaves_acks_to_the_writer_witness :
  isExternal (Sample.configure true true false true false) = true
  /\ forall o,
       In o (sentOps
               (snd (run (Sample.configure true true false true false)
                       [Handle (Sample.env true) (Sample.batch 5 [Sample.summarize11]);
                        Settle Fulfilled]
                       (Sample.lambda (Sample.configure true true false true false)
                          10 10 4 0 None false)))) ->
       sentBesideExternalWriter o.
Proof.
  split; [reflexivity|].
  apply (external_writer_leaves_acks_to_the_writer
           (Sample.configure true true false true false)).
  reflexivity.
Defined.
